(** * krux-installer: the command-line driver, embedded and verified

    A shallow embedding of [krux-installer.py] (the CLI orchestrator of the
    acquisition / verification / flashing pipeline) and of the parts of
    [BaseFlasher] that the unit tests in [tests/test_023_base_flasher.py]
    observe.

    Conventions of the embedding:
    - a Python [str] is a Rocq [string] holding its UTF-8 encoding; where
      the code works on characters (the regular expressions of the pipeline)
      the string is cut into characters first, and the class [\d] is any
      Unicode decimal digit;
    - the collaborators imported from [src.utils] (downloaders, verifiers,
      unzippers, flasher, wiper, selector) are not part of the driver: they
      are fields of a [World] record, each one a function of the history of
      the run so far, returning a value or raising;
    - the driver runs in a monad that threads the lines still to be read on
      stdin and the trace of observable events, and that propagates Python
      exceptions. *)

From Stdlib Require Import List String Ascii Bool Arith NArith Lia.
Import ListNotations.

Local Open Scope list_scope.
Local Open Scope string_scope.

(** ** Python built-ins used by the driver *)

Module Py.

(** [sep.join(parts)]. *)
Definition join (sep : string) (parts : list string) : string :=
  String.concat sep parts.

(** [l[lo:hi]] for non-negative [lo] and [hi] (out-of-range bounds are
    clamped, as in Python; nothing is raised). *)
Definition slice {A} (l : list A) (lo hi : nat) : list A :=
  firstn (hi - lo) (skipn lo l).

(** Truthiness of an optional command-line string: [None] and the empty
    string are false. *)
Definition truthy (o : option string) : bool :=
  match o with
  | None => false
  | Some s => negb (s =? EmptyString)
  end.

(** The value of an option that is known to be truthy. *)
Definition value (o : option string) : string :=
  match o with
  | None => EmptyString
  | Some s => s
  end.

(** *** The characters of a [str]

    A [str] is a sequence of Unicode code points, and [re] matches it
    character by character. A [string] is a sequence of bytes: the UTF-8
    encoding of the [str]. [chars] cuts it into its characters, each one as
    the bytes that encode it; [code_point] decodes one character. *)

Definition byte (c : ascii) : N := N_of_ascii c.

(** [0xxxxxxx]: a character of its own. *)
Definition is_ascii (c : ascii) : bool := (byte c <? 128)%N.

(** [10xxxxxx]: a byte that continues the character opened before it. *)
Definition is_continuation (c : ascii) : bool :=
  ((128 <=? byte c) && (byte c <? 192))%N.

Definition starts_with_continuation (ch : string) : bool :=
  match ch with
  | String c _ => is_continuation c
  | EmptyString => false
  end.

(** Every byte opens a character, except that the continuation bytes which
    follow a byte outside ASCII belong to the character it opens. *)
Fixpoint chars (s : string) : list string :=
  match s with
  | EmptyString => []
  | String c s' =>
      match chars s' with
      | ch :: rest =>
          if negb (is_ascii c) && starts_with_continuation ch
          then String c ch :: rest
          else String c EmptyString :: ch :: rest
      | [] => [String c EmptyString]
      end
  end.

(** The character made of one byte. *)
Definition single (c : ascii) : string := String c EmptyString.

(** The characters put back together. *)
Fixpoint text (l : list string) : string :=
  match l with
  | [] => EmptyString
  | ch :: l' => ch ++ text l'
  end.

(** The six payload bits of a continuation byte. *)
Definition continuation_bits (b : N) : option N :=
  if ((128 <=? b) && (b <? 192))%N then Some (b - 128)%N else None.

(** The code point a character encodes, when its bytes are well-formed
    UTF-8: one to four bytes, in the shortest form, no surrogate. *)
Definition code_point (ch : string) : option N :=
  match map byte (list_ascii_of_string ch) with
  | [b0] => if (b0 <? 128)%N then Some b0 else None
  | [b0; b1] =>
      match continuation_bits b1 with
      | Some x1 =>
          let cp := ((b0 - 192) * 64 + x1)%N in
          if ((192 <=? b0) && (b0 <? 224) && (128 <=? cp))%N
          then Some cp else None
      | None => None
      end
  | [b0; b1; b2] =>
      match continuation_bits b1, continuation_bits b2 with
      | Some x1, Some x2 =>
          let cp := ((b0 - 224) * 4096 + x1 * 64 + x2)%N in
          if ((224 <=? b0) && (b0 <? 240) && (2048 <=? cp)
              && negb ((55296 <=? cp) && (cp <? 57344)))%N
          then Some cp else None
      | _, _ => None
      end
  | [b0; b1; b2; b3] =>
      match continuation_bits b1, continuation_bits b2, continuation_bits b3 with
      | Some x1, Some x2, Some x3 =>
          let cp := ((b0 - 240) * 262144 + x1 * 4096 + x2 * 64 + x3)%N in
          if ((240 <=? b0) && (b0 <? 248) && (65536 <=? cp) && (cp <? 1114112))%N
          then Some cp else None
      | _, _, _ => None
      end
  | _ => None
  end.

(** The decimal digits of Unicode (general category Nd), as in the database
    of version 14.0 that CPython 3.11 carries: 66 systems of ten consecutive
    code points, given here by the code point of their digit zero. ASCII
    [0] is 48; 1632 is ARABIC-INDIC DIGIT ZERO; 65296 is FULLWIDTH DIGIT
    ZERO. Later versions of the database add systems and remove none. *)
Definition DECIMAL_ZEROS : list N :=
  [48; 1632; 1776; 1984; 2406; 2534; 2662; 2790; 2918; 3046; 3174; 3302;
   3430; 3558; 3664; 3792; 3872; 4160; 4240; 6112; 6160; 6470; 6608; 6784;
   6800; 6992; 7088; 7232; 7248; 42528; 43216; 43264; 43472; 43504; 43600;
   44016; 65296; 66720; 68912; 69734; 69872; 69942; 70096; 70384; 70736;
   70864; 71248; 71360; 71472; 71904; 72016; 72784; 73040; 73120; 92768;
   92864; 93008; 120782; 120792; 120802; 120812; 120822; 123200; 123632;
   125264; 130032]%N.

Definition is_decimal (cp : N) : bool :=
  existsb (fun zero => ((zero <=? cp) && (cp <? zero + 10))%N) DECIMAL_ZEROS.

(** [ch.isdecimal()] for a single character: what the class [\d] of a
    [str] pattern accepts. *)
Definition isdecimal (ch : string) : bool :=
  match code_point ch with
  | Some cp => is_decimal cp
  | None => false
  end.

End Py.

(** ** The fragment of [re] the driver uses

    Both patterns of the driver are sequences of single-character items, each
    either a literal or [\d], possibly followed by [+]. ([Any], the
    unescaped dot, is there for the pattern as the specification prints it.)
    The patterns are [str] patterns compiled without flags, so [\d] is any
    Unicode decimal digit, not only [0-9]. *)

Module Re.

Inductive charset : Type :=
| Lit (c : ascii)
| Digit
| Any.

Inductive quant : Type :=
| One
| OneOrMore.

Definition item : Type := (charset * quant)%type.
Definition regex : Type := list item.

(** Does the character [ch] belong to the class: the literal itself; a
    decimal digit; any character but the newline. *)
Definition in_charset (cs : charset) (ch : string) : bool :=
  match cs with
  | Lit l => ch =? String l EmptyString
  | Digit => Py.isdecimal ch
  | Any =>
      match Py.code_point ch with
      | Some cp => negb (cp =? 10)%N
      | None => false
      end
  end.

(** Length, in characters, of the match the backtracking engine finds at
    the start of [s]: a [+] takes as many characters as it can and gives
    back only when the rest of the pattern fails. *)
Fixpoint match_len (re : regex) (s : list string) : option nat :=
  match re with
  | [] => Some 0
  | (cs, One) :: re' =>
      match s with
      | ch :: s' =>
          if in_charset cs ch then option_map S (match_len re' s') else None
      | [] => None
      end
  | (cs, OneOrMore) :: re' =>
      (fix many (s : list string) : option nat :=
         match s with
         | ch :: s' =>
             if in_charset cs ch then
               match many s' with
               | Some n => Some (S n)
               | None => option_map S (match_len re' s')
               end
             else None
         | [] => None
         end) s
  end.

(** [findall_from re s skip]: the non-overlapping matches of [re] in the
    characters [s], left to right, the first [skip] characters being part of
    the previous match. *)
Fixpoint findall_from (re : regex) (s : list string) (skip : nat)
    : list (list string) :=
  match s with
  | [] => []
  | _ :: s' =>
      match skip with
      | S k => findall_from re s' k
      | O =>
          match match_len re s with
          | Some n => firstn n s :: findall_from re s' (n - 1)
          | None => findall_from re s' 0
          end
      end
  end.

(** [re.findall(pattern, string)] for a pattern that cannot match the empty
    string. *)
Definition findall (re : regex) (s : string) : list string :=
  map Py.text (findall_from re (Py.chars s) 0).

(** Truthiness of the list [re.findall] returns. *)
Definition found (re : regex) (s : string) : bool :=
  match findall re s with
  | [] => false
  | _ :: _ => true
  end.

(** A pattern made of literal (ASCII) characters only. *)
Fixpoint literal (s : string) : regex :=
  match s with
  | EmptyString => []
  | String c s' => (Lit c, One) :: literal s'
  end.

(** Declarative meaning: the sequences of characters a pattern denotes. *)
Inductive Matches : regex -> list string -> Prop :=
| M_nil : Matches [] []
| M_one cs ch re s :
    in_charset cs ch = true -> Matches re s ->
    Matches ((cs, One) :: re) (ch :: s)
| M_last cs ch re s :
    in_charset cs ch = true -> Matches re s ->
    Matches ((cs, OneOrMore) :: re) (ch :: s)
| M_more cs ch re s :
    in_charset cs ch = true -> Matches ((cs, OneOrMore) :: re) s ->
    Matches ((cs, OneOrMore) :: re) (ch :: s).

(** [re] occurs in [s]: some stretch of the characters of [s] is denoted by
    [re]. *)
Definition Occurs (re : regex) (s : string) : Prop :=
  exists pre m post, Py.chars s = (pre ++ m ++ post)%list /\ Matches re m.

(** [re] denotes the whole of [s] (what [re.fullmatch] decides). *)
Definition Full (re : regex) (s : string) : Prop := Matches re (Py.chars s).

End Re.

(** r"odudex/krux_binaries" *)
Definition BETA_RE : Re.regex := Re.literal "odudex/krux_binaries".

(** r"v2\d\.\d+\.\d+" *)
Definition OFFICIAL_RE : Re.regex :=
  [ (Re.Lit "v", Re.One); (Re.Lit "2", Re.One); (Re.Digit, Re.One);
    (Re.Lit ".", Re.One); (Re.Digit, Re.OneOrMore);
    (Re.Lit ".", Re.One); (Re.Digit, Re.OneOrMore) ].

(** The pattern as the specification prints it, [v2\d.\d+.\d+], its dots
    unescaped. The driver does not use it. *)
Definition PRINTED_OFFICIAL_RE : Re.regex :=
  [ (Re.Lit "v", Re.One); (Re.Lit "2", Re.One); (Re.Digit, Re.One);
    (Re.Any, Re.One); (Re.Digit, Re.OneOrMore);
    (Re.Any, Re.One); (Re.Digit, Re.OneOrMore) ].

(** [marker] is a substring of [v]. *)
Definition contains (marker v : string) : Prop :=
  exists pre post, v = pre ++ marker ++ post.

(** ** Exceptions, events and the collaborators of the driver *)

Inductive exn : Type :=
| RuntimeError (msg : string)
| ValueError (msg : string)
| EOFError
| OtherError (class msg : string).

Inductive result (A : Type) : Type :=
| Ok (a : A)
| Raise (e : exn).

Arguments Ok {A} a.
Arguments Raise {A} e.

(** The files the driver fetches. *)
Inductive artifact : Type :=
| Zip | Sha256Txt | Sig | Pem | BetaKboot | BetaBin.

(** [KbootUnzip] or [FirmwareUnzip]. *)
Inductive unzip_kind : Type :=
| Kboot | Firmware.

(** The two questions the driver asks on stdin. *)
Inductive prompt : Type :=
| AskDownloadAgain (path : string)
| AskConnect (device : string).

(** What a run does that can be observed from outside, in order. Of the lines
    printed, the results are recorded (the listings and the final
    [Copy ... to your SDCard] instructions); the progress lines are not:
    they are calls to [stdout_write] below. *)
Inductive event : Type :=
| EvExists (path : string) (found : bool)
| EvInput (p : prompt) (answer : string)
| EvDownload (a : artifact)
| EvSha256 (filename : string) (ok : bool)
| EvSig (filename pemfile : string) (ok : bool)
| EvUnzip (k : unzip_kind) (filename device output : string)
| EvFlash (firmware : string)
| EvWipe
| EvPrint (line : string).

Definition history : Type := list event.

(** Everything the driver imports from [src.utils] and from the operating
    system. The outcome of a call may depend on all that happened before it
    (files written by earlier downloads, for instance), hence the [history]
    argument. [verify] of both verifiers returns a boolean, [False] on a
    mismatch; like any call it may raise, on malformed input for instance.
    [stdout_write] is the writing of a progress line or of a question to
    [sys.stdout]: most of these lines open with a symbol outside ASCII, and
    the write raises [UnicodeEncodeError] when the encoding of stdout has no
    code for it. [downloader_new] is the construction of a downloader,
    [downloader_download] its [download()]. *)
Record World : Type := {
  get_version : string;
  VALID_DEVICES : list string;
  selector_releases : history -> result (list string);
  os_path_exists : history -> string -> bool;
  stdout_write : history -> string -> result unit;
  downloader_new : history -> artifact -> result unit;
  downloader_download : history -> artifact -> result string;
  sha256_check_load : history -> string -> result string;
  sha256_load : history -> string -> result string;
  sha256_verify : history -> string -> string -> result bool;
  sig_check_load : history -> string -> result string;
  pem_check_load : history -> string -> result string;
  sig_load : history -> string -> result string;
  sig_verify : history -> string -> string -> string -> result bool;
  unzip_load : history -> unzip_kind -> string -> string -> string -> result unit;
  flasher_new : history -> string -> result unit;
  flasher_flash : history -> string -> result unit;
  wiper_new : history -> result unit;
  wiper_wipe : history -> result unit
}.

(** The parsed command line ([args = parser.parse_args()]). *)
Record Args : Type := {
  version : bool;
  available_firmwares : bool;
  available_devices : bool;
  firmware_device : option string;
  firmware_version : option string;
  destdir : string;
  flash : bool;
  wipe : bool
}.

(** ** The monad of the driver *)

Record state : Type := {
  stdin : list string;
  trace : history
}.

Definition M (A : Type) : Type := state -> result A * state.

Definition ret {A} (a : A) : M A := fun st => (Ok a, st).

Definition bind {A B} (m : M A) (k : A -> M B) : M B :=
  fun st =>
    match m st with
    | (Ok a, st') => k a st'
    | (Raise e, st') => (Raise e, st')
    end.

Definition raise {A} (e : exn) : M A := fun st => (Raise e, st).

Definition emit (e : event) : M unit :=
  fun st => (Ok tt, {| stdin := stdin st; trace := (trace st ++ [e])%list |}).

(** A call to a collaborator. *)
Definition call {A} (f : history -> result A) : M A :=
  fun st => (f (trace st), st).

Declare Scope monad_scope.
Delimit Scope monad_scope with monad.
Notation "x <- m ;; k" := (bind m (fun x => k))
  (at level 61, m at next level, right associativity) : monad_scope.
Notation "m ;; k" := (bind m (fun _ => k))
  (at level 61, right associativity) : monad_scope.
Local Open Scope monad_scope.

(** [for x in xs: body(x)] *)
Fixpoint for_each {A} (xs : list A) (body : A -> M unit) : M unit :=
  match xs with
  | [] => ret tt
  | x :: xs' => body x ;; for_each xs' body
  end.

(** [print(line)] of a line of results (the version, a listing, the final
    instructions): the line is recorded in the trace. *)
Definition print (line : string) : M unit := emit (EvPrint line).

(** [input(prompt)]: the next line of stdin, [EOFError] when there is none. *)
Definition input (p : prompt) : M string :=
  fun st =>
    match stdin st with
    | [] => (Raise EOFError, st)
    | line :: rest =>
        (Ok line, {| stdin := rest; trace := (trace st ++ [EvInput p line])%list |})
    end.

Definition run {A} (m : M A) (lines : list string) : result A * state :=
  m {| stdin := lines; trace := [] |}.

Definition outcome {A} (m : M A) (lines : list string) : result A :=
  fst (run m lines).

Definition events {A} (m : M A) (lines : list string) : history :=
  trace (snd (run m lines)).

(** ** The driver: [krux-installer.py] *)

Section Driver.

Variable w : World.
Variable args : Args.

(** [args.firmware_device], [args.firmware_version] and [args.destdir] as
    they are spliced into the f-strings of the pipeline (both options are
    truthy there). *)
Definition device : string := Py.value (firmware_device args).
Definition fversion : string := Py.value (firmware_version args).
Definition dest : string := destdir args.

(** [print(line)] for a progress line, [print()] being [progress] of the
    empty line. Progress lines are not recorded as events; writing one is a
    call that may raise. *)
Definition progress (line : string) : M unit :=
  call (fun h => stdout_write w h line).

(** [input(question)]: the question is written to stdout, then a line is
    read from stdin. *)
Definition ask (question : string) (p : prompt) : M string :=
  progress question ;;
  input p.

(** [os.path.exists(path)] *)
Definition path_exists (path : string) : M bool :=
  found <- call (fun h => Ok (os_path_exists w h path)) ;;
  emit (EvExists path found) ;;
  ret found.

(** [XDownloader(...)] and [download()] on it, for the artifact [a]: the
    event is the call of [download()]. *)
Definition download (a : artifact) : M string :=
  call (fun h => downloader_new w h a) ;;
  emit (EvDownload a) ;;
  call (fun h => downloader_download w h a).

Definition download_zip : M string :=
  progress EmptyString ;;
  progress ("⚡ Downloading " ++ dest ++ "/krux-" ++ fversion ++ ".zip release") ;;
  download Zip.

Definition download_zip_sha256sum : M string :=
  progress EmptyString ;;
  progress ("⚡ Downloading " ++ dest ++ "/krux-" ++ fversion ++ ".zip.sha256.txt") ;;
  download Sha256Txt.

Definition download_zip_sig : M string :=
  progress EmptyString ;;
  progress ("⚡ Downloading " ++ dest ++ "/krux-" ++ fversion ++ ".zip.sig") ;;
  download Sig.

Definition download_pem : M string :=
  progress EmptyString ;;
  progress ("⚡ Downloading " ++ dest ++ "/selfcustody.pem") ;;
  download Pem.

Definition verify_sha256sum (filename : string) : M bool :=
  progress EmptyString ;;
  progress ("⚠  Verifying " ++ filename ++ ".zip with " ++ filename ++ ".sha256.txt") ;;
  expected <- call (fun h => sha256_check_load w h (filename ++ ".sha256.txt")) ;;
  computed <- call (fun h => sha256_load w h filename) ;;
  progress ("sha256sum: " ++ computed) ;;
  progress ("expected:  " ++ expected) ;;
  ok <- call (fun h => sha256_verify w h computed expected) ;;
  emit (EvSha256 filename ok) ;;
  ret ok.

Definition verify_sig (filename pemfile : string) : M bool :=
  progress EmptyString ;;
  progress ("⚠  Verifying " ++ filename ++ " with " ++ filename ++ ".sig and " ++ pemfile) ;;
  signature <- call (fun h => sig_check_load w h (filename ++ ".sig")) ;;
  pubkey <- call (fun h => pem_check_load w h pemfile) ;;
  data <- call (fun h => sig_load w h filename) ;;
  ok <- call (fun h => sig_verify w h data signature pubkey) ;;
  emit (EvSig filename pemfile ok) ;;
  ret ok.

(** The block the driver repeats for each artifact: two progress lines,
    [if not os.path.exists(path): <fetch>] [else: answer = input(question)],
    then [if answer == "y": <fetch>] [else: <keep>]. *)
Definition fetch_unless_present {A} (path question : string) (fetch keep : M A)
    : M A :=
  progress EmptyString ;;
  progress ("🔍 Verifying " ++ path) ;;
  found <- path_exists path ;;
  if negb found then fetch
  else
    answer <- ask question (AskDownloadAgain path) ;;
    if answer =? "y" then fetch else keep.

Definition download_and_verify : M string :=
  let FIRMWARE_NAME := dest ++ "/krux-" ++ fversion ++ ".zip" in
  zipd <- fetch_unless_present FIRMWARE_NAME
            ("⚠️i Do you want to download " ++ FIRMWARE_NAME ++ " again? [y/n]")
            download_zip
            (ret (dest ++ "/krux-" ++ fversion ++ ".zip")) ;;
  fetch_unless_present (FIRMWARE_NAME ++ ".sha256.txt")
    ("⚠️  Do you want to download " ++ FIRMWARE_NAME ++ ".sha256.txt again? [y/n]")
    (download_zip_sha256sum ;; ret tt)
    (ret tt) ;;
  fetch_unless_present (FIRMWARE_NAME ++ ".sig")
    ("⚠️  Do you want to download " ++ FIRMWARE_NAME ++ ".sig again? [y/n]")
    (download_zip_sig ;; ret tt)
    (ret tt) ;;
  pemfile <- fetch_unless_present (dest ++ "/selfcustody.pem")
               ("⚠️  Do you want to download " ++ dest ++ "/selfcustody.pem again? [y/n]")
               download_pem
               (ret (dest ++ "/selfcustody.pem")) ;;
  ok <- verify_sha256sum zipd ;;
  (if negb ok then raise (RuntimeError "Invalid sha256sum") else ret tt) ;;
  progress "✅ Sha256sum Verified Sucessfully" ;;
  ok <- verify_sig zipd pemfile ;;
  (if negb ok then raise (RuntimeError "Invalid signature") else ret tt) ;;
  progress "✅ Signature Verified Successfully" ;;
  ret zipd.

Definition download_kboot_beta : M unit :=
  progress ("⚡ Downloading firmware to " ++ dest ++ "/kboot.kfpkg") ;;
  download BetaKboot ;;
  progress EmptyString.

Definition download_bin_beta : M unit :=
  progress ("⚡ Downloading firmware to " ++ dest ++ "/firmware.bin") ;;
  download BetaBin ;;
  progress EmptyString.

(** [Flasher(firmware=path)] followed by [flasher.flash()]. *)
Definition flasher_run (path : string) : M unit :=
  call (fun h => flasher_new w h path) ;;
  emit (EvFlash path) ;;
  call (fun h => flasher_flash w h path).

(** [XUnzip(filename=..., device=..., output=...)] and [unzip.load()]. *)
Definition unzip (k : unzip_kind) (filename dev output : string) : M unit :=
  emit (EvUnzip k filename dev output) ;;
  call (fun h => unzip_load w h k filename dev output).

(** The path the official branch builds after extraction. *)
Definition extracted (name : string) : string :=
  Py.join "/" [dest; "krux-" ++ fversion; "/maixpy_" ++ device; name].

(** The question of the beta blocks about the file [name]. *)
Definition beta_question (name : string) : string :=
  Py.join " " ["⚠️  Do you want to download " ++ name ++ " for"; "'" ++ device ++ "' again? [y/n]"].

(** The question asked before flashing. *)
Definition connect_question : string :=
  "✋ Please connect your '" ++ device ++ "' and press enter".

Definition beta_flash : M unit :=
  let KBOOT_NAME := dest ++ "/kboot.kfpkg" in
  fetch_unless_present KBOOT_NAME (beta_question KBOOT_NAME)
    download_kboot_beta (ret tt) ;;
  progress EmptyString ;;
  progress ("✏️/ Flashing firmware from " ++ KBOOT_NAME) ;;
  ask connect_question (AskConnect device) ;;
  flasher_run KBOOT_NAME.

Definition beta_store : M unit :=
  let FIRMWARE_NAME := dest ++ "/firmware.bin" in
  fetch_unless_present FIRMWARE_NAME (beta_question FIRMWARE_NAME)
    download_bin_beta (ret tt) ;;
  print ("Copy " ++ FIRMWARE_NAME ++ " for '" ++ device ++ "' to your SDCard").

Definition official_flash : M unit :=
  ZIPFILE <- download_and_verify ;;
  progress EmptyString ;;
  progress ("📤 Unzipping " ++ ZIPFILE ++ " for " ++ device) ;;
  unzip Kboot ZIPFILE device dest ;;
  let KBOOT_NAME := extracted "kboot.kfpkg" in
  progress EmptyString ;;
  progress ("✏️  Flashing " ++ fversion ++ " for " ++ device) ;;
  ask connect_question (AskConnect device) ;;
  flasher_run KBOOT_NAME.

Definition official_store : M unit :=
  ZIPFILE <- download_and_verify ;;
  progress EmptyString ;;
  progress ("📤 Unzipping " ++ ZIPFILE ++ " for " ++ device) ;;
  unzip Firmware ZIPFILE device dest ;;
  let FIRMWARE_NAME := extracted "firmware.bin" in
  progress EmptyString ;;
  print ("Copy " ++ FIRMWARE_NAME ++ " to your SDCard") ;;
  print ("Copy " ++ FIRMWARE_NAME ++ ".sig to your SDCard").

(** The branch [elif args.firmware_device and args.firmware_version]. *)
Definition pipeline : M unit :=
  if Re.found BETA_RE fversion then
    if flash args then beta_flash else beta_store
  else if Re.found OFFICIAL_RE fversion then
    if flash args then official_flash else official_store
  else ret tt.

(** [VALID_DEVICES[1:len(VALID_DEVICES)]] *)
Definition listed_devices : list string :=
  Py.slice (VALID_DEVICES w) 1 (List.length (VALID_DEVICES w)).

(** The [if]/[elif] chain on the parsed options: what the script does once
    [parser.parse_args()] has returned, on one of the platforms it accepts. *)
Definition main : M unit :=
  if version args then
    print (get_version w)
  else if available_firmwares args then
    releases <- call (selector_releases w) ;;
    for_each releases (fun v => print ("* " ++ v))
  else if available_devices args then
    for_each listed_devices (fun d => print ("* " ++ d))
  else if wipe args then
    progress "🔥 Wiping firmware and data. Please be patient and wait until process finish." ;;
    call (wiper_new w) ;;
    emit EvWipe ;;
    call (wiper_wipe w)
  else if Py.truthy (firmware_device args)
          && negb (Py.truthy (firmware_version args)) then
    raise (RuntimeError
             "--firmware-device should be paired with --firmware-version option")
  else if Py.truthy (firmware_device args)
          && Py.truthy (firmware_version args) then
    pipeline
  else ret tt.

End Driver.

(** The on-disk name of each artifact, as the driver spells it in its
    existence checks. *)
Definition artifact_path (args : Args) (a : artifact) : string :=
  match a with
  | Zip => dest args ++ "/krux-" ++ fversion args ++ ".zip"
  | Sha256Txt => (dest args ++ "/krux-" ++ fversion args ++ ".zip") ++ ".sha256.txt"
  | Sig => (dest args ++ "/krux-" ++ fversion args ++ ".zip") ++ ".sig"
  | Pem => dest args ++ "/selfcustody.pem"
  | BetaKboot => dest args ++ "/kboot.kfpkg"
  | BetaBin => dest args ++ "/firmware.bin"
  end.

(** Which artifact set a version string selects: the guards of [pipeline],
    in their order. *)
Inductive artifact_set : Type :=
| BetaSet | OfficialSet | NoSet.

Definition selected (v : string) : artifact_set :=
  if Re.found BETA_RE v then BetaSet
  else if Re.found OFFICIAL_RE v then OfficialSet
  else NoSet.

(** ** [BaseFlasher]: the setters the unit tests exercise *)

Module BaseFlasher.

(** The supported devices. *)
Definition DEVICES : list string :=
  ["amigo"; "amigo_tft"; "amigo_ips"; "m5stickv"; "bit"; "dock"; "yahboom"; "cube"].

(** The spec's [UnsupportedDeviceError]; the tests observe it as a
    [ValueError] whose text is [Device not implemented: <device>]. *)
Definition UnsupportedDeviceError (device : string) : exn :=
  ValueError ("Device not implemented: " ++ device).

Definition member (x : string) (l : list string) : bool :=
  existsb (String.eqb x) l.

(** Modelled from the spec: the [port] setter of
    [src/utils/flasher/base_flasher.py], which is not among the sources.
    It selects the USB vendor-ID class that [list_ports.grep] is called
    with (section 3 of the spec, tests [test_set_port_*] and
    [test_fail_set_port]). *)
Definition usb_vendor_id (device : string) : result string :=
  if member device ["amigo"; "amigo_tft"; "amigo_ips"; "m5stickv"; "bit"; "cube"]
  then Ok "0403"
  else if member device ["dock"; "yahboom"] then Ok "7523"
  else Raise (UnsupportedDeviceError device).

(** Modelled from the spec: the [board] setter of
    [src/utils/flasher/base_flasher.py], which is not among the sources
    (section 3 of the spec, tests [test_set_board_*] and
    [test_fail_set_board]). *)
Definition board_codename (device : string) : result string :=
  if member device
       ["amigo"; "amigo_tft"; "amigo_ips"; "m5stickv"; "bit"; "yahboom"; "cube"]
  then Ok "goE"
  else if member device ["dock"] then Ok "dan"
  else Raise (UnsupportedDeviceError device).

(** The catalog lookup of the spec: both attributes of a device. *)
Definition lookup (device : string) : result (string * string) :=
  match usb_vendor_id device with
  | Raise e => Raise e
  | Ok vendor =>
      match board_codename device with
      | Raise e => Raise e
      | Ok codename => Ok (vendor, codename)
      end
  end.

(** The attributes of a flasher object. *)
Record t : Type := {
  firmware : option string;
  port : option string;
  board : option string
}.

Definition new : t := {| firmware := None; port := None; board := None |}.

Section Disk.

(** [os.path.exists] at the time of the assignments. *)
Variable exists_on_disk : string -> bool.

(** Modelled from the spec: the [firmware] setter of
    [src/utils/flasher/base_flasher.py], which is not among the sources
    (tests [test_set_firmware] and [test_fail_set_firmware]): it asks
    [os.path.exists] once and raises before storing anything. *)
Definition set_firmware (value : string) (b : t) : result t :=
  if negb (exists_on_disk value)
  then Raise (ValueError ("File do not exist: " ++ value))
  else Ok {| firmware := Some value; port := port b; board := board b |}.

(** A flasher after the assignment [b.firmware = value], whether it
    raised or not: a raising setter leaves the object as it was. *)
Definition after_assignment (b : t) (value : string) : t :=
  match set_firmware value b with
  | Ok b' => b'
  | Raise _ => b
  end.

Definition after_assignments (values : list string) (b : t) : t :=
  fold_left after_assignment values b.

(** The firmware path a flasher holds, if any, exists. *)
Definition holds_existing (b : t) : Prop :=
  match firmware b with
  | None => True
  | Some p => exists_on_disk p = true
  end.

End Disk.

End BaseFlasher.

(** ** Sample worlds and command lines *)

Module Sample.

(** Collaborators that always succeed, on a disk that holds none of the
    artifacts; downloads go to [/tmp] for release [v25.1.0]. *)
Definition world (sha_ok sig_ok : bool) : World := {|
  get_version := "0.0.20";
  VALID_DEVICES :=
    ["select a new one"; "m5stickv"; "amigo"; "dock"; "bit"; "yahboom"; "cube"];
  selector_releases := fun _ => Ok ["v25.1.0"; "odudex/krux_binaries"];
  os_path_exists := fun _ _ => false;
  stdout_write := fun _ _ => Ok tt;
  downloader_new := fun _ _ => Ok tt;
  downloader_download := fun _ a =>
    Ok (match a with
        | Zip => "/tmp/krux-v25.1.0.zip"
        | Sha256Txt => "/tmp/krux-v25.1.0.zip.sha256.txt"
        | Sig => "/tmp/krux-v25.1.0.zip.sig"
        | Pem => "/tmp/selfcustody.pem"
        | BetaKboot => "/tmp/kboot.kfpkg"
        | BetaBin => "/tmp/firmware.bin"
        end);
  sha256_check_load := fun _ _ => Ok "expected";
  sha256_load := fun _ _ => Ok "computed";
  sha256_verify := fun _ _ _ => Ok sha_ok;
  sig_check_load := fun _ _ => Ok "signature";
  pem_check_load := fun _ _ => Ok "pubkey";
  sig_load := fun _ _ => Ok "data";
  sig_verify := fun _ _ _ _ => Ok sig_ok;
  unzip_load := fun _ _ _ _ _ => Ok tt;
  flasher_new := fun _ _ => Ok tt;
  flasher_flash := fun _ _ => Ok tt;
  wiper_new := fun _ => Ok tt;
  wiper_wipe := fun _ => Ok tt
|}.

Definition honest : World := world true true.

(** The same, on a disk that already holds every artifact. *)
Definition cached : World := {|
  get_version := get_version honest;
  VALID_DEVICES := VALID_DEVICES honest;
  selector_releases := selector_releases honest;
  os_path_exists := fun _ _ => true;
  stdout_write := stdout_write honest;
  downloader_new := downloader_new honest;
  downloader_download := downloader_download honest;
  sha256_check_load := sha256_check_load honest;
  sha256_load := sha256_load honest;
  sha256_verify := sha256_verify honest;
  sig_check_load := sig_check_load honest;
  pem_check_load := pem_check_load honest;
  sig_load := sig_load honest;
  sig_verify := sig_verify honest;
  unzip_load := unzip_load honest;
  flasher_new := flasher_new honest;
  flasher_flash := flasher_flash honest;
  wiper_new := wiper_new honest;
  wiper_wipe := wiper_wipe honest
|}.

(** The line read when the user just presses enter. *)
Definition enter : string := EmptyString.

(** [krux-installer -d <device> -f <version> -D /tmp [-F]] *)
Definition install (dev ver : string) (do_flash : bool) : Args := {|
  version := false;
  available_firmwares := false;
  available_devices := false;
  firmware_device := Some dev;
  firmware_version := Some ver;
  destdir := "/tmp";
  flash := do_flash;
  wipe := false
|}.

(** [krux-installer -d dock -f v25.1.0 -D /tmp -F] *)
Definition flash_official : Args := install "dock" "v25.1.0" true.

(** [krux-installer -d dock -f odudex/krux_binaries -D /tmp -F] *)
Definition flash_beta : Args := install "dock" "odudex/krux_binaries" true.

(** [krux-installer -w -D /tmp] *)
Definition wipe_only : Args := {|
  version := false;
  available_firmwares := false;
  available_devices := false;
  firmware_device := None;
  firmware_version := None;
  destdir := "/tmp";
  flash := false;
  wipe := true
|}.

(** [krux-installer -w -d amigo -D /tmp] *)
Definition wipe_with_device : Args := {|
  version := false;
  available_firmwares := false;
  available_devices := false;
  firmware_device := Some "amigo";
  firmware_version := None;
  destdir := "/tmp";
  flash := false;
  wipe := true
|}.

(** [krux-installer -d amigo -D /tmp] *)
Definition device_only : Args := {|
  version := false;
  available_firmwares := false;
  available_devices := false;
  firmware_device := Some "amigo";
  firmware_version := None;
  destdir := "/tmp";
  flash := false;
  wipe := false
|}.

(** [krux-installer -A] *)
Definition list_devices : Args := {|
  version := false;
  available_firmwares := false;
  available_devices := true;
  firmware_device := None;
  firmware_version := None;
  destdir := "/tmp";
  flash := false;
  wipe := false
|}.

End Sample.

(** ** Predicates on runs *)

(** [m] only ever extends the trace, and what it appends satisfies [P]. *)
Definition Emits {A} (P : history -> Prop) (m : M A) : Prop :=
  forall st, exists d, trace (snd (m st)) = (trace st ++ d)%list /\ P d.

(** Predicates on appended traces that contain the empty trace and are
    closed under concatenation compose along [bind]. *)
Record Sequential (P : history -> Prop) : Prop := {
  seq_nil : P [];
  seq_app : forall d1 d2, P d1 -> P d2 -> P (d1 ++ d2)%list
}.

(** [m] only ever extends the trace; its outcome and what it appends are
    related by [P]. *)
Definition Runs {A} (P : result A -> history -> Prop) (m : M A) : Prop :=
  forall st, exists d, trace (snd (m st)) = (trace st ++ d)%list /\ P (fst (m st)) d.

(** ** Kinds of events *)

(** Events of the check / prompt / download blocks. *)
Definition fetch_event (e : event) : Prop :=
  match e with
  | EvExists _ _ | EvDownload _ | EvInput (AskDownloadAgain _) _ => True
  | _ => False
  end.

Definition print_event (e : event) : Prop :=
  match e with
  | EvPrint _ => True
  | _ => False
  end.

(** Events of the beta branch: fetching, the connect prompt, flashing, the
    final instruction. *)
Definition beta_event (e : event) : Prop :=
  match e with
  | EvExists _ _ | EvDownload _ | EvInput _ _ | EvFlash _ | EvPrint _ => True
  | _ => False
  end.

(** Events outside the check / prompt / download blocks. *)
Definition plain_event (e : event) : Prop :=
  match e with
  | EvExists _ _ | EvDownload _ | EvInput (AskDownloadAgain _) _ => False
  | _ => True
  end.

(** ** The check / prompt / download block *)

(** The ways the block for the file [p] of artifact [a] can go: stopped
    before the look on disk (a progress line that cannot be written);
    absent, and stopped before [download()] or downloaded; present and no
    answer read (stdin exhausted, or the question cannot be written);
    present and, on "y", stopped before [download()] or downloaded again;
    present and kept on any other answer. *)
Inductive fetch_trace (p : string) (a : artifact) : history -> Prop :=
| ft_unchecked : fetch_trace p a []
| ft_absent_stopped : fetch_trace p a [EvExists p false]
| ft_absent : fetch_trace p a [EvExists p false; EvDownload a]
| ft_eof : fetch_trace p a [EvExists p true]
| ft_again_stopped :
    fetch_trace p a [EvExists p true; EvInput (AskDownloadAgain p) "y"]
| ft_again :
    fetch_trace p a [EvExists p true; EvInput (AskDownloadAgain p) "y"; EvDownload a]
| ft_keep answer :
    answer <> "y" ->
    fetch_trace p a [EvExists p true; EvInput (AskDownloadAgain p) answer].

(** ** The shape of a run *)

Section Shapes.

Variable args : Args.

(** Outcome and trace of [download_and_verify]: [pre] holds the events of
    the four check / prompt / download blocks. *)
Inductive dav_shape : result string -> history -> Prop :=
| dav_unverified e pre :
    Forall fetch_event pre ->
    dav_shape (Raise e) pre
| dav_bad_sha zip pre :
    Forall fetch_event pre ->
    dav_shape (Raise (RuntimeError "Invalid sha256sum"))
      (pre ++ [EvSha256 zip false])%list
| dav_sig_unchecked e zip pre :
    Forall fetch_event pre ->
    dav_shape (Raise e) (pre ++ [EvSha256 zip true])%list
| dav_bad_sig zip pem pre :
    Forall fetch_event pre ->
    dav_shape (Raise (RuntimeError "Invalid signature"))
      (pre ++ [EvSha256 zip true; EvSig zip pem false])%list
| dav_unannounced e zip pem pre :
    Forall fetch_event pre ->
    dav_shape (Raise e) (pre ++ [EvSha256 zip true; EvSig zip pem true])%list
| dav_verified zip pem pre :
    Forall fetch_event pre ->
    dav_shape (Ok zip) (pre ++ [EvSha256 zip true; EvSig zip pem true])%list.

(** What the official branch does once [download_and_verify] has returned
    the archive [zip]. *)
Inductive after_verification (zip : string) : history -> Prop :=
| av_none :
    after_verification zip []
| av_store_failed :
    after_verification zip [EvUnzip Firmware zip (device args) (dest args)]
| av_stored :
    after_verification zip
      [EvUnzip Firmware zip (device args) (dest args);
       EvPrint ("Copy " ++ extracted args "firmware.bin" ++ " to your SDCard");
       EvPrint ("Copy " ++ extracted args "firmware.bin" ++ ".sig to your SDCard")]
| av_unzipped :
    after_verification zip [EvUnzip Kboot zip (device args) (dest args)]
| av_connected answer :
    after_verification zip
      [EvUnzip Kboot zip (device args) (dest args);
       EvInput (AskConnect (device args)) answer]
| av_flashed answer :
    after_verification zip
      [EvUnzip Kboot zip (device args) (dest args);
       EvInput (AskConnect (device args)) answer;
       EvFlash (extracted args "kboot.kfpkg")].

Inductive official_shape : result unit -> history -> Prop :=
| of_failed e d :
    dav_shape (Raise e) d ->
    official_shape (Raise e) d
| of_verified r zip d post :
    dav_shape (Ok zip) d ->
    after_verification zip post ->
    official_shape r (d ++ post)%list.

(** The options under which the wipe branch is the one taken. *)
Definition wipe_selected : Prop :=
  version args = false /\ available_firmwares args = false /\
  available_devices args = false /\ wipe args = true.

(** Outcome and trace of [main], branch by branch. *)
Inductive run_shape : result unit -> history -> Prop :=
| shape_quiet r d :
    Forall print_event d ->
    run_shape r d
| shape_wipe r :
    wipe_selected ->
    run_shape r [EvWipe]
| shape_beta r d :
    Re.found BETA_RE (fversion args) = true ->
    Forall beta_event d ->
    run_shape r d
| shape_official r d :
    Re.found BETA_RE (fversion args) = false ->
    official_shape r d ->
    run_shape r d.

(** The download policy for the artifact [a], on a trace. *)
Definition download_policy (a : artifact) (d : history) : Prop :=
  In (EvDownload a) d <->
  In (EvExists (artifact_path args a) false) d \/
  In (EvInput (AskDownloadAgain (artifact_path args a)) "y") d.

(** Its first half: what a download of [a] needs. *)
Definition download_needs (a : artifact) (d : history) : Prop :=
  In (EvDownload a) d ->
  In (EvExists (artifact_path args a) false) d \/
  In (EvInput (AskDownloadAgain (artifact_path args a)) "y") d.

End Shapes.


(** ** Finer predicates on runs *)

(** The events a check / prompt / download block for the artifact [a] can
    produce. *)
Definition block_event (args : Args) (a : artifact) (e : event) : Prop :=
  match e with
  | EvExists p _ => p = artifact_path args a
  | EvDownload a' => a' = a
  | EvInput (AskDownloadAgain p) _ => p = artifact_path args a
  | _ => False
  end.

(** The artifacts of the set a command line selects: one beta binary, chosen
    by the flash option, or the four files of an official release. *)
Definition fetched_artifacts (args : Args) : list artifact :=
  match selected (fversion args) with
  | BetaSet => [if flash args then BetaKboot else BetaBin]
  | OfficialSet => [Zip; Sha256Txt; Sig; Pem]
  | NoSet => []
  end.

(** The lines read from stdin, as the trace records them. *)
Fixpoint answers (d : history) : list string :=
  match d with
  | [] => []
  | EvInput _ answer :: d' => answer :: answers d'
  | _ :: d' => answers d'
  end.

(** ** The download policy, in the words of the specification

    The specification has the orchestrator check local existence first and
    invoke [download()] only when the file is absent or the user explicitly
    requests the re-fetch. [policy_block] is the block this prescribes for
    the file [p] of the artifact [a], given whether the file is present and
    the lines still unread on stdin: the look on disk; for a present file,
    the answer read, when there is one; and the download exactly when the
    file is absent or the answer is [y]. *)
Definition policy_block (p : string) (a : artifact) (present : bool)
    (unread : list string) : history :=
  if negb present then [EvExists p false; EvDownload a]
  else
    match unread with
    | [] => [EvExists p true]
    | answer :: _ =>
        if answer =? "y"
        then [EvExists p true; EvInput (AskDownloadAgain p) answer; EvDownload a]
        else [EvExists p true; EvInput (AskDownloadAgain p) answer]
    end.

(** A block comes to its end unless its question finds stdin exhausted. *)
Definition policy_block_ends (present : bool) (unread : list string) : bool :=
  negb present || match unread with [] => false | _ :: _ => true end.

(** The blocks of the artifacts [arts], one after the other for as long as
    they come to their end: each one looks at the disk as the history so far
    left it, and reads the first of the lines the blocks before it left
    unread. *)
Fixpoint policy_fetches (w : World) (args : Args) (arts : list artifact)
    (h : history) (unread : list string) : history :=
  match arts with
  | [] => []
  | a :: arts' =>
      let present := os_path_exists w h (artifact_path args a) in
      let b := policy_block (artifact_path args a) a present unread in
      if policy_block_ends present unread
      then (b ++ policy_fetches w args arts' (h ++ b)
                   (skipn (List.length (answers b)) unread))%list
      else b
  end.

(** A block that ran to its end: [downloaded] tells whether [download()] was
    invoked (absent file, or the answer [y]) or the existing file kept. *)
Inductive block_done (p : string) (a : artifact) : bool -> history -> Prop :=
| bd_absent : block_done p a true [EvExists p false; EvDownload a]
| bd_again :
    block_done p a true
      [EvExists p true; EvInput (AskDownloadAgain p) "y"; EvDownload a]
| bd_keep answer :
    answer <> "y" ->
    block_done p a false [EvExists p true; EvInput (AskDownloadAgain p) answer].

(** The options under which the pipeline is the branch taken. *)
Definition pipeline_selected (args : Args) : Prop :=
  version args = false /\ available_firmwares args = false /\
  available_devices args = false /\ wipe args = false /\
  Py.truthy (firmware_device args) = true /\
  Py.truthy (firmware_version args) = true.

Section Grammar.

Variable args : Args.

(** Blocks run to their end, one after the other. *)
Inductive blocks : list (artifact * bool) -> history -> Prop :=
| blocks_nil : blocks [] []
| blocks_cons a downloaded rest d ds :
    block_done (artifact_path args a) a downloaded d ->
    blocks rest ds ->
    blocks ((a, downloaded) :: rest) (d ++ ds)%list.

(** The verification phase of [download_and_verify] on [zip] and [pem]. *)
Inductive verdicts (zip pem : string) : result string -> history -> Prop :=
| vd_unloaded e : verdicts zip pem (Raise e) []
| vd_bad_sha :
    verdicts zip pem (Raise (RuntimeError "Invalid sha256sum")) [EvSha256 zip false]
| vd_sig_unloaded e : verdicts zip pem (Raise e) [EvSha256 zip true]
| vd_bad_sig :
    verdicts zip pem (Raise (RuntimeError "Invalid signature"))
      [EvSha256 zip true; EvSig zip pem false]
| vd_unannounced e :
    verdicts zip pem (Raise e) [EvSha256 zip true; EvSig zip pem true]
| vd_ok : verdicts zip pem (Ok zip) [EvSha256 zip true; EvSig zip pem true].

(** [download_and_verify], block by block: it stops in the block of some
    artifact, those before it being done, or it does the four blocks and
    goes through the verification phase, on the files the first and the
    last block hand over. *)
Inductive dav_run : result string -> history -> Prop :=
| dr_stopped e done a rest ds d :
    [Zip; Sha256Txt; Sig; Pem] = (map fst done ++ a :: rest)%list ->
    blocks done ds ->
    fetch_trace (artifact_path args a) a d ->
    dav_run (Raise e) (ds ++ d)%list
| dr_checked r b1 b2 b3 b4 zip pem ds v :
    blocks [(Zip, b1); (Sha256Txt, b2); (Sig, b3); (Pem, b4)] ds ->
    (b1 = false -> zip = artifact_path args Zip) ->
    (b4 = false -> pem = artifact_path args Pem) ->
    verdicts zip pem r v ->
    dav_run r (ds ++ v)%list.

(** The connect prompt and the flash of [target]: stopped before the
    answer, after it, or done. *)
Inductive connect_and_flash (target : string) : history -> Prop :=
| cf_none : connect_and_flash target []
| cf_connected answer :
    connect_and_flash target [EvInput (AskConnect (device args)) answer]
| cf_flashed answer :
    connect_and_flash target
      [EvInput (AskConnect (device args)) answer; EvFlash target].

Inductive official_run : history -> Prop :=
| or_failed e d :
    dav_run (Raise e) d ->
    official_run d
| or_verified zip d :
    dav_run (Ok zip) d ->
    official_run d
| or_flash zip d tail :
    flash args = true ->
    dav_run (Ok zip) d ->
    connect_and_flash (extracted args "kboot.kfpkg") tail ->
    official_run (d ++ EvUnzip Kboot zip (device args) (dest args) :: tail)%list
| or_unzip_failed zip d :
    flash args = false ->
    dav_run (Ok zip) d ->
    official_run (d ++ [EvUnzip Firmware zip (device args) (dest args)])%list
| or_store zip d :
    flash args = false ->
    dav_run (Ok zip) d ->
    official_run
      (d ++ [EvUnzip Firmware zip (device args) (dest args);
             EvPrint ("Copy " ++ extracted args "firmware.bin" ++ " to your SDCard");
             EvPrint ("Copy " ++ extracted args "firmware.bin"
                      ++ ".sig to your SDCard")])%list.

Inductive beta_run : history -> Prop :=
| br_flash d tail :
    flash args = true ->
    fetch_trace (artifact_path args BetaKboot) BetaKboot d ->
    connect_and_flash (dest args ++ "/kboot.kfpkg") tail ->
    beta_run (d ++ tail)%list
| br_unfetched d :
    flash args = false ->
    fetch_trace (artifact_path args BetaBin) BetaBin d ->
    beta_run d
| br_store downloaded d :
    flash args = false ->
    block_done (artifact_path args BetaBin) BetaBin downloaded d ->
    beta_run
      (d ++ [EvPrint ("Copy " ++ (dest args ++ "/firmware.bin") ++ " for '"
                      ++ device args ++ "' to your SDCard")])%list.

(** The trace of [main], branch by branch. *)
Inductive run_trace : history -> Prop :=
| rt_quiet d :
    Forall print_event d ->
    run_trace d
| rt_wipe :
    wipe_selected args ->
    run_trace [EvWipe]
| rt_beta d :
    pipeline_selected args ->
    selected (fversion args) = BetaSet ->
    beta_run d ->
    run_trace d
| rt_official d :
    pipeline_selected args ->
    selected (fversion args) = OfficialSet ->
    official_run d ->
    run_trace d.

End Grammar.

(** The kinds of events. *)
Inductive event_kind : Type :=
| KExists | KPrompt | KConnect | KDownload | KSha256 | KSig
| KUnzip | KFlash | KWipe | KPrint.

Definition kind (e : event) : event_kind :=
  match e with
  | EvExists _ _ => KExists
  | EvInput (AskDownloadAgain _) _ => KPrompt
  | EvInput (AskConnect _) _ => KConnect
  | EvDownload _ => KDownload
  | EvSha256 _ _ => KSha256
  | EvSig _ _ _ => KSig
  | EvUnzip _ _ _ _ => KUnzip
  | EvFlash _ => KFlash
  | EvWipe => KWipe
  | EvPrint _ => KPrint
  end.

(** All the events of [d] are of one of the kinds [ks]. *)
Definition kinds_in (ks : list event_kind) (d : history) : Prop :=
  Forall (fun e => In (kind e) ks) d.

(** [m] takes from stdin exactly the answers it records, in order. *)
Definition ReadsPrompts {A} (m : M A) : Prop :=
  forall st, exists d,
    trace (snd (m st)) = (trace st ++ d)%list /\
    stdin st = (answers d ++ stdin (snd (m st)))%list.

(** The most lines a run reads: one for each file of the set the version
    string selects, and one more before flashing. *)
Definition prompts_at_most (args : Args) : nat :=
  match selected (fversion args) with
  | OfficialSet => 4 + (if flash args then 1 else 0)
  | BetaSet => 1 + (if flash args then 1 else 0)
  | NoSet => 0
  end.

(** ** Failure and success of a run *)

(** A world none of whose collaborators raises, and whose stdout takes
    every line written to it. *)
Record Calm (w : World) : Prop := {
  calm_selector : forall h, exists v, selector_releases w h = Ok v;
  calm_stdout : forall h line, exists v, stdout_write w h line = Ok v;
  calm_downloader : forall h a, exists v, downloader_new w h a = Ok v;
  calm_download : forall h a, exists v, downloader_download w h a = Ok v;
  calm_sha256_check : forall h f, exists v, sha256_check_load w h f = Ok v;
  calm_sha256_load : forall h f, exists v, sha256_load w h f = Ok v;
  calm_sha256_verify : forall h c x, exists v, sha256_verify w h c x = Ok v;
  calm_sig_check : forall h f, exists v, sig_check_load w h f = Ok v;
  calm_pem_check : forall h f, exists v, pem_check_load w h f = Ok v;
  calm_sig_load : forall h f, exists v, sig_load w h f = Ok v;
  calm_sig_verify : forall h d s k, exists v, sig_verify w h d s k = Ok v;
  calm_unzip : forall h k f d o, exists v, unzip_load w h k f d o = Ok v;
  calm_flasher_new : forall h f, exists v, flasher_new w h f = Ok v;
  calm_flasher_flash : forall h f, exists v, flasher_flash w h f = Ok v;
  calm_wiper_new : forall h, exists v, wiper_new w h = Ok v;
  calm_wiper_wipe : forall h, exists v, wiper_wipe w h = Ok v
}.

(** A world whose verifiers find nothing wrong. *)
Definition Genuine (w : World) : Prop :=
  (forall h c x, sha256_verify w h c x = Ok true) /\
  (forall h d s k, sig_verify w h d s k = Ok true).



(** Given [k] lines on stdin, [m] returns, having read at most [k] of them,
    and its value and the events it appends satisfy [Q]. *)
Definition Succeeds {A} (k : nat) (Q : A -> history -> Prop) (m : M A) : Prop :=
  forall st,
    k <= List.length (stdin st) ->
    exists a st' d,
      m st = (Ok a, st') /\
      trace st' = (trace st ++ d)%list /\
      List.length (stdin st) <= List.length (stdin st') + k /\
      Q a d.

(** [fetch] either raises before it invokes [download()], or invokes it for
    the artifact [a] and adds no other event. *)
Definition Fetching {A} (a : artifact) (fetch : M A) : Prop :=
  forall st,
    (trace (snd (fetch st)) = trace st /\ exists e, fst (fetch st) = Raise e) \/
    trace (snd (fetch st)) = (trace st ++ [EvDownload a])%list.

(** [fetch] invokes [download()] for the artifact [a], and returns. *)
Definition Downloads {A} (a : artifact) (fetch : M A) : Prop :=
  forall st, exists v,
    fetch st = (Ok v, {| stdin := stdin st;
                         trace := (trace st ++ [EvDownload a])%list |}).

(** [m] is the block the policy prescribes for the artifact [a]: it adds
    the events of [policy_block], takes the answer it records from stdin,
    and returns exactly when the block comes to its end. *)
Definition FollowsPolicy {A} (w : World) (args : Args) (a : artifact) (m : M A)
    : Prop :=
  forall st,
    let present := os_path_exists w (trace st) (artifact_path args a) in
    let b := policy_block (artifact_path args a) a present (stdin st) in
    exists r,
      m st = (r, {| stdin := skipn (List.length (answers b)) (stdin st);
                    trace := (trace st ++ b)%list |}) /\
      if policy_block_ends present (stdin st)
      then exists v, r = Ok v
      else exists e, r = Raise e.

(** The events that are not of the check / prompt / download blocks. *)
Definition AFTER_FETCHES : list event_kind :=
  [KSha256; KSig; KUnzip; KConnect; KFlash; KPrint].

(** [m] does the blocks of [arts] as the policy prescribes, then things
    that are not of these blocks. *)
Definition Fetches {A} (w : World) (args : Args) (arts : list artifact) (m : M A)
    : Prop :=
  forall st, exists tail,
    trace (snd (m st)) =
      (trace st ++ policy_fetches w args arts (trace st) (stdin st) ++ tail)%list /\
    kinds_in AFTER_FETCHES tail.

(** The file a flash run flashes. *)
Definition flash_target (args : Args) : string :=
  match selected (fversion args) with
  | BetaSet => dest args ++ "/kboot.kfpkg"
  | _ => extracted args "kboot.kfpkg"
  end.

(** A block either runs to its end, handing over what [download()] returned
    or, the file being kept, the value [kept]; or it raises. *)
Definition block_spec {A} (p : string) (a : artifact) (kept : A)
    (r : result A) (d : history) : Prop :=
  match r with
  | Ok v => exists downloaded,
              block_done p a downloaded d /\ (downloaded = false -> v = kept)
  | Raise _ => fetch_trace p a d
  end.


(** [m] returns, given [k] lines on stdin. *)
Definition Returns {A} (k : nat) (m : M A) : Prop :=
  Succeeds k (fun _ _ => True) m.

(** ** The version tags of the official channel *)

(** One or more characters, each a decimal digit. *)
Definition digits (l : list string) : Prop :=
  l <> [] /\ forallb Py.isdecimal l = true.

(** ** The script around the driver *)

(** The pattern [REG_CLI] and its matcher. The pattern needs more of [re]
    than the two patterns of the pipeline: anchors, [.*], an optional group.
    Its three groups only shape the tuples [re.findall] returns; the script
    tests the returned list for emptiness, so the items below leave the
    grouping out. *)
Module Cli.

Inductive item : Type :=
| Bol                  (* ^ *)
| Eol                  (* $ *)
| DotStar              (* .* *)
| Text (t : string)    (* literal characters *)
| OptText (t : string) (* (literal characters)? *).

Definition newline : ascii := Ascii.ascii_of_nat 10.

(** [s] without the prefix [t], when [s] starts with [t]. *)
Fixpoint strip_prefix (t s : string) : option string :=
  match t with
  | EmptyString => Some s
  | String c t' =>
      match s with
      | String c' s' => if Ascii.eqb c c' then strip_prefix t' s' else None
      | EmptyString => None
      end
  end.

(** Where [$] matches: at the end of the string, and just before a newline
    that ends the string. *)
Definition at_end (s : string) : bool :=
  match s with
  | EmptyString => true
  | String c EmptyString => Ascii.eqb c newline
  | String _ (String _ _) => false
  end.

(** Does the pattern match at the start of [s]; [start] tells whether that
    is the start of the whole string. A dot matches anything but a newline;
    [.*] and [?] take what they can and give back when the rest fails. *)
Fixpoint match_at (re : list item) (s : string) (start : bool) : bool :=
  match re with
  | [] => true
  | Bol :: re' => start && match_at re' s start
  | Eol :: re' => at_end s && match_at re' s start
  | DotStar :: re' =>
      (fix star (s : string) (start : bool) : bool :=
         match s with
         | String c s' =>
             (negb (Ascii.eqb c newline) && star s' false) || match_at re' s start
         | EmptyString => match_at re' s start
         end) s start
  | Text t :: re' =>
      match strip_prefix t s with
      | Some rest => match_at re' rest (start && (t =? EmptyString))
      | None => false
      end
  | OptText t :: re' =>
      match strip_prefix t s with
      | Some rest => match_at re' rest (start && (t =? EmptyString))
      | None => false
      end
      || match_at re' s start
  end.

(** Is there a match at some later position of [s]. *)
Fixpoint match_later (re : list item) (s : string) : bool :=
  match s with
  | EmptyString => false
  | String _ s' => match_at re s' false || match_later re s'
  end.

(** Truthiness of [re.findall(pattern, s)]: there is a match somewhere. *)
Definition found (re : list item) (s : string) : bool :=
  match_at re s true || match_later re s.

(** No newline in [s]. *)
Fixpoint one_line (s : string) : bool :=
  match s with
  | EmptyString => true
  | String c s' => negb (Ascii.eqb c newline) && one_line s'
  end.

End Cli.

(** [REG_CLI]: the start of the string, any characters, [krux-installer],
    [.py] or not, any characters, the end of the string. *)
Definition REG_CLI : list Cli.item :=
  [Cli.Bol; Cli.DotStar; Cli.Text "krux-installer"; Cli.OptText ".py";
   Cli.DotStar; Cli.Eol].

(** What the script takes from the process it runs in: [sys.argv],
    [sys.platform], and what [parser.parse_args()] makes of the command
    line (the parsed options, or the exception it exits with). *)
Record Process : Type := {
  argv : list string;
  platform : string;
  parsed : result Args
}.

(** [x in (...)] on a tuple of strings. *)
Definition str_in (x : string) (l : list string) : bool :=
  existsb (String.eqb x) l.

(** The whole script: the notice when it is not run as the command-line
    tool; else the platform test, the parsing and the chain on the options. *)
Definition script (w : World) (p : Process) : M unit :=
  (if negb (Cli.found REG_CLI (Py.join " " (argv p)))
   then print "Reserved to run kivy app" else ret tt) ;;
  if Cli.found REG_CLI (Py.join " " (argv p)) then
    if str_in (platform p) ["linux"; "darwin"; "freebsd"; "win32"] then
      args <- call (fun _ => parsed p) ;;
      main w args
    else raise (RuntimeError ("Not implementated for " ++ platform p))
  else ret tt.

(** A pattern without [^]. *)
Definition bol_free (re : list Cli.item) : bool :=
  forallb (fun i => match i with Cli.Bol => false | _ => true end) re.

(** The platforms the script accepts. *)
Definition SUPPORTED : list string := ["linux"; "darwin"; "freebsd"; "win32"].

(** * Verification *)

Example findall_official :
  Re.findall OFFICIAL_RE "krux v25.10.1-rc v24.3.0" = ["v25.10.1"; "v24.3.0"].
Proof. vm_compute. reflexivity. Qed.

Example findall_beta :
  Re.findall BETA_RE "odudex/krux_binaries" = ["odudex/krux_binaries"].
Proof. vm_compute. reflexivity. Qed.

Example findall_none : Re.findall OFFICIAL_RE "v2x.1.0" = [].
Proof. vm_compute. reflexivity. Qed.

(** [\d] is not [0-9]: the digits of other scripts are decimal digits too,
    the superscripts are not. *)
Example findall_arabic_indic :
  Re.findall OFFICIAL_RE "v2٥.1.0" = ["v2٥.1.0"] /\
  Re.findall OFFICIAL_RE "v2５.１.0" = ["v2５.１.0"] /\
  Re.findall OFFICIAL_RE "v2².1.0" = [].
Proof. vm_compute. auto. Qed.

(** ** Strings *)

Lemma append_assoc (a b c : string) : (a ++ b) ++ c = a ++ (b ++ c).
Proof. induction a as [|x a IH]; simpl; [reflexivity | now rewrite IH]. Qed.

Lemma append_cancel_l (a b c : string) : a ++ b = a ++ c -> b = c.
Proof.
  induction a as [|x a IH]; simpl; intros H; [assumption |].
  injection H as H. auto.
Qed.

(** ** What a computation appends to the trace *)

Lemma emits_weaken {A} (P Q : history -> Prop) (m : M A) :
  (forall d, P d -> Q d) -> Emits P m -> Emits Q m.
Proof.
  intros HPQ Hm st. destruct (Hm st) as (d & Hd & HP). eauto.
Qed.

Lemma emits_ret {A} (P : history -> Prop) (a : A) : P [] -> Emits P (ret a).
Proof. intros HP st. exists []. simpl. now rewrite app_nil_r. Qed.

Lemma emits_raise {A} (P : history -> Prop) (e : exn) :
  P [] -> Emits P (raise (A := A) e).
Proof. intros HP st. exists []. simpl. now rewrite app_nil_r. Qed.

Lemma emits_call {A} (P : history -> Prop) (f : history -> result A) :
  P [] -> Emits P (call f).
Proof. intros HP st. exists []. simpl. now rewrite app_nil_r. Qed.

Lemma emits_emit (P : history -> Prop) (e : event) : P [e] -> Emits P (emit e).
Proof. intros HP st. exists [e]. auto. Qed.

Lemma emits_input (P : history -> Prop) (p : prompt) :
  P [] -> (forall answer, P [EvInput p answer]) -> Emits P (input p).
Proof.
  intros H0 H1 st. unfold input. destruct (stdin st) as [|line rest]; simpl.
  - exists []. now rewrite app_nil_r.
  - exists [EvInput p line]. auto.
Qed.

Lemma emits_bind {A B} (P Q R : history -> Prop) (m : M A) (k : A -> M B) :
  (forall d1 d2, P d1 -> Q d2 -> R (d1 ++ d2)%list) ->
  (forall d1, P d1 -> R d1) ->
  Emits P m -> (forall a, Emits Q (k a)) -> Emits R (bind m k).
Proof.
  intros Happ Hstop Hm Hk st. unfold bind.
  destruct (Hm st) as (d1 & Hd1 & HP).
  destruct (m st) as [[a|e] st1]; simpl in *.
  - destruct (Hk a st1) as (d2 & Hd2 & HQ).
    exists (d1 ++ d2)%list. rewrite Hd2, Hd1, app_assoc. auto.
  - exists d1. auto.
Qed.

Lemma emits_seq {A B} (P : history -> Prop) (m : M A) (k : A -> M B) :
  Sequential P -> Emits P m -> (forall a, Emits P (k a)) -> Emits P (bind m k).
Proof.
  intros [H0 Happ]. apply emits_bind with (P := P) (Q := P); auto.
Qed.

Lemma emits_for_each {A} (P : history -> Prop) (xs : list A) (body : A -> M unit) :
  Sequential P -> (forall x, Emits P (body x)) -> Emits P (for_each xs body).
Proof.
  intros HP Hbody. induction xs as [|x xs IH]; simpl.
  - apply emits_ret, HP.
  - apply emits_seq; auto.
Qed.

(** Traces all of whose events satisfy [Q]. *)
Lemma sequential_Forall (Q : event -> Prop) : Sequential (Forall Q).
Proof.
  split; [constructor | intros; now apply Forall_app].
Qed.

(** ** Characters *)

Module PyFacts.
Import Py.

Lemma chars_cons (c : ascii) (s : string) :
  chars (String c s) =
  match chars s with
  | ch :: rest =>
      if negb (is_ascii c) && starts_with_continuation ch
      then String c ch :: rest
      else single c :: ch :: rest
  | [] => [single c]
  end.
Proof. reflexivity. Qed.

Lemma ascii_not_continuation (c : ascii) :
  is_ascii c = true -> is_continuation c = false.
Proof.
  unfold is_ascii, is_continuation. intros H.
  apply N.ltb_lt in H. apply andb_false_iff. left.
  apply N.leb_gt. exact H.
Qed.

(** An ASCII byte is a character of its own, whatever follows. *)
Lemma chars_ascii_cons (c : ascii) (s : string) :
  is_ascii c = true -> chars (String c s) = single c :: chars s.
Proof.
  intros H. rewrite chars_cons, H. simpl.
  destruct (chars s); reflexivity.
Qed.

Lemma chars_nonempty (c : ascii) (s : string) : chars (String c s) <> [].
Proof.
  rewrite chars_cons. destruct (chars s) as [|ch rest]; [discriminate |].
  destruct (negb (is_ascii c) && starts_with_continuation ch); discriminate.
Qed.

(** Cutting into characters and putting back together changes nothing. *)
Lemma text_chars (s : string) : text (chars s) = s.
Proof.
  induction s as [|c s IH]; [reflexivity |].
  rewrite chars_cons. destruct (chars s) as [|ch rest].
  - simpl in *. now rewrite <- IH.
  - destruct (negb (is_ascii c) && starts_with_continuation ch);
      simpl in *; now rewrite IH.
Qed.

Lemma text_app (a b : list string) : text (a ++ b)%list = text a ++ text b.
Proof.
  induction a as [|ch a IH]; simpl; [reflexivity |].
  rewrite IH. clear IH.
  induction ch as [|x ch IH]; simpl; [reflexivity | now rewrite IH].
Qed.

(** What comes before an ASCII byte has no part in how the string is cut
    from that byte on, and conversely. *)
Lemma chars_app (pre : string) (c : ascii) (t : string) :
  is_ascii c = true ->
  chars (pre ++ String c t) = (chars pre ++ chars (String c t))%list.
Proof.
  intros Hc. induction pre as [|x pre IH]; [reflexivity |].
  simpl append. rewrite (chars_cons x (pre ++ String c t)), IH, (chars_cons x pre).
  destruct pre as [|y pre].
  - simpl chars at 1 3. rewrite chars_ascii_cons by exact Hc. simpl.
    unfold single. rewrite (ascii_not_continuation c Hc), andb_false_r. reflexivity.
  - destruct (chars (String y pre)) as [|ch rest] eqn:E.
    + now apply chars_nonempty in E.
    + simpl. destruct (negb (is_ascii x) && starts_with_continuation ch); reflexivity.
Qed.

(** A text of ASCII bytes is cut byte by byte. *)
Lemma chars_ascii_app (t post : string) :
  forallb is_ascii (list_ascii_of_string t) = true ->
  chars (t ++ post) = (map single (list_ascii_of_string t) ++ chars post)%list.
Proof.
  induction t as [|c t IH]; intros H; [reflexivity |].
  simpl in H. apply andb_prop in H. destruct H as [Hc Ht].
  change (String c t ++ post) with (String c (t ++ post)).
  rewrite chars_ascii_cons by exact Hc. rewrite IH by exact Ht. reflexivity.
Qed.

Lemma text_singles (t : string) : text (map single (list_ascii_of_string t)) = t.
Proof. induction t as [|c t IH]; simpl; [reflexivity | now rewrite IH]. Qed.

End PyFacts.

(** ** The matcher against the meaning of patterns *)

Module ReFacts.
Import Re.

Lemma match_len_more_cons cs re ch s :
  match_len ((cs, OneOrMore) :: re) (ch :: s) =
  if in_charset cs ch then
    match match_len ((cs, OneOrMore) :: re) s with
    | Some n => Some (S n)
    | None => option_map S (match_len re s)
    end
  else None.
Proof. reflexivity. Qed.

Lemma match_len_one_cons cs re ch s :
  match_len ((cs, One) :: re) (ch :: s) =
  if in_charset cs ch then option_map S (match_len re s) else None.
Proof. reflexivity. Qed.

Lemma option_map_S_some (o : option nat) (n : nat) :
  option_map S o = Some n -> exists k, o = Some k.
Proof. destruct o; simpl; [eauto | discriminate]. Qed.

(** Whatever the engine matches is denoted by the pattern. *)
Lemma match_len_sound re : forall s n,
  match_len re s = Some n -> exists m post, s = (m ++ post)%list /\ Matches re m.
Proof.
  induction re as [|[cs [|]] re IH]; intros s n H.
  - exists [], s. split; [reflexivity | constructor].
  - destruct s as [|ch s]; [discriminate |].
    rewrite match_len_one_cons in H.
    destruct (in_charset cs ch) eqn:Hc; [| discriminate].
    apply option_map_S_some in H. destruct H as (k & Hk).
    destruct (IH _ _ Hk) as (m & post & -> & Hm).
    exists (ch :: m), post. split; [reflexivity | now constructor].
  - revert n H. induction s as [|ch s IHs]; intros n H; [discriminate |].
    rewrite match_len_more_cons in H.
    destruct (in_charset cs ch) eqn:Hc; [| discriminate].
    destruct (match_len ((cs, OneOrMore) :: re) s) as [k|] eqn:Hk.
    + destruct (IHs _ Hk) as (m & post & -> & Hm).
      exists (ch :: m), post. split; [reflexivity | now apply M_more].
    + apply option_map_S_some in H. destruct H as (j & Hj).
      destruct (IH _ _ Hj) as (m & post & -> & Hm).
      exists (ch :: m), post. split; [reflexivity | now apply M_last].
Qed.

(** Whatever the pattern denotes, the engine matches at that place. *)
Lemma match_len_complete re m :
  Matches re m -> forall post, exists n, match_len re (m ++ post)%list = Some n.
Proof.
  induction 1 as [| cs ch re s Hc _ IH | cs ch re s Hc _ IH | cs ch re s Hc _ IH];
    intros post; simpl app.
  - exists 0. reflexivity.
  - rewrite match_len_one_cons, Hc.
    destruct (IH post) as (n & ->). eexists; reflexivity.
  - rewrite match_len_more_cons, Hc.
    destruct (match_len ((cs, OneOrMore) :: re) (s ++ post)%list);
      [eexists; reflexivity |].
    destruct (IH post) as (n & ->). eexists; reflexivity.
  - rewrite match_len_more_cons, Hc.
    destruct (IH post) as (n & ->). eexists; reflexivity.
Qed.

Lemma match_len_empty re : re <> [] -> match_len re [] = None.
Proof. destruct re as [|[cs [|]] re]; [congruence | reflexivity | reflexivity]. Qed.

Lemma findall_from_match re : forall s k,
  findall_from re s k <> [] ->
  exists pre s' n, s = (pre ++ s')%list /\ match_len re s' = Some n.
Proof.
  induction s as [|ch s IH]; intros k H; simpl in H; [congruence |].
  destruct k as [|k].
  - destruct (match_len re (ch :: s)) as [n|] eqn:Hn.
    + exists [], (ch :: s), n. auto.
    + destruct (IH _ H) as (pre & s' & n & -> & Hs').
      exists (ch :: pre), s', n. auto.
  - destruct (IH _ H) as (pre & s' & n & -> & Hs').
    exists (ch :: pre), s', n. auto.
Qed.

Lemma match_findall_from re s' n :
  re <> [] -> match_len re s' = Some n ->
  forall pre, findall_from re (pre ++ s')%list 0 <> [].
Proof.
  intros Hre Hn. induction pre as [|ch pre IH]; simpl app.
  - destruct s' as [|ch s']; [rewrite match_len_empty in Hn by assumption; discriminate |].
    simpl. rewrite Hn. discriminate.
  - cbn [findall_from].
    destruct (match_len re (ch :: pre ++ s')%list); [discriminate | assumption].
Qed.

(** [re.findall] returns a non-empty list exactly when the pattern occurs
    somewhere in the string. *)
Lemma found_iff_occurs re s : re <> [] -> (found re s = true <-> Occurs re s).
Proof.
  intros Hre. unfold found, findall, Occurs. split.
  - intros H.
    destruct (findall_from_match re (Py.chars s) 0) as (pre & s' & n & E & Hn).
    { destruct (findall_from re (Py.chars s) 0); [discriminate | discriminate]. }
    destruct (match_len_sound _ _ _ Hn) as (m & post & -> & Hm).
    exists pre, m, post. auto.
  - intros (pre & m & post & E & Hm).
    destruct (match_len_complete _ _ Hm post) as (n & Hn).
    pose proof (match_findall_from _ _ _ Hre Hn pre) as H.
    rewrite E.
    destruct (findall_from re (pre ++ m ++ post)%list 0); [congruence | reflexivity].
Qed.

(** A literal pattern denotes its own text, cut byte by byte, and nothing
    else. *)
Lemma matches_literal t : forall m,
  Matches (literal t) m <-> m = map Py.single (list_ascii_of_string t).
Proof.
  induction t as [|c t IH]; intros m; simpl; split.
  - inversion 1. reflexivity.
  - intros ->. constructor.
  - inversion 1 as [| cs ch re s Hc Hs | |]; subst.
    simpl in Hc. apply String.eqb_eq in Hc. subst.
    f_equal. now apply IH.
  - intros ->. constructor; [apply String.eqb_refl | now apply IH].
Qed.

End ReFacts.

(** ** Outcome and appended trace together *)

Lemma runs_weaken {A} (P Q : result A -> history -> Prop) (m : M A) :
  (forall r d, P r d -> Q r d) -> Runs P m -> Runs Q m.
Proof.
  intros HPQ Hm st. destruct (Hm st) as (d & Hd & HP). eauto.
Qed.

Lemma emits_runs {A} (P : history -> Prop) (m : M A) :
  Emits P m -> Runs (fun _ d => P d) m.
Proof. intros Hm st. destruct (Hm st) as (d & Hd & HP). eauto. Qed.

Lemma runs_bind {A B} (P : result A -> history -> Prop)
    (Q : A -> result B -> history -> Prop) (R : result B -> history -> Prop)
    (m : M A) (k : A -> M B) :
  Runs P m ->
  (forall a, Runs (Q a) (k a)) ->
  (forall a d1 r d2, P (Ok a) d1 -> Q a r d2 -> R r (d1 ++ d2)%list) ->
  (forall e d1, P (Raise e) d1 -> R (Raise e) d1) ->
  Runs R (bind m k).
Proof.
  intros Hm Hk Hgo Hstop st. unfold bind.
  destruct (Hm st) as (d1 & Hd1 & HP).
  destruct (m st) as [[a|e] st1]; simpl in *.
  - destruct (Hk a st1) as (d2 & Hd2 & HQ).
    exists (d1 ++ d2)%list. rewrite Hd2, Hd1, app_assoc. eauto.
  - exists d1. auto.
Qed.

Lemma fetch_trace_events p a d : fetch_trace p a d -> Forall fetch_event d.
Proof. destruct 1; repeat constructor. Qed.

Section DriverFacts.

Variable w : World.
Variable args : Args.

(** Case analysis on what the world answers next. *)
Ltac world_cases :=
  repeat match goal with
    | |- context [match stdout_write w ?h ?l with _ => _ end] =>
        destruct (stdout_write w h l) as [[]|?]; simpl
    | |- context [match downloader_new w ?h ?a with _ => _ end] =>
        destruct (downloader_new w h a) as [[]|?]; simpl
    end.

Lemma fetch_unless_present_trace {A} (p q : string) (a : artifact) (fetch keep : M A) :
  Fetching a fetch ->
  (forall st, trace (snd (keep st)) = trace st) ->
  Emits (fetch_trace p a) (fetch_unless_present w p q fetch keep).
Proof.
  intros Hfetch Hkeep st.
  unfold fetch_unless_present, path_exists, ask, progress, bind, call, emit, ret, input.
  simpl. world_cases; try (exists []; split; [now rewrite app_nil_r | constructor]).
  destruct (os_path_exists w (trace st) p); simpl.
  - world_cases; try (exists [EvExists p true]; split; [reflexivity | constructor]).
    destruct (stdin st) as [|answer rest]; simpl.
    + exists [EvExists p true]. split; [reflexivity | constructor].
    + destruct (String.eqb_spec answer "y") as [->|Hn].
      * match goal with |- context [fetch ?s] => destruct (Hfetch s) as [[E _]|E] end;
          rewrite E; simpl; rewrite <- !app_assoc; simpl;
          eexists; (split; [reflexivity | constructor]).
      * rewrite Hkeep. simpl. rewrite <- !app_assoc. simpl.
        eexists. split; [reflexivity | now constructor].
  - match goal with |- context [fetch ?s] => destruct (Hfetch s) as [[E _]|E] end;
      rewrite E; simpl; rewrite <- ?app_assoc; simpl;
      eexists; (split; [reflexivity | constructor]).
Qed.

Ltac download_cases :=
  intros st;
  unfold download_zip, download_zip_sha256sum, download_zip_sig, download_pem,
    download_kboot_beta, download_bin_beta, download, progress, bind, call,
    emit, ret;
  simpl; world_cases;
  try solve [left; split; [reflexivity | eexists; reflexivity]];
  right;
  repeat first
    [ progress world_cases
    | match goal with
      | |- context [match downloader_download w ?h ?x with _ => _ end] =>
          destruct (downloader_download w h x); simpl
      end ];
  reflexivity.

Lemma download_zip_trace : Fetching Zip (download_zip w args).
Proof. download_cases. Qed.

Lemma download_pem_trace : Fetching Pem (download_pem w args).
Proof. download_cases. Qed.

Lemma download_sha256_trace :
  Fetching Sha256Txt (bind (download_zip_sha256sum w args) (fun _ => ret tt)).
Proof. download_cases. Qed.

Lemma download_sig_trace :
  Fetching Sig (bind (download_zip_sig w args) (fun _ => ret tt)).
Proof. download_cases. Qed.

Lemma download_kboot_beta_trace : Fetching BetaKboot (download_kboot_beta w args).
Proof. download_cases. Qed.

Lemma download_bin_beta_trace : Fetching BetaBin (download_bin_beta w args).
Proof. download_cases. Qed.

(** The six blocks of the driver. *)
Lemma fetch_zip q :
  Emits (fetch_trace (artifact_path args Zip) Zip)
    (fetch_unless_present w (dest args ++ "/krux-" ++ fversion args ++ ".zip") q
       (download_zip w args) (ret (dest args ++ "/krux-" ++ fversion args ++ ".zip"))).
Proof. apply fetch_unless_present_trace; [apply download_zip_trace | reflexivity]. Qed.

Lemma fetch_sha256 q :
  Emits (fetch_trace (artifact_path args Sha256Txt) Sha256Txt)
    (fetch_unless_present w
       ((dest args ++ "/krux-" ++ fversion args ++ ".zip") ++ ".sha256.txt") q
       (bind (download_zip_sha256sum w args) (fun _ => ret tt)) (ret tt)).
Proof. apply fetch_unless_present_trace; [apply download_sha256_trace | reflexivity]. Qed.

Lemma fetch_sig q :
  Emits (fetch_trace (artifact_path args Sig) Sig)
    (fetch_unless_present w
       ((dest args ++ "/krux-" ++ fversion args ++ ".zip") ++ ".sig") q
       (bind (download_zip_sig w args) (fun _ => ret tt)) (ret tt)).
Proof. apply fetch_unless_present_trace; [apply download_sig_trace | reflexivity]. Qed.

Lemma fetch_pem q :
  Emits (fetch_trace (artifact_path args Pem) Pem)
    (fetch_unless_present w (dest args ++ "/selfcustody.pem") q
       (download_pem w args) (ret (dest args ++ "/selfcustody.pem"))).
Proof. apply fetch_unless_present_trace; [apply download_pem_trace | reflexivity]. Qed.

Lemma fetch_kboot_beta q :
  Emits (fetch_trace (artifact_path args BetaKboot) BetaKboot)
    (fetch_unless_present w (dest args ++ "/kboot.kfpkg") q
       (download_kboot_beta w args) (ret tt)).
Proof. apply fetch_unless_present_trace; [apply download_kboot_beta_trace | reflexivity]. Qed.

Lemma fetch_bin_beta q :
  Emits (fetch_trace (artifact_path args BetaBin) BetaBin)
    (fetch_unless_present w (dest args ++ "/firmware.bin") q
       (download_bin_beta w args) (ret tt)).
Proof. apply fetch_unless_present_trace; [apply download_bin_beta_trace | reflexivity]. Qed.

End DriverFacts.

(** ** The shape of every run of the driver *)

(** Computations that add events of one kind only, step by step. *)
Ltac emits_plain :=
  repeat first
    [ apply emits_seq; [apply sequential_Forall | | intros ?]
    | apply emits_call; constructor
    | apply emits_ret; constructor
    | apply emits_raise; constructor
    | apply emits_emit; repeat constructor
    | apply emits_input; [constructor | intros ?; repeat constructor]
    | match goal with
      | |- Emits _ (if ?b then _ else _) => destruct b
      end ].

Section ShapeFacts.

Variable w : World.
Variable args : Args.

Lemma runs_after_fetch {A B} (R : result B -> history -> Prop) p a
    (m : M A) (k : A -> M B) :
  Emits (fetch_trace p a) m ->
  (forall x, Runs R (k x)) ->
  (forall r d1 d2, Forall fetch_event d1 -> R r d2 -> R r (d1 ++ d2)%list) ->
  (forall e d1, Forall fetch_event d1 -> R (Raise e) d1) ->
  Runs R (bind m k).
Proof.
  intros Hm Hk Hpre Hstop.
  apply runs_bind with (P := fun _ d => Forall fetch_event d) (Q := fun _ => R); auto.
  apply emits_runs. revert Hm. apply emits_weaken, fetch_trace_events.
Qed.

Lemma dav_shape_prepend r d1 d2 :
  Forall fetch_event d1 -> dav_shape r d2 -> dav_shape r (d1 ++ d2)%list.
Proof.
  intros H1 H2.
  destruct H2 as [e pre H | zip pre H | e zip pre H | zip pem pre H
                 | e zip pem pre H | zip pem pre H];
    rewrite ?app_assoc;
    [ apply dav_unverified | apply dav_bad_sha | apply dav_sig_unchecked
    | apply dav_bad_sig | apply dav_unannounced | apply dav_verified ];
    apply Forall_app; auto.
Qed.

(** Case analysis on the next answer of the world (or of stdin). *)
Ltac run_oracles :=
  repeat match goal with
    | |- context [negb ?b] => is_var b; destruct b; simpl
    | |- context [match ?x with _ => _ end] =>
        lazymatch x with
        | context [match _ with _ => _ end] => fail
        | _ => destruct x; simpl
        end
    end.

Ltac appended :=
  rewrite <- ?app_assoc; simpl;
  first [ exists []; split; [now rewrite app_nil_r |]
        | eexists; split; [reflexivity |] ].

Lemma download_and_verify_runs : Runs dav_shape (download_and_verify w args).
Proof.
  unfold download_and_verify.
  eapply runs_after_fetch;
    [apply fetch_zip | | apply dav_shape_prepend | apply dav_unverified].
  intros zipd.
  eapply runs_after_fetch;
    [apply fetch_sha256 | | apply dav_shape_prepend | apply dav_unverified].
  intros _.
  eapply runs_after_fetch;
    [apply fetch_sig | | apply dav_shape_prepend | apply dav_unverified].
  intros _.
  eapply runs_after_fetch;
    [apply fetch_pem | | apply dav_shape_prepend | apply dav_unverified].
  intros pemfile st.
  unfold verify_sha256sum, verify_sig, progress, bind, call, emit, ret, raise. simpl.
  run_oracles; appended;
    first [ apply (dav_unverified _ []); solve [constructor]
          | apply (dav_bad_sha _ []); solve [constructor]
          | apply (dav_sig_unchecked _ _ []); solve [constructor]
          | apply (dav_bad_sig _ _ []); solve [constructor]
          | apply (dav_verified _ _ []); solve [constructor]
          | apply (dav_unannounced _ _ _ []); solve [constructor] ].
Qed.

Lemma official_flash_runs : Runs (official_shape args) (official_flash w args).
Proof.
  unfold official_flash.
  apply runs_bind with (P := dav_shape)
                       (Q := fun zip _ d => after_verification args zip d).
  - apply download_and_verify_runs.
  - intros zip st.
    unfold unzip, flasher_run, ask, progress, input, bind, call, emit, ret. simpl.
    run_oracles; appended; constructor.
  - intros zip d1 r d2 H1 H2. eapply of_verified; eassumption.
  - intros e d1 H1. now apply of_failed.
Qed.

Lemma official_store_runs : Runs (official_shape args) (official_store w args).
Proof.
  unfold official_store.
  apply runs_bind with (P := dav_shape)
                       (Q := fun zip _ d => after_verification args zip d).
  - apply download_and_verify_runs.
  - intros zip st.
    unfold unzip, print, progress, bind, call, emit, ret. simpl.
    run_oracles; appended; constructor.
  - intros zip d1 r d2 H1 H2. eapply of_verified; eassumption.
  - intros e d1 H1. now apply of_failed.
Qed.

Lemma fetch_event_beta e : fetch_event e -> beta_event e.
Proof. destruct e as [| [|] | | | | | | |]; simpl; auto. Qed.

Lemma fetch_trace_beta p a d : fetch_trace p a d -> Forall beta_event d.
Proof.
  intros H. apply fetch_trace_events in H.
  revert H. apply Forall_impl, fetch_event_beta.
Qed.

Lemma beta_flash_emits : Emits (Forall beta_event) (beta_flash w args).
Proof.
  unfold beta_flash, flasher_run, ask, progress.
  apply emits_seq; [apply sequential_Forall | | intros _].
  { eapply emits_weaken; [apply fetch_trace_beta | apply fetch_kboot_beta]. }
  emits_plain.
Qed.

Lemma beta_store_emits : Emits (Forall beta_event) (beta_store w args).
Proof.
  unfold beta_store.
  apply emits_seq; [apply sequential_Forall | | intros _].
  { eapply emits_weaken; [apply fetch_trace_beta | apply fetch_bin_beta]. }
  apply emits_emit. repeat constructor.
Qed.

Lemma print_emits line : Emits (Forall print_event) (print line).
Proof. apply emits_emit. repeat constructor. Qed.

Lemma quiet_runs (m : M unit) :
  Emits (Forall print_event) m -> Runs (run_shape args) m.
Proof.
  intros H. apply emits_runs in H. revert H.
  apply runs_weaken. intros r d. apply shape_quiet.
Qed.

Lemma pipeline_runs : Runs (run_shape args) (pipeline w args).
Proof.
  unfold pipeline.
  destruct (Re.found BETA_RE (fversion args)) eqn:Hbeta.
  - destruct (flash args);
      [ pose proof beta_flash_emits as H | pose proof beta_store_emits as H ];
      apply emits_runs in H; revert H; apply runs_weaken;
      intros r d; now apply shape_beta.
  - destruct (Re.found OFFICIAL_RE (fversion args)).
    + destruct (flash args);
        [ pose proof official_flash_runs as H | pose proof official_store_runs as H ];
        revert H; apply runs_weaken; intros r d; now apply shape_official.
    + apply quiet_runs, emits_ret. constructor.
Qed.

(** Every run of the driver has one of the four shapes. *)
Lemma main_runs : Runs (run_shape args) (main w args).
Proof.
  unfold main.
  destruct (version args) eqn:Hv; [apply quiet_runs, print_emits |].
  destruct (available_firmwares args) eqn:Hf.
  { apply quiet_runs.
    apply emits_seq; [apply sequential_Forall | apply emits_call; constructor |].
    intros releases. apply emits_for_each; [apply sequential_Forall |].
    intros v. apply print_emits. }
  destruct (available_devices args) eqn:Hd.
  { apply quiet_runs, emits_for_each; [apply sequential_Forall |].
    intros d. apply print_emits. }
  destruct (wipe args) eqn:Hw.
  { intros st. unfold bind, call, emit. simpl.
    run_oracles; appended;
      first [ solve [apply shape_quiet; constructor]
            | apply shape_wipe; repeat split; assumption ]. }
  destruct (Py.truthy (firmware_device args) && negb (Py.truthy (firmware_version args))).
  { apply quiet_runs, emits_raise. constructor. }
  destruct (Py.truthy (firmware_device args) && Py.truthy (firmware_version args)).
  { apply pipeline_runs. }
  apply quiet_runs, emits_ret. constructor.
Qed.

End ShapeFacts.

(** ** Runs from an empty trace *)

Lemma main_shape (w : World) (args : Args) (lines : list string) :
  run_shape args (outcome (main w args) lines) (events (main w args) lines).
Proof.
  unfold outcome, events, run.
  destruct (main_runs w args {| stdin := lines; trace := [] |}) as (d & Hd & H).
  simpl in Hd. now rewrite Hd.
Qed.

Lemma in_forall_absurd {A} (P : A -> Prop) (x : A) (l : list A) :
  Forall P l -> In x l -> ~ P x -> False.
Proof. intros HF HI HP. rewrite Forall_forall in HF. auto. Qed.

(** Membership in a trace given by [++] and an explicit end, by cases. *)
Ltac in_cases H :=
  repeat match type of H with
    | In _ (_ ++ _)%list => apply in_app_or in H; destruct H as [H|H]
    | In _ (_ :: _) => destruct H as [H|H]
    | In _ [] => destruct H
    | _ \/ _ => destruct H as [H|H]
    | False => destruct H
    | _ = _ => first [discriminate H | progress (injection H as H; subst)]
    end.

Ltac absurd_in H :=
  match goal with
  | HF : Forall _ ?l |- _ =>
      match type of H with
      | In _ l => exfalso; exact (in_forall_absurd _ _ _ HF H (fun x => x))
      end
  end.

(** ** Kinds of events *)

Lemma kinds_in_app ks d1 d2 :
  kinds_in ks d1 -> kinds_in ks d2 -> kinds_in ks (d1 ++ d2)%list.
Proof. intros H1 H2. apply Forall_app. auto. Qed.

Lemma kinds_in_weaken ks ks' d :
  incl ks ks' -> kinds_in ks d -> kinds_in ks' d.
Proof.
  intros Hincl. apply Forall_impl. intros e He. now apply Hincl.
Qed.

Lemma kinds_in_absurd ks d e :
  kinds_in ks d -> In e d -> ~ In (kind e) ks -> False.
Proof.
  intros H Hin Hno. unfold kinds_in in H. rewrite Forall_forall in H. auto.
Qed.

Ltac kinds := unfold kinds_in; repeat constructor; simpl; tauto.

Lemma fetch_trace_kinds p a d :
  fetch_trace p a d -> kinds_in [KExists; KPrompt; KDownload] d.
Proof. destruct 1; kinds. Qed.

Lemma print_kinds d : Forall print_event d -> kinds_in [KPrint] d.
Proof.
  apply Forall_impl. intros [] H; simpl in *; tauto.
Qed.

(** ** The sample worlds *)

Lemma sample_honest_calm : Calm Sample.honest.
Proof. split; intros; eexists; reflexivity. Qed.

Lemma sample_cached_calm : Calm Sample.cached.
Proof. split; intros; eexists; reflexivity. Qed.

(** ** C1: flashing and the two verifications *)

(** On the beta channel the driver flashes a file on which neither
    verification ran. *)
Lemma beta_flash_run :
  run (main Sample.honest Sample.flash_beta) [Sample.enter] =
  (Ok tt,
   {| stdin := [];
      trace := [EvExists "/tmp/kboot.kfpkg" false; EvDownload BetaKboot;
                EvInput (AskConnect "dock") Sample.enter; EvFlash "/tmp/kboot.kfpkg"] |}).
Proof. reflexivity. Qed.

Lemma official_flash_run :
  run (main Sample.honest Sample.flash_official) [Sample.enter] =
  (Ok tt,
   {| stdin := [];
      trace := [EvExists "/tmp/krux-v25.1.0.zip" false; EvDownload Zip;
                EvExists "/tmp/krux-v25.1.0.zip.sha256.txt" false;
                EvDownload Sha256Txt;
                EvExists "/tmp/krux-v25.1.0.zip.sig" false; EvDownload Sig;
                EvExists "/tmp/selfcustody.pem" false; EvDownload Pem;
                EvSha256 "/tmp/krux-v25.1.0.zip" true;
                EvSig "/tmp/krux-v25.1.0.zip" "/tmp/selfcustody.pem" true;
                EvUnzip Kboot "/tmp/krux-v25.1.0.zip" "dock" "/tmp";
                EvInput (AskConnect "dock") Sample.enter;
                EvFlash "/tmp/krux-v25.1.0//maixpy_dock/kboot.kfpkg"] |}).
Proof. reflexivity. Qed.

(** C1, counterexample: with the version string [odudex/krux_binaries] and
    the flash option, [Flasher.flash] is invoked on [/tmp/kboot.kfpkg] in a
    run in which [verify_sha256sum] and [verify_sig] are never called. And
    with the version [v25.1.0], the file flashed is not the file the two
    verifications were given: they ran on the archive. *)
Lemma flash_without_verification_on_beta :
  (let tr := events (main Sample.honest Sample.flash_beta) [Sample.enter] in
   In (EvFlash "/tmp/kboot.kfpkg") tr /\
   (forall file ok, ~ In (EvSha256 file ok) tr) /\
   (forall file pem ok, ~ In (EvSig file pem ok) tr)) /\
  (let tr := events (main Sample.honest Sample.flash_official) [Sample.enter] in
   let flashed := "/tmp/krux-v25.1.0//maixpy_dock/kboot.kfpkg" in
   In (EvFlash flashed) tr /\
   (forall ok, ~ In (EvSha256 flashed ok) tr) /\
   (forall pem ok, ~ In (EvSig flashed pem ok) tr)).
Proof.
  unfold events. rewrite beta_flash_run, official_flash_run. simpl.
  split; (split; [tauto |]); split; intros; intros H; in_cases H.
Qed.

(** C1, as amended: when the version string does not contain the beta
    marker, every invocation of [Flasher.flash] comes last in a run that
    ends with: [verify_sha256sum] true on an archive, [verify_sig] true on
    the same archive, the extraction of [kboot.kfpkg] from that archive,
    the connect prompt, and the flash of the extracted file. *)
Theorem flash_gated_on_official_channel
    (w : World) (args : Args) (lines : list string) (firmware : string) :
  In (EvFlash firmware) (events (main w args) lines) ->
  Re.found BETA_RE (fversion args) = false ->
  exists pre zip pem answer,
    Forall fetch_event pre /\
    events (main w args) lines =
      (pre ++ [EvSha256 zip true; EvSig zip pem true;
               EvUnzip Kboot zip (device args) (dest args);
               EvInput (AskConnect (device args)) answer;
               EvFlash firmware])%list /\
    firmware = extracted args "kboot.kfpkg".
Proof.
  intros Hin Hbeta.
  destruct (main_shape w args lines) as [r d Hq | r Hw | r d Hb _ | r d _ Hoff].
  - absurd_in Hin.
  - in_cases Hin.
  - congruence.
  - destruct Hoff as [e d Hd | r zip d post Hd Hpost].
    + inversion Hd; subst; in_cases Hin; absurd_in Hin.
    + inversion Hd as [| | | | | zip' pem pre Hpre]; subst.
      destruct Hpost; in_cases Hin; try absurd_in Hin.
      exists pre, zip, pem, answer.
      rewrite <- app_assoc. simpl. auto.
Qed.

Lemma flash_gated_on_official_channel_witness :
  exists pre zip pem answer,
    Forall fetch_event pre /\
    events (main Sample.honest Sample.flash_official) [Sample.enter] =
      (pre ++ [EvSha256 zip true; EvSig zip pem true;
               EvUnzip Kboot zip "dock" "/tmp";
               EvInput (AskConnect "dock") answer;
               EvFlash "/tmp/krux-v25.1.0//maixpy_dock/kboot.kfpkg"])%list /\
    "/tmp/krux-v25.1.0//maixpy_dock/kboot.kfpkg"
      = extracted Sample.flash_official "kboot.kfpkg".
Proof.
  apply (flash_gated_on_official_channel Sample.honest Sample.flash_official [Sample.enter]
           "/tmp/krux-v25.1.0//maixpy_dock/kboot.kfpkg").
  - vm_compute. tauto.
  - reflexivity.
Defined.

(** On the beta channel no run contains a verification. *)
Lemma no_verification_on_beta (w : World) (args : Args) (lines : list string) :
  Re.found BETA_RE (fversion args) = true ->
  forall e, In e (events (main w args) lines) ->
            match e with EvSha256 _ _ | EvSig _ _ _ => False | _ => True end.
Proof.
  intros Hbeta e Hin.
  destruct (main_shape w args lines) as [r d Hq | r Hw | r d _ Hb | r d Hn _].
  - rewrite Forall_forall in Hq. apply Hq in Hin. now destruct e.
  - in_cases Hin. subst. exact I.
  - rewrite Forall_forall in Hb. apply Hb in Hin. now destruct e.
  - congruence.
Qed.

(** ** C2: a mismatch is a boolean, and the driver makes it fatal *)

(** [verify_sha256sum] records a verdict exactly when it returns it. *)
Lemma verify_sha256sum_cases (w : World) (filename : string) (st : state) :
  (exists e, verify_sha256sum w filename st = (Raise e, st)) \/
  (exists ok, verify_sha256sum w filename st =
     (Ok ok, {| stdin := stdin st;
                trace := (trace st ++ [EvSha256 filename ok])%list |})).
Proof.
  unfold verify_sha256sum, progress, bind, call, emit, ret. simpl.
  repeat match goal with
    | |- context [match ?x with _ => _ end] =>
        lazymatch x with
        | context [match _ with _ => _ end] => fail
        | _ => destruct x; simpl; [| left; eauto]
        end
    end.
  right. eauto.
Qed.

Lemma verify_sig_cases (w : World) (filename pemfile : string) (st : state) :
  (exists e, verify_sig w filename pemfile st = (Raise e, st)) \/
  (exists ok, verify_sig w filename pemfile st =
     (Ok ok, {| stdin := stdin st;
                trace := (trace st ++ [EvSig filename pemfile ok])%list |})).
Proof.
  unfold verify_sig, progress, bind, call, emit, ret. simpl.
  repeat match goal with
    | |- context [match ?x with _ => _ end] =>
        lazymatch x with
        | context [match _ with _ => _ end] => fail
        | _ => destruct x; simpl; [| left; eauto]
        end
    end.
  right. eauto.
Qed.

Lemma app_one_more {A} (l : list A) (x : A) : l = (l ++ [x])%list -> False.
Proof.
  intros H. apply (f_equal (@List.length A)) in H.
  rewrite length_app in H. simpl in H. lia.
Qed.

(** C2: a mismatch reaches the driver as the value [False] returned by
    [verify_sha256sum] or [verify_sig], not as an exception (whenever a false
    verdict is what the call adds to the trace, the call has returned
    [False]). On a false integrity verdict the run ends at once with
    [RuntimeError("Invalid sha256sum")], the verdict being its last event
    and everything before it belonging to the download blocks (so no
    signature check, no extraction, no flash). On a false signature verdict
    it ends at once with [RuntimeError("Invalid signature")], after the
    download blocks and the true integrity verdict only. *)
Theorem mismatch_is_boolean_and_fatal (w : World) (args : Args) (lines : list string) :
  (forall file st,
      trace (snd (verify_sha256sum w file st))
        = (trace st ++ [EvSha256 file false])%list ->
      fst (verify_sha256sum w file st) = Ok false) /\
  (forall file pem st,
      trace (snd (verify_sig w file pem st))
        = (trace st ++ [EvSig file pem false])%list ->
      fst (verify_sig w file pem st) = Ok false) /\
  (forall zip,
      In (EvSha256 zip false) (events (main w args) lines) ->
      outcome (main w args) lines = Raise (RuntimeError "Invalid sha256sum") /\
      exists pre,
        Forall fetch_event pre /\
        events (main w args) lines = (pre ++ [EvSha256 zip false])%list) /\
  (forall zip pem,
      In (EvSig zip pem false) (events (main w args) lines) ->
      outcome (main w args) lines = Raise (RuntimeError "Invalid signature") /\
      exists pre,
        Forall fetch_event pre /\
        events (main w args) lines =
          (pre ++ [EvSha256 zip true; EvSig zip pem false])%list).
Proof.
  split; [| split; [| split]].
  - intros file st Htr.
    destruct (verify_sha256sum_cases w file st) as [(e & Hr) | (ok & Hr)];
      rewrite Hr in *; simpl in *.
    + now apply app_one_more in Htr.
    + apply app_inv_head in Htr. now injection Htr as ->.
  - intros file pem st Htr.
    destruct (verify_sig_cases w file pem st) as [(e & Hr) | (ok & Hr)];
      rewrite Hr in *; simpl in *.
    + now apply app_one_more in Htr.
    + apply app_inv_head in Htr. now injection Htr as ->.
  - intros zip Hin.
    destruct (main_shape w args lines) as [r d Hq | r Hw | r d _ Hb | r d _ Hoff].
    + absurd_in Hin.
    + in_cases Hin.
    + absurd_in Hin.
    + destruct Hoff as [e d Hd | r zip' d post Hd Hpost].
      * inversion Hd; subst; in_cases Hin; try absurd_in Hin.
        split; [reflexivity | eauto].
      * inversion Hd; subst.
        destruct Hpost; in_cases Hin; absurd_in Hin.
  - intros zip pem Hin.
    destruct (main_shape w args lines) as [r d Hq | r Hw | r d _ Hb | r d _ Hoff].
    + absurd_in Hin.
    + in_cases Hin.
    + absurd_in Hin.
    + destruct Hoff as [e d Hd | r zip' d post Hd Hpost].
      * inversion Hd; subst; in_cases Hin; try absurd_in Hin.
        split; [reflexivity | eauto].
      * inversion Hd; subst.
        destruct Hpost; in_cases Hin; absurd_in Hin.
Qed.

Lemma mismatch_is_boolean_and_fatal_witness :
  (outcome (main (Sample.world false true) Sample.flash_official) [Sample.enter]
   = Raise (RuntimeError "Invalid sha256sum") /\
   exists pre,
     Forall fetch_event pre /\
     events (main (Sample.world false true) Sample.flash_official) [Sample.enter]
     = (pre ++ [EvSha256 "/tmp/krux-v25.1.0.zip" false])%list) /\
  (outcome (main (Sample.world true false) Sample.flash_official) [Sample.enter]
   = Raise (RuntimeError "Invalid signature") /\
   exists pre,
     Forall fetch_event pre /\
     events (main (Sample.world true false) Sample.flash_official) [Sample.enter]
     = (pre ++ [EvSha256 "/tmp/krux-v25.1.0.zip" true;
                EvSig "/tmp/krux-v25.1.0.zip" "/tmp/selfcustody.pem" false])%list) /\
  fst (verify_sha256sum (Sample.world false true) "/tmp/krux-v25.1.0.zip"
         {| stdin := []; trace := [] |}) = Ok false /\
  fst (verify_sig (Sample.world true false) "/tmp/krux-v25.1.0.zip"
         "/tmp/selfcustody.pem" {| stdin := []; trace := [] |}) = Ok false.
Proof.
  split; [| split; [| split]].
  - apply (proj1 (proj2 (proj2 (mismatch_is_boolean_and_fatal
             (Sample.world false true) Sample.flash_official [Sample.enter])))).
    vm_compute. tauto.
  - apply (proj2 (proj2 (proj2 (mismatch_is_boolean_and_fatal
             (Sample.world true false) Sample.flash_official [Sample.enter])))).
    vm_compute. tauto.
  - apply (proj1 (mismatch_is_boolean_and_fatal
             (Sample.world false true) Sample.flash_official [Sample.enter])).
    reflexivity.
  - apply (proj1 (proj2 (mismatch_is_boolean_and_fatal
             (Sample.world true false) Sample.flash_official [Sample.enter]))).
    reflexivity.
Defined.

(** ** C3: the wipe branch *)

(** C3, counterexample: [krux-installer -w] on an empty stdin. Nothing can
    have been answered, and nothing is asked: [Wiper.wipe] is the only event
    of the run, which succeeds. *)
Lemma wipe_without_confirmation :
  run (main Sample.honest Sample.wipe_only) [] =
  (Ok tt, {| stdin := []; trace := [EvWipe] |}).
Proof. reflexivity. Qed.

Lemma wipe_branch (w : World) (args : Args) (st : state) :
  wipe_selected args -> stdin (snd (main w args st)) = stdin st.
Proof.
  intros (Hv & Hf & Hd & Hw). unfold main. rewrite Hv, Hf, Hd, Hw.
  unfold progress, bind, call, emit. simpl.
  destruct (stdout_write w (trace st) _); simpl; [| reflexivity].
  destruct (wiper_new w (trace st)); simpl; [| reflexivity].
  destruct (wiper_wipe w (trace st ++ [EvWipe])%list); reflexivity.
Qed.

(** C3, as amended: [Wiper.wipe] is called only when the wipe option is
    given (and none of the three options tested before it); the driver then
    calls it at once, as the only event of the run,
    without reading anything from stdin: the option on the command line is
    the only consent asked for. *)
Theorem wipe_only_on_option_without_prompt
    (w : World) (args : Args) (lines : list string) :
  In EvWipe (events (main w args) lines) ->
  wipe_selected args /\
  events (main w args) lines = [EvWipe] /\
  stdin (snd (run (main w args) lines)) = lines.
Proof.
  intros Hin.
  destruct (main_shape w args lines) as [r d Hq | r Hw | r d _ Hb | r d _ Hoff].
  - absurd_in Hin.
  - split; [exact Hw |]. split; [reflexivity |].
    unfold run. now rewrite wipe_branch.
  - absurd_in Hin.
  - destruct Hoff as [e d Hd | r zip d post Hd Hpost].
    + inversion Hd; subst; in_cases Hin; absurd_in Hin.
    + inversion Hd; subst.
      destruct Hpost; in_cases Hin; absurd_in Hin.
Qed.

Lemma wipe_only_on_option_without_prompt_witness :
  wipe_selected Sample.wipe_only /\
  events (main Sample.honest Sample.wipe_only) ["no"] = [EvWipe] /\
  stdin (snd (run (main Sample.honest Sample.wipe_only) ["no"])) = ["no"].
Proof.
  apply (wipe_only_on_option_without_prompt Sample.honest Sample.wipe_only ["no"]).
  vm_compute. tauto.
Defined.

(** ** C9: a device without a version *)

(** C9, counterexample: [krux-installer -w -d amigo]. A device is selected
    and no version is, yet the run wipes the device and ends normally. *)
Lemma wipe_preempts_pairing_check :
  Py.truthy (firmware_device Sample.wipe_with_device) = true /\
  Py.truthy (firmware_version Sample.wipe_with_device) = false /\
  run (main Sample.honest Sample.wipe_with_device) [] =
  (Ok tt, {| stdin := []; trace := [EvWipe] |}).
Proof. repeat split. Qed.

(** C9, as amended: when none of the version, available-firmwares,
    available-devices and wipe options is given, a selected device without
    a version raises the pairing [RuntimeError] with nothing done before:
    no event, and stdin untouched. *)
Theorem device_without_version_raises
    (w : World) (args : Args) (lines : list string) :
  version args = false ->
  available_firmwares args = false ->
  available_devices args = false ->
  wipe args = false ->
  Py.truthy (firmware_device args) = true ->
  Py.truthy (firmware_version args) = false ->
  run (main w args) lines =
  (Raise (RuntimeError
            "--firmware-device should be paired with --firmware-version option"),
   {| stdin := lines; trace := [] |}).
Proof.
  intros Hv Hf Hd Hw Hdev Hver.
  unfold run, main. rewrite Hv, Hf, Hd, Hw, Hdev, Hver. reflexivity.
Qed.

Lemma device_without_version_raises_witness :
  run (main Sample.honest Sample.device_only) ["y"] =
  (Raise (RuntimeError
            "--firmware-device should be paired with --firmware-version option"),
   {| stdin := ["y"]; trace := [] |}).
Proof.
  apply (device_without_version_raises Sample.honest Sample.device_only ["y"]);
    reflexivity.
Defined.

(** ** C5: the path handed to the flasher *)

Lemma extracted_spelling (args : Args) (name : string) :
  extracted args name =
  dest args ++ "/krux-" ++ fversion args ++ "//maixpy_" ++ device args ++ "/" ++ name.
Proof.
  unfold extracted, Py.join. simpl.
  rewrite ?append_assoc. reflexivity.
Qed.

(** C5, the code at the failing input [-d dock -f v25.1.0 -D /tmp]: the
    component [/maixpy_dock] brings a separator of its own into the
    ["/".join], so the path flashed and the path announced for the SD card
    both hold [//] where the archive layout has [/]; and so it is for every
    destination, version and device. *)
Theorem flash_target_has_double_separator :
  extracted Sample.flash_official "kboot.kfpkg"
    = "/tmp/krux-v25.1.0//maixpy_dock/kboot.kfpkg" /\
  extracted Sample.flash_official "kboot.kfpkg"
    <> "/tmp/krux-v25.1.0/maixpy_dock/kboot.kfpkg" /\
  extracted Sample.flash_official "firmware.bin"
    = "/tmp/krux-v25.1.0//maixpy_dock/firmware.bin" /\
  extracted Sample.flash_official "firmware.bin"
    <> "/tmp/krux-v25.1.0/maixpy_dock/firmware.bin" /\
  In (EvFlash "/tmp/krux-v25.1.0//maixpy_dock/kboot.kfpkg")
     (events (main Sample.honest Sample.flash_official) [Sample.enter]) /\
  ~ In (EvFlash "/tmp/krux-v25.1.0/maixpy_dock/kboot.kfpkg")
       (events (main Sample.honest Sample.flash_official) [Sample.enter]) /\
  (forall args name,
      extracted args name =
      dest args ++ "/krux-" ++ fversion args ++ "//maixpy_" ++ device args
        ++ "/" ++ name).
Proof.
  repeat split; try (vm_compute; tauto); try discriminate;
    try apply extracted_spelling.
  vm_compute. intros H. in_cases H.
Qed.

(** ** C6: which artifact set a version string selects *)

Lemma found_beta_iff (v : string) :
  Re.found BETA_RE v = true <-> contains "odudex/krux_binaries" v.
Proof.
  unfold BETA_RE. rewrite ReFacts.found_iff_occurs by discriminate.
  unfold Re.Occurs, contains. split.
  - intros (pre & m & post & E & Hm).
    apply ReFacts.matches_literal in Hm. subst m.
    exists (Py.text pre), (Py.text post).
    rewrite <- (PyFacts.text_chars v), E, !PyFacts.text_app, PyFacts.text_singles.
    reflexivity.
  - intros (pre & post & ->).
    exists (Py.chars pre),
      (map Py.single (list_ascii_of_string "odudex/krux_binaries")),
      (Py.chars post).
    split; [| now apply ReFacts.matches_literal].
    change ("odudex/krux_binaries" ++ post)
      with (String "o" ("dudex/krux_binaries" ++ post)).
    rewrite PyFacts.chars_app by reflexivity.
    change (String "o" ("dudex/krux_binaries" ++ post))
      with ("odudex/krux_binaries" ++ post).
    rewrite PyFacts.chars_ascii_app by reflexivity. reflexivity.
Qed.

Lemma found_official_iff (v : string) :
  Re.found OFFICIAL_RE v = true <-> Re.Occurs OFFICIAL_RE v.
Proof. apply ReFacts.found_iff_occurs. discriminate. Qed.

Lemma pipeline_by_selected (w : World) (args : Args) :
  pipeline w args =
  match selected (fversion args) with
  | BetaSet => if flash args then beta_flash w args else beta_store w args
  | OfficialSet => if flash args then official_flash w args else official_store w args
  | NoSet => ret tt
  end.
Proof.
  unfold pipeline, selected.
  destruct (Re.found BETA_RE (fversion args)); [reflexivity |].
  destruct (Re.found OFFICIAL_RE (fversion args)); reflexivity.
Qed.

(** C6, counterexample: a string that holds both the beta marker and a match
    of the official pattern selects the beta set, not the official one; a
    string that only contains a match of the official pattern, without being
    one, selects the official set; and a string that matches the pattern
    with its dots read as wildcards selects nothing. *)
Lemma official_selection_is_not_exact :
  (Re.Occurs OFFICIAL_RE "odudex/krux_binaries/v25.1.0" /\
   selected "odudex/krux_binaries/v25.1.0" = BetaSet) /\
  (~ Re.Full OFFICIAL_RE "krux-v25.1.0" /\
   selected "krux-v25.1.0" = OfficialSet) /\
  (Re.Full PRINTED_OFFICIAL_RE "v25x1y0" /\
   selected "v25x1y0" = NoSet).
Proof.
  split; [| split]; (split; [| vm_compute; reflexivity]).
  - apply found_official_iff. vm_compute. reflexivity.
  - unfold Re.Full. intros H. vm_compute in H.
    inversion H as [| cs c re s Hc _ | |]. discriminate Hc.
  - unfold Re.Full, PRINTED_OFFICIAL_RE.
    change (Py.chars "v25x1y0") with ["v"; "2"; "5"; "x"; "1"; "y"; "0"].
    repeat first [ apply Re.M_one; [vm_compute; reflexivity |]
                 | apply Re.M_last; [vm_compute; reflexivity |]
                 | apply Re.M_nil ].
Qed.

(** C6, as amended: the beta set is selected exactly when the version string
    contains [odudex/krux_binaries]; the official set exactly when it does
    not and some substring of it matches [v2\d\.\d+\.\d+], dots literal;
    nothing otherwise; and the pipeline branches on that selection. *)
Theorem artifact_set_selection (v : string) :
  (selected v = BetaSet <-> contains "odudex/krux_binaries" v) /\
  (selected v = OfficialSet <->
     ~ contains "odudex/krux_binaries" v /\ Re.Occurs OFFICIAL_RE v) /\
  (selected v = NoSet <->
     ~ contains "odudex/krux_binaries" v /\ ~ Re.Occurs OFFICIAL_RE v) /\
  (forall w args,
      fversion args = v ->
      pipeline w args =
      match selected v with
      | BetaSet => if flash args then beta_flash w args else beta_store w args
      | OfficialSet =>
          if flash args then official_flash w args else official_store w args
      | NoSet => ret tt
      end).
Proof.
  assert (Hb := found_beta_iff v). assert (Ho := found_official_iff v).
  unfold selected.
  destruct (Re.found BETA_RE v) eqn:Eb; destruct (Re.found OFFICIAL_RE v) eqn:Eo;
    (split; [| split; [| split]]);
    try (intros w args <-; rewrite pipeline_by_selected; unfold selected;
         rewrite Eb, ?Eo; reflexivity);
    split; try discriminate; try tauto;
    try (intros [H1 H2]; exfalso; intuition congruence);
    intuition congruence.
Qed.

Lemma artifact_set_selection_witness :
  pipeline Sample.honest Sample.flash_official =
  official_flash Sample.honest Sample.flash_official.
Proof.
  exact (proj2 (proj2 (proj2 (artifact_set_selection "v25.1.0")))
           Sample.honest Sample.flash_official eq_refl).
Defined.

(** ** C7: when an artifact is downloaded *)

(** The six on-disk names are pairwise distinct. *)
Lemma artifact_path_inj (args : Args) (a a' : artifact) :
  artifact_path args a = artifact_path args a' -> a = a'.
Proof.
  destruct a, a'; try reflexivity; unfold artifact_path; intros H; exfalso;
    rewrite ?append_assoc in H; apply append_cancel_l in H; simpl in H;
    repeat match type of H with
      | String _ _ = String _ _ => injection H as H
      | (fversion args ++ _) = (fversion args ++ _) => apply append_cancel_l in H
      end;
    discriminate H.
Qed.

Lemma sequential_needs (args : Args) (a : artifact) :
  Sequential (download_needs args a).
Proof.
  split.
  - unfold download_needs. simpl. tauto.
  - intros d1 d2 H1 H2. unfold download_needs in *.
    rewrite !in_app_iff. tauto.
Qed.

Lemma sequential_policy (args : Args) (a : artifact) :
  Sequential (download_policy args a).
Proof.
  split.
  - unfold download_policy. simpl. tauto.
  - intros d1 d2 H1 H2. unfold download_policy in *.
    rewrite !in_app_iff. tauto.
Qed.

Lemma policy_of_plain (args : Args) (a : artifact) (d : history) :
  Forall plain_event d -> download_policy args a d.
Proof.
  intros H. unfold download_policy.
  split; [intros Hin | intros [Hin|Hin]]; exfalso;
    apply (in_forall_absurd _ _ _ H Hin); simpl; tauto.
Qed.

Lemma needs_of_policy (args : Args) (a : artifact) (d : history) :
  download_policy args a d -> download_needs args a d.
Proof. intros H. exact (proj1 H). Qed.

(** In the block of [a'], an event about [a] is an event about [a']. *)
Ltac same_artifact H :=
  repeat match type of H with
    | _ \/ _ => destruct H as [H|H]
    | False => destruct H
    end;
  try discriminate H;
  try (injection H as H; try discriminate;
       repeat match goal with
         | E : artifact_path _ _ = artifact_path _ _ |- _ =>
             apply artifact_path_inj in E
         end;
       subst).

Lemma needs_of_fetch (args : Args) (a a' : artifact) (d : history) :
  fetch_trace (artifact_path args a') a' d -> download_needs args a d.
Proof.
  destruct 1 as [ | | | | | | answer Hno]; unfold download_needs; simpl;
    intros H; same_artifact H; auto.
Qed.

(** The block the policy prescribes obeys the whole policy. *)
Lemma policy_of_block (args : Args) (a a' : artifact) (present : bool)
    (unread : list string) :
  download_policy args a (policy_block (artifact_path args a') a' present unread).
Proof.
  unfold policy_block, download_policy.
  destruct present; simpl; [destruct unread as [|answer rest]; simpl |].
  - split; [intros H | intros [H|H]]; same_artifact H.
  - destruct (String.eqb_spec answer "y") as [->|Hno]; simpl;
      (split; [intros H | intros [H|H]]); same_artifact H; auto; congruence.
  - split; [intros H | intros [H|H]]; same_artifact H; auto.
Qed.

Lemma policy_of_fetches (w : World) (args : Args) (a : artifact)
    (arts : list artifact) :
  forall h unread, download_policy args a (policy_fetches w args arts h unread).
Proof.
  induction arts as [|a' arts IH]; intros h unread; simpl.
  - apply (seq_nil _ (sequential_policy args a)).
  - destruct (policy_block_ends _ unread).
    + apply (seq_app _ (sequential_policy args a)); [apply policy_of_block | apply IH].
    + apply policy_of_block.
Qed.

Section PolicyFacts.

Variable w : World.
Variable args : Args.
Variable a : artifact.

Lemma emits_needs_plain {A} (m : M A) :
  Emits (Forall plain_event) m -> Emits (download_needs args a) m.
Proof.
  apply emits_weaken. intros d H. apply needs_of_policy, policy_of_plain, H.
Qed.

Lemma emits_needs_fetch {A} a' (m : M A) :
  Emits (fetch_trace (artifact_path args a') a') m ->
  Emits (download_needs args a) m.
Proof. apply emits_weaken. intros d. apply needs_of_fetch. Qed.

Lemma download_and_verify_needs :
  Emits (download_needs args a) (download_and_verify w args).
Proof.
  unfold download_and_verify.
  apply emits_seq; [apply sequential_needs | | intros zipd].
  { apply emits_needs_fetch with (a' := Zip), fetch_zip. }
  apply emits_seq; [apply sequential_needs | | intros _].
  { apply emits_needs_fetch with (a' := Sha256Txt), fetch_sha256. }
  apply emits_seq; [apply sequential_needs | | intros _].
  { apply emits_needs_fetch with (a' := Sig), fetch_sig. }
  apply emits_seq; [apply sequential_needs | | intros pemfile].
  { apply emits_needs_fetch with (a' := Pem), fetch_pem. }
  apply emits_needs_plain.
  unfold verify_sha256sum, verify_sig, progress. emits_plain.
Qed.

Lemma pipeline_needs : Emits (download_needs args a) (pipeline w args).
Proof.
  unfold pipeline.
  destruct (Re.found BETA_RE (fversion args)).
  - destruct (flash args).
    + unfold beta_flash.
      apply emits_seq; [apply sequential_needs | | intros _].
      { apply emits_needs_fetch with (a' := BetaKboot), fetch_kboot_beta. }
      apply emits_needs_plain. unfold flasher_run, ask, progress. emits_plain.
    + unfold beta_store.
      apply emits_seq; [apply sequential_needs | | intros _].
      { apply emits_needs_fetch with (a' := BetaBin), fetch_bin_beta. }
      apply emits_needs_plain. unfold print. emits_plain.
  - destruct (Re.found OFFICIAL_RE (fversion args)).
    + destruct (flash args).
      * unfold official_flash.
        apply emits_seq;
          [apply sequential_needs | apply download_and_verify_needs | intros zip].
        apply emits_needs_plain. unfold unzip, flasher_run, ask, progress. emits_plain.
      * unfold official_store.
        apply emits_seq;
          [apply sequential_needs | apply download_and_verify_needs | intros zip].
        apply emits_needs_plain. unfold unzip, print, progress. emits_plain.
    + apply emits_needs_plain. emits_plain.
Qed.

Lemma main_needs : Emits (download_needs args a) (main w args).
Proof.
  unfold main.
  repeat match goal with
    | |- Emits _ (if ?b then _ else _) => destruct b
    end;
    try apply pipeline_needs;
    apply emits_needs_plain; unfold print, progress; emits_plain.
  apply emits_for_each; [apply sequential_Forall | intros v; emits_plain].
  apply emits_for_each; [apply sequential_Forall | intros v; emits_plain].
Qed.

End PolicyFacts.

(** When the pipeline is the branch taken, [main] is the pipeline. *)
Lemma main_is_pipeline (w : World) (args : Args) :
  pipeline_selected args -> main w args = pipeline w args.
Proof.
  intros (Hv & Hf & Hd & Hw & Hdev & Hver). unfold main.
  now rewrite Hv, Hf, Hd, Hw, Hdev, Hver.
Qed.

Section PolicyRefinement.

Variable w : World.
Hypothesis calm : Calm w.
Variable args : Args.

(** In a calm world every call returns. *)
Ltac calm_world :=
  repeat match goal with
    | |- context [stdout_write w ?h ?l] =>
        let H := fresh in
        destruct (calm_stdout _ calm h l) as ([] & H); rewrite H; clear H; simpl
    | |- context [downloader_new w ?h ?x] =>
        let H := fresh in
        destruct (calm_downloader _ calm h x) as ([] & H); rewrite H; clear H; simpl
    | |- context [downloader_download w ?h ?x] =>
        let H := fresh in
        destruct (calm_download _ calm h x) as (? & H); rewrite H; clear H; simpl
    end.

Ltac downloads :=
  intros st;
  unfold download_zip, download_zip_sha256sum, download_zip_sig, download_pem,
    download_kboot_beta, download_bin_beta, download, progress, bind, call,
    emit, ret;
  simpl; calm_world; eexists; reflexivity.

Lemma download_zip_downloads : Downloads Zip (download_zip w args).
Proof. downloads. Qed.

Lemma download_sha256_downloads :
  Downloads Sha256Txt (bind (download_zip_sha256sum w args) (fun _ => ret tt)).
Proof. downloads. Qed.

Lemma download_sig_downloads :
  Downloads Sig (bind (download_zip_sig w args) (fun _ => ret tt)).
Proof. downloads. Qed.

Lemma download_pem_downloads : Downloads Pem (download_pem w args).
Proof. downloads. Qed.

Lemma download_kboot_beta_downloads :
  Downloads BetaKboot (download_kboot_beta w args).
Proof. downloads. Qed.

Lemma download_bin_beta_downloads : Downloads BetaBin (download_bin_beta w args).
Proof. downloads. Qed.

(** The block of the driver is the block of the policy. *)
Lemma block_follows_policy {A} (a : artifact) (q : string) (fetch : M A) (kept : A) :
  Downloads a fetch ->
  FollowsPolicy w args a
    (fetch_unless_present w (artifact_path args a) q fetch (ret kept)).
Proof.
  intros Hfetch st.
  unfold fetch_unless_present, path_exists, ask, progress, bind, call, emit, ret,
    input, policy_block, policy_block_ends.
  simpl. calm_world.
  destruct (os_path_exists w (trace st) (artifact_path args a)); simpl.
  - calm_world. destruct (stdin st) as [|answer rest]; simpl.
    + eexists. split; [reflexivity | eexists; reflexivity].
    + destruct (answer =? "y"); simpl.
      * match goal with |- context [fetch ?s] => destruct (Hfetch s) as (v & ->) end.
        simpl. rewrite <- !app_assoc. simpl.
        eexists. split; [reflexivity | eexists; reflexivity].
      * rewrite <- !app_assoc. simpl.
        eexists. split; [reflexivity | eexists; reflexivity].
  - match goal with |- context [fetch ?s] => destruct (Hfetch s) as (v & ->) end.
    simpl. rewrite <- !app_assoc. simpl.
    eexists. split; [reflexivity | eexists; reflexivity].
Qed.

Lemma fetches_nil {A} (m : M A) :
  Emits (kinds_in AFTER_FETCHES) m -> Fetches w args [] m.
Proof. intros Hm st. destruct (Hm st) as (d & Hd & Hk). exists d. auto. Qed.

Lemma fetches_cons {A B} (a : artifact) (arts : list artifact)
    (m : M A) (k : A -> M B) :
  FollowsPolicy w args a m ->
  (forall v, Fetches w args arts (k v)) ->
  Fetches w args (a :: arts) (bind m k).
Proof.
  intros Hm Hk st. unfold bind. simpl.
  destruct (Hm st) as (r & Hrun & Hr). rewrite Hrun.
  destruct (policy_block_ends _ (stdin st)).
  - destruct Hr as (v & ->).
    destruct (Hk v {| stdin := skipn
                        (List.length
                           (answers
                              (policy_block (artifact_path args a) a
                                 (os_path_exists w (trace st) (artifact_path args a))
                                 (stdin st)))) (stdin st);
                      trace := (trace st ++
                                policy_block (artifact_path args a) a
                                  (os_path_exists w (trace st) (artifact_path args a))
                                  (stdin st))%list |})
      as (tail & Htail & Hkinds).
    exists tail. split; [| exact Hkinds].
    rewrite Htail. simpl. rewrite <- !app_assoc. reflexivity.
  - destruct Hr as (e & ->). exists []. split; [| constructor].
    simpl. now rewrite app_nil_r.
Qed.

Lemma fetches_then {A B} (arts : list artifact) (m : M A) (k : A -> M B) :
  Fetches w args arts m ->
  (forall v, Emits (kinds_in AFTER_FETCHES) (k v)) ->
  Fetches w args arts (bind m k).
Proof.
  intros Hm Hk st. unfold bind.
  destruct (Hm st) as (tail & Htail & Hkinds).
  destruct (m st) as [[v|e] st1]; simpl in *.
  - destruct (Hk v st1) as (d & Hd & Hdk).
    exists (tail ++ d)%list. split; [| now apply kinds_in_app].
    rewrite Hd, Htail, <- !app_assoc. reflexivity.
  - exists tail. auto.
Qed.

(** Computations that add no event of the blocks, step by step. *)
Ltac emits_after :=
  unfold kinds_in, AFTER_FETCHES;
  repeat first
    [ apply emits_seq; [apply sequential_Forall | | intros ?]
    | apply emits_call; constructor
    | apply emits_ret; constructor
    | apply emits_raise; constructor
    | apply emits_emit; constructor; [simpl; tauto | constructor]
    | apply emits_input;
        [constructor | intros ?; constructor; [simpl; tauto | constructor]]
    | match goal with
      | |- Emits _ (if ?b then _ else _) => destruct b
      end ].

Lemma download_and_verify_fetches :
  Fetches w args [Zip; Sha256Txt; Sig; Pem] (download_and_verify w args).
Proof.
  unfold download_and_verify.
  apply fetches_cons;
    [apply (block_follows_policy Zip), download_zip_downloads | intros zipd].
  apply fetches_cons;
    [apply (block_follows_policy Sha256Txt), download_sha256_downloads | intros _].
  apply fetches_cons;
    [apply (block_follows_policy Sig), download_sig_downloads | intros _].
  apply fetches_cons;
    [apply (block_follows_policy Pem), download_pem_downloads | intros pemfile].
  apply fetches_nil.
  unfold verify_sha256sum, verify_sig, progress. emits_after.
Qed.

Lemma pipeline_fetches :
  Fetches w args (fetched_artifacts args) (pipeline w args).
Proof.
  unfold fetched_artifacts, pipeline, selected.
  destruct (Re.found BETA_RE (fversion args)).
  - destruct (flash args).
    + unfold beta_flash.
      apply fetches_cons;
        [apply (block_follows_policy BetaKboot), download_kboot_beta_downloads
        | intros _].
      apply fetches_nil. unfold flasher_run, ask, progress. emits_after.
    + unfold beta_store.
      apply fetches_cons;
        [apply (block_follows_policy BetaBin), download_bin_beta_downloads
        | intros _].
      apply fetches_nil. unfold print. emits_after.
  - destruct (Re.found OFFICIAL_RE (fversion args)).
    + destruct (flash args).
      * unfold official_flash.
        apply fetches_then; [apply download_and_verify_fetches | intros zip].
        unfold unzip, flasher_run, ask, progress. emits_after.
      * unfold official_store.
        apply fetches_then; [apply download_and_verify_fetches | intros zip].
        unfold unzip, print, progress. emits_after.
    + apply fetches_nil. emits_after.
Qed.

End PolicyRefinement.

Lemma kinds_after_plain (d : history) :
  kinds_in AFTER_FETCHES d -> Forall plain_event d.
Proof.
  apply Forall_impl. intros e H. unfold AFTER_FETCHES in H.
  destruct e as [| [|] | | | | | | |]; simpl in *; intuition discriminate.
Qed.

(** C7: [download()] is invoked for an artifact only if [os.path.exists]
    answered false for its on-disk name or the user answered exactly [y] to
    the question about that name: so it is in every run, whatever the
    world. And when no collaborator raises and stdout takes every line, the
    run of the pipeline does, for the artifacts of the selected set and in
    their order, exactly the blocks the policy of the specification
    prescribes on the disk and the stdin it is given (each file is looked
    for; an absent one is downloaded without a question; a present one is
    downloaded again on the answer [y], and kept, nothing being downloaded,
    on any other answer), and nothing else of the kind; so [download()] is
    then invoked if and only if the file is absent or the answer is [y]. *)
Theorem download_iff_absent_or_yes
    (w : World) (args : Args) (lines : list string) :
  (forall a,
      In (EvDownload a) (events (main w args) lines) ->
      In (EvExists (artifact_path args a) false) (events (main w args) lines) \/
      In (EvInput (AskDownloadAgain (artifact_path args a)) "y")
         (events (main w args) lines)) /\
  (Calm w -> pipeline_selected args ->
   (exists tail,
       events (main w args) lines =
         (policy_fetches w args (fetched_artifacts args) [] lines ++ tail)%list /\
       kinds_in AFTER_FETCHES tail) /\
   (forall a,
       In (EvExists (artifact_path args a) false) (events (main w args) lines) \/
       In (EvInput (AskDownloadAgain (artifact_path args a)) "y")
          (events (main w args) lines) ->
       In (EvDownload a) (events (main w args) lines))).
Proof.
  split.
  - intros a. unfold events, run.
    destruct (main_needs w args a {| stdin := lines; trace := [] |}) as (d & Hd & H).
    simpl in Hd. rewrite Hd. exact H.
  - intros Hcalm Hsel.
    assert (Hrun : exists tail,
               events (main w args) lines =
                 (policy_fetches w args (fetched_artifacts args) [] lines ++ tail)%list /\
               kinds_in AFTER_FETCHES tail).
    { unfold events, run. rewrite (main_is_pipeline w args Hsel).
      destruct (pipeline_fetches w Hcalm args {| stdin := lines; trace := [] |})
        as (tail & Htail & Hkinds).
      exists tail. split; [exact Htail | exact Hkinds]. }
    split; [exact Hrun |].
    destruct Hrun as (tail & -> & Hkinds). intros a.
    apply (seq_app _ (sequential_policy args a));
      [apply policy_of_fetches | apply policy_of_plain, kinds_after_plain, Hkinds].
Qed.

Lemma download_iff_absent_or_yes_witness :
  exists tail,
    events (main Sample.cached Sample.flash_official) ["y"; "n"] =
      ([EvExists "/tmp/krux-v25.1.0.zip" true;
        EvInput (AskDownloadAgain "/tmp/krux-v25.1.0.zip") "y";
        EvDownload Zip;
        EvExists "/tmp/krux-v25.1.0.zip.sha256.txt" true;
        EvInput (AskDownloadAgain "/tmp/krux-v25.1.0.zip.sha256.txt") "n";
        EvExists "/tmp/krux-v25.1.0.zip.sig" true] ++ tail)%list /\
    kinds_in AFTER_FETCHES tail.
Proof.
  apply (proj1 (proj2 (download_iff_absent_or_yes
                         Sample.cached Sample.flash_official ["y"; "n"])
                  sample_cached_calm
                  (conj eq_refl (conj eq_refl (conj eq_refl
                    (conj eq_refl (conj eq_refl eq_refl))))))).
Defined.

(** ** C8: the device listing *)

Lemma slice_from_1 {A} (l : list A) : Py.slice l 1 (List.length l) = tl l.
Proof.
  unfold Py.slice. destruct l as [|x l]; [reflexivity |].
  simpl. rewrite Nat.sub_0_r. apply firstn_all.
Qed.

Lemma for_each_print (f : string -> string) (xs : list string) (st : state) :
  for_each xs (fun x => print (f x)) st =
  (Ok tt, {| stdin := stdin st;
             trace := (trace st ++ map (fun x => EvPrint (f x)) xs)%list |}).
Proof.
  revert st. induction xs as [|x xs IH]; intros st; simpl.
  - unfold ret. rewrite app_nil_r. now destruct st.
  - unfold bind, print, emit. simpl. rewrite IH. simpl.
    now rewrite <- app_assoc.
Qed.

(** C8: the listing is the table [VALID_DEVICES] without its first element,
    nothing else added, removed or moved: the table is its first element
    followed by the listing; and [--available-devices] prints one line per
    listed device, in that order, and does nothing else. *)
Theorem listed_devices_skip_first (w : World) :
  listed_devices w = tl (VALID_DEVICES w) /\
  VALID_DEVICES w = (firstn 1 (VALID_DEVICES w) ++ listed_devices w)%list /\
  (forall args lines,
      version args = false ->
      available_firmwares args = false ->
      available_devices args = true ->
      run (main w args) lines =
      (Ok tt,
       {| stdin := lines;
          trace := map (fun d => EvPrint ("* " ++ d)) (tl (VALID_DEVICES w)) |})).
Proof.
  assert (H : listed_devices w = tl (VALID_DEVICES w)).
  { unfold listed_devices. apply slice_from_1. }
  split; [exact H |]. split.
  - rewrite H. now destruct (VALID_DEVICES w).
  - intros args lines Hv Hf Hd. unfold run, main. rewrite Hv, Hf, Hd.
    rewrite for_each_print. simpl. now rewrite H.
Qed.

Lemma listed_devices_skip_first_witness :
  run (main Sample.honest Sample.list_devices) [] =
  (Ok tt,
   {| stdin := [];
      trace := [EvPrint "* m5stickv"; EvPrint "* amigo"; EvPrint "* dock";
                EvPrint "* bit"; EvPrint "* yahboom"; EvPrint "* cube"] |}).
Proof.
  apply (proj2 (proj2 (listed_devices_skip_first Sample.honest))
           Sample.list_devices []); reflexivity.
Defined.

(** ** C4: the device catalog *)

Module BaseFlasherFacts.
Import BaseFlasher.

Lemma member_iff (x : string) (l : list string) : member x l = true <-> In x l.
Proof.
  unfold member. rewrite existsb_exists. split.
  - intros (y & Hy & Hxy). apply String.eqb_eq in Hxy. now subst.
  - intros H. exists x. split; [assumption | apply String.eqb_refl].
Qed.

Lemma not_member (x : string) (l : list string) : ~ In x l -> member x l = false.
Proof.
  intros H. destruct (member x l) eqn:E; [| reflexivity].
  apply member_iff in E. contradiction.
Qed.

End BaseFlasherFacts.

(** C4: [amigo], [amigo_tft], [amigo_ips], [m5stickv], [bit] and [cube] map
    to vendor class [0403] and codename [goE]; [dock] to [7523] and [dan];
    [yahboom] to [7523] and [goE]; so the lookup returns a value on each of
    the eight devices, and on any other identifier it raises the
    unsupported-device error instead of returning. *)
Theorem device_catalog_lookup (d : string) :
  (In d ["amigo"; "amigo_tft"; "amigo_ips"; "m5stickv"; "bit"; "cube"] ->
   BaseFlasher.lookup d = Ok ("0403", "goE")) /\
  (d = "dock" -> BaseFlasher.lookup d = Ok ("7523", "dan")) /\
  (d = "yahboom" -> BaseFlasher.lookup d = Ok ("7523", "goE")) /\
  (In d BaseFlasher.DEVICES ->
   exists vendor codename, BaseFlasher.lookup d = Ok (vendor, codename)) /\
  (~ In d BaseFlasher.DEVICES ->
   BaseFlasher.lookup d = Raise (BaseFlasher.UnsupportedDeviceError d)).
Proof.
  repeat split.
  - intros H. simpl in H.
    repeat (destruct H as [<- | H]; [reflexivity |]). destruct H.
  - intros ->. reflexivity.
  - intros ->. reflexivity.
  - intros H. unfold BaseFlasher.DEVICES in H. simpl in H.
    repeat (destruct H as [<- | H]; [do 2 eexists; reflexivity |]). destruct H.
  - intros H. unfold BaseFlasher.lookup, BaseFlasher.usb_vendor_id.
    rewrite !BaseFlasherFacts.not_member; [reflexivity | |];
      intros Hin; apply H; unfold BaseFlasher.DEVICES; simpl in *; tauto.
Qed.

Lemma device_catalog_lookup_witness :
  BaseFlasher.lookup "amigo_tft" = Ok ("0403", "goE") /\
  BaseFlasher.lookup "dock" = Ok ("7523", "dan") /\
  BaseFlasher.lookup "yahboom" = Ok ("7523", "goE") /\
  (exists vendor codename, BaseFlasher.lookup "cube" = Ok (vendor, codename)) /\
  BaseFlasher.lookup "mock" = Raise (ValueError "Device not implemented: mock").
Proof.
  split; [| split; [| split; [| split]]].
  - apply (proj1 (device_catalog_lookup "amigo_tft")). simpl. tauto.
  - apply (proj1 (proj2 (device_catalog_lookup "dock"))). reflexivity.
  - apply (proj1 (proj2 (proj2 (device_catalog_lookup "yahboom")))). reflexivity.
  - apply (proj1 (proj2 (proj2 (proj2 (device_catalog_lookup "cube"))))).
    unfold BaseFlasher.DEVICES. simpl. tauto.
  - apply (proj2 (proj2 (proj2 (proj2 (device_catalog_lookup "mock"))))).
    unfold BaseFlasher.DEVICES. simpl. intuition discriminate.
Defined.

(** ** C10: the firmware setter *)

Lemma after_assignment_holds (exists_on_disk : string -> bool)
    (b : BaseFlasher.t) (value : string) :
  BaseFlasher.holds_existing exists_on_disk b ->
  BaseFlasher.holds_existing exists_on_disk
    (BaseFlasher.after_assignment exists_on_disk b value).
Proof.
  intros H. unfold BaseFlasher.after_assignment, BaseFlasher.set_firmware.
  destruct (exists_on_disk value) eqn:E; simpl; [exact E | exact H].
Qed.

Lemma after_assignments_hold (exists_on_disk : string -> bool) (values : list string) :
  forall b,
    BaseFlasher.holds_existing exists_on_disk b ->
    BaseFlasher.holds_existing exists_on_disk
      (BaseFlasher.after_assignments exists_on_disk values b).
Proof.
  unfold BaseFlasher.after_assignments.
  induction values as [|v values IH]; intros b H; simpl; [exact H |].
  apply IH, after_assignment_holds, H.
Qed.

(** C10: assigning the path [p] to [firmware] raises
    [ValueError("File do not exist: <p>")] when [p] does not exist and
    stores [p] otherwise; hence, whatever is assigned to a new flasher and in
    whatever order, the path it holds, if any, exists. *)
Theorem firmware_setter_requires_existing_file
    (exists_on_disk : string -> bool) (p : string) (b : BaseFlasher.t) :
  (exists_on_disk p = false ->
   BaseFlasher.set_firmware exists_on_disk p b
   = Raise (ValueError ("File do not exist: " ++ p))) /\
  (exists_on_disk p = true ->
   exists b', BaseFlasher.set_firmware exists_on_disk p b = Ok b' /\
              BaseFlasher.firmware b' = Some p) /\
  (forall values,
      BaseFlasher.holds_existing exists_on_disk
        (BaseFlasher.after_assignments exists_on_disk values BaseFlasher.new)).
Proof.
  unfold BaseFlasher.set_firmware. repeat split.
  - intros ->. reflexivity.
  - intros ->. simpl. eexists. split; reflexivity.
  - intros values. apply after_assignments_hold. exact I.
Qed.

Lemma firmware_setter_requires_existing_file_witness :
  BaseFlasher.set_firmware (fun _ => false) "mock/test/kboot.kfpkg" BaseFlasher.new
  = Raise (ValueError "File do not exist: mock/test/kboot.kfpkg") /\
  exists b', BaseFlasher.set_firmware (fun _ => true) "mock/test/kboot.kfpkg"
               BaseFlasher.new = Ok b' /\
             BaseFlasher.firmware b' = Some "mock/test/kboot.kfpkg".
Proof.
  split.
  - apply (proj1 (firmware_setter_requires_existing_file
                    (fun _ => false) "mock/test/kboot.kfpkg" BaseFlasher.new)).
    reflexivity.
  - apply (proj1 (proj2 (firmware_setter_requires_existing_file
                           (fun _ => true) "mock/test/kboot.kfpkg" BaseFlasher.new))).
    reflexivity.
Defined.


(** * More of the driver *)

(** ** The runs of the driver, block by block *)

Lemma bind_from {A B} (P : result A -> history -> Prop)
    (R : result B -> history -> Prop) (m : M A) (k : A -> M B) (st : state) :
  Runs P m ->
  (forall e d1, P (Raise e) d1 -> R (Raise e) d1) ->
  (forall a d1 st1,
      P (Ok a) d1 ->
      exists d2, trace (snd (k a st1)) = (trace st1 ++ d2)%list /\
                 R (fst (k a st1)) (d1 ++ d2)%list) ->
  exists d, trace (snd (bind m k st)) = (trace st ++ d)%list /\
            R (fst (bind m k st)) d.
Proof.
  intros Hm Hstop Hgo. unfold bind.
  destruct (Hm st) as (d1 & Hd1 & HP).
  destruct (m st) as [[a|e] st1]; simpl in *.
  - destruct (Hgo a d1 st1 HP) as (d2 & Hd2 & HR).
    exists (d1 ++ d2)%list. rewrite Hd2, Hd1, app_assoc. auto.
  - exists d1. auto.
Qed.

Lemma block_done_trace p a downloaded d :
  block_done p a downloaded d -> fetch_trace p a d.
Proof. destruct 1; constructor; assumption. Qed.

Section GrammarFacts.

Variable w : World.
Variable args : Args.

Lemma block_runs {A} (p q : string) (a : artifact) (fetch : M A) (kept : A) :
  Fetching a fetch ->
  Runs (block_spec p a kept) (fetch_unless_present w p q fetch (ret kept)).
Proof.
  intros Hfetch st.
  assert (Hgo : forall s d,
            trace s = (trace st ++ d)%list ->
            fetch_trace p a d ->
            block_done p a true (d ++ [EvDownload a])%list ->
            exists d', trace (snd (fetch s)) = (trace st ++ d')%list /\
                       block_spec p a kept (fst (fetch s)) d').
  { intros s d Hs Hstop Hdone.
    destruct (Hfetch s) as [[E (e & He)]|E]; rewrite E, Hs.
    - exists d. split; [reflexivity |]. rewrite He. exact Hstop.
    - exists (d ++ [EvDownload a])%list. split; [now rewrite app_assoc |].
      destruct (fst (fetch s)); simpl;
        [exists true; split; [exact Hdone | discriminate]
        | now apply (block_done_trace _ _ true)]. }
  unfold fetch_unless_present, path_exists, ask, progress, bind, call, emit, ret, input.
  simpl.
  repeat match goal with
    | |- context [match stdout_write w ?h ?l with _ => _ end] =>
        destruct (stdout_write w h l) as [[]|?]; simpl;
        [| exists []; split; [now rewrite app_nil_r | constructor]]
    end.
  destruct (os_path_exists w (trace st) p); simpl.
  - destruct (stdout_write w _ q) as [[]|?]; simpl;
      [| exists [EvExists p true]; split; [reflexivity | constructor]].
    destruct (stdin st) as [|answer rest]; simpl.
    + exists [EvExists p true]. split; [reflexivity | constructor].
    + destruct (String.eqb_spec answer "y") as [->|Hn].
      * apply (Hgo _ [EvExists p true; EvInput (AskDownloadAgain p) "y"]);
          [simpl; now rewrite <- app_assoc | constructor | constructor].
      * simpl. rewrite <- !app_assoc. simpl.
        eexists. split; [reflexivity |].
        exists false. split; [now constructor | reflexivity].
  - apply (Hgo _ [EvExists p false]);
      [reflexivity | constructor | constructor].
Qed.

Ltac run_world :=
  repeat match goal with
    | |- context [negb ?b] => is_var b; destruct b; simpl
    | |- context [match ?x with _ => _ end] =>
        lazymatch x with
        | context [match _ with _ => _ end] => fail
        | _ => destruct x; simpl
        end
    end.

Ltac appended_trace :=
  rewrite <- ?app_assoc; simpl;
  first [ exists []; split; [now rewrite app_nil_r |]
        | eexists; split; [reflexivity |] ].

Lemma blocks_four b1 b2 b3 b4 d1 d2 d3 d4 :
  block_done (artifact_path args Zip) Zip b1 d1 ->
  block_done (artifact_path args Sha256Txt) Sha256Txt b2 d2 ->
  block_done (artifact_path args Sig) Sig b3 d3 ->
  block_done (artifact_path args Pem) Pem b4 d4 ->
  blocks args [(Zip, b1); (Sha256Txt, b2); (Sig, b3); (Pem, b4)]
    (d1 ++ d2 ++ d3 ++ d4)%list.
Proof.
  intros H1 H2 H3 H4.
  repeat (apply blocks_cons; [assumption |]).
  rewrite <- (app_nil_r d4).
  apply blocks_cons; [assumption | constructor].
Qed.

Lemma download_and_verify_run : Runs (dav_run args) (download_and_verify w args).
Proof.
  intros st. unfold download_and_verify.
  eapply bind_from with (R := dav_run args); [apply block_runs, download_zip_trace | |].
  { intros e d1 H1. apply (dr_stopped args e [] Zip _ [] d1 eq_refl);
      [constructor | exact H1]. }
  intros zipd d1 st1 (b1 & H1 & Hzip).
  eapply bind_from with (R := fun r d => dav_run args r (d1 ++ d)%list);
    [apply block_runs, download_sha256_trace | |].
  { intros e d2 H2.
    apply (dr_stopped args e [(Zip, b1)] Sha256Txt _ d1 d2 eq_refl);
      [rewrite <- (app_nil_r d1); apply blocks_cons; [exact H1 | constructor]
      | exact H2]. }
  intros u2 d2 st2 (b2 & H2 & _).
  eapply bind_from with (R := fun r d => dav_run args r (d1 ++ d2 ++ d)%list);
    [apply block_runs, download_sig_trace | |].
  { intros e d3 H3. rewrite app_assoc.
    apply (dr_stopped args e [(Zip, b1); (Sha256Txt, b2)] Sig _
             (d1 ++ d2)%list d3 eq_refl); [| exact H3].
    apply blocks_cons; [exact H1 |].
    rewrite <- (app_nil_r d2). apply blocks_cons; [exact H2 | constructor]. }
  intros u3 d3 st3 (b3 & H3 & _).
  eapply bind_from with (R := fun r d => dav_run args r (d1 ++ d2 ++ d3 ++ d)%list);
    [apply block_runs, download_pem_trace | |].
  { intros e d4 H4.
    replace (d1 ++ d2 ++ d3 ++ d4)%list with ((d1 ++ d2 ++ d3) ++ d4)%list
      by (rewrite <- !app_assoc; reflexivity).
    apply (dr_stopped args e [(Zip, b1); (Sha256Txt, b2); (Sig, b3)] Pem _
             (d1 ++ d2 ++ d3)%list d4 eq_refl); [| exact H4].
    apply blocks_cons; [exact H1 |]. apply blocks_cons; [exact H2 |].
    rewrite <- (app_nil_r d3). apply blocks_cons; [exact H3 | constructor]. }
  intros pemfile d4 st4 (b4 & H4 & Hpem).
  match goal with
  | |- exists d, trace (snd (?m st4)) = _ /\ _ =>
      assert (Hver : Runs (verdicts zipd pemfile) m)
  end.
  { intros s.
    unfold verify_sha256sum, verify_sig, progress, bind, call, emit, ret, raise.
    simpl. run_world; appended_trace; constructor. }
  destruct (Hver st4) as (v & Hv & Hverdict).
  exists v. split; [exact Hv |].
  replace (d1 ++ d2 ++ d3 ++ d4 ++ v)%list with ((d1 ++ d2 ++ d3 ++ d4) ++ v)%list
    by (rewrite <- !app_assoc; reflexivity).
  eapply dr_checked; [apply blocks_four; eassumption | exact Hzip | exact Hpem | exact Hverdict].
Qed.

Lemma official_flash_traces :
  flash args = true ->
  Runs (fun _ d => official_run args d) (official_flash w args).
Proof.
  intros Hflash st. unfold official_flash.
  eapply bind_from with (R := fun _ d => official_run args d);
    [apply download_and_verify_run | |].
  { intros e d1 H1. now apply (or_failed args e). }
  intros zip d1 st1 H1.
  unfold unzip, flasher_run, ask, progress, input, bind, call, emit, ret. simpl.
  run_world; appended_trace;
    first [ rewrite app_nil_r; now apply (or_verified args zip)
          | apply or_flash; [assumption | assumption | constructor] ].
Qed.

Lemma official_store_traces :
  flash args = false ->
  Runs (fun _ d => official_run args d) (official_store w args).
Proof.
  intros Hflash st. unfold official_store.
  eapply bind_from with (R := fun _ d => official_run args d);
    [apply download_and_verify_run | |].
  { intros e d1 H1. now apply (or_failed args e). }
  intros zip d1 st1 H1.
  unfold unzip, print, progress, bind, call, emit, ret. simpl.
  run_world; appended_trace;
    first [ rewrite app_nil_r; now apply (or_verified args zip)
          | now apply or_store
          | now apply or_unzip_failed ].
Qed.

Lemma beta_flash_traces :
  flash args = true ->
  Runs (fun _ d => beta_run args d) (beta_flash w args).
Proof.
  intros Hflash st. unfold beta_flash.
  eapply bind_from with (R := fun _ d => beta_run args d);
    [apply block_runs, download_kboot_beta_trace | |].
  { intros e d1 H1. rewrite <- (app_nil_r d1).
    apply br_flash; [assumption | exact H1 | constructor]. }
  intros u d1 st1 (b & H1 & _).
  unfold flasher_run, ask, progress, input, bind, call, emit, ret. simpl.
  run_world; appended_trace;
    (apply br_flash;
       [assumption | now apply block_done_trace with (downloaded := b) | constructor]).
Qed.

Lemma beta_store_traces :
  flash args = false ->
  Runs (fun _ d => beta_run args d) (beta_store w args).
Proof.
  intros Hflash st. unfold beta_store.
  eapply bind_from with (R := fun _ d => beta_run args d);
    [apply block_runs, download_bin_beta_trace | |].
  { intros e d1 H1. now apply br_unfetched. }
  intros u d1 st1 (b & H1 & _).
  unfold print, emit. simpl. eexists. split; [reflexivity |].
  now apply br_store with (downloaded := b).
Qed.

Lemma quiet_trace (m : M unit) :
  Emits (Forall print_event) m -> Emits (run_trace args) m.
Proof. apply emits_weaken. intros d. apply rt_quiet. Qed.

Lemma as_emits {A} (P : history -> Prop) (m : M A) :
  Runs (fun _ d => P d) m -> Emits P m.
Proof. intros H st. destruct (H st) as (d & Hd & HP). eauto. Qed.

(** Every run of the driver follows the grammar [run_trace]. *)
Lemma main_trace : Emits (run_trace args) (main w args).
Proof.
  unfold main.
  destruct (version args) eqn:Hv; [apply quiet_trace, print_emits |].
  destruct (available_firmwares args) eqn:Hf.
  { apply quiet_trace.
    apply emits_seq; [apply sequential_Forall | apply emits_call; constructor |].
    intros releases. apply emits_for_each; [apply sequential_Forall |].
    intros v. apply print_emits. }
  destruct (available_devices args) eqn:Hd.
  { apply quiet_trace, emits_for_each; [apply sequential_Forall |].
    intros d. apply print_emits. }
  destruct (wipe args) eqn:Hw.
  { intros st. unfold bind, call, emit. simpl.
    run_world; appended_trace;
      first [ solve [apply rt_quiet; constructor]
            | apply rt_wipe; repeat split; assumption ]. }
  destruct (Py.truthy (firmware_device args)) eqn:Hdev; simpl;
    [| apply quiet_trace, emits_ret; constructor].
  destruct (Py.truthy (firmware_version args)) eqn:Hver; simpl;
    [| apply quiet_trace, emits_raise; constructor].
  assert (Hp : pipeline_selected args) by (repeat split; assumption).
  unfold pipeline.
  destruct (Re.found BETA_RE (fversion args)) eqn:Hbeta.
  - assert (Hsel : selected (fversion args) = BetaSet)
      by (unfold selected; now rewrite Hbeta).
    destruct (flash args) eqn:Hflash; apply as_emits;
      [ pose proof (beta_flash_traces Hflash) as H
      | pose proof (beta_store_traces Hflash) as H ];
      revert H; apply runs_weaken; intros r d; now apply rt_beta.
  - destruct (Re.found OFFICIAL_RE (fversion args)) eqn:Hoff.
    + assert (Hsel : selected (fversion args) = OfficialSet)
        by (unfold selected; now rewrite Hbeta, Hoff).
      destruct (flash args) eqn:Hflash; apply as_emits;
        [ pose proof (official_flash_traces Hflash) as H
        | pose proof (official_store_traces Hflash) as H ];
        revert H; apply runs_weaken; intros r d; now apply rt_official.
    + apply quiet_trace, emits_ret. constructor.
Qed.

End GrammarFacts.

Lemma main_follows_grammar (w : World) (args : Args) (lines : list string) :
  run_trace args (events (main w args) lines).
Proof.
  unfold events, run.
  destruct (main_trace w args {| stdin := lines; trace := [] |}) as (d & Hd & H).
  simpl in Hd. now rewrite Hd.
Qed.

(** ** Kinds of events in the parts of a run *)

Section KindFacts.

Variable args : Args.

Lemma blocks_kinds l ds :
  blocks args l ds -> kinds_in [KExists; KPrompt; KDownload] ds.
Proof.
  induction 1 as [| a b rest d ds Hd _ IH]; [constructor |].
  apply kinds_in_app; [| exact IH].
  apply block_done_trace in Hd. now apply fetch_trace_kinds in Hd.
Qed.

Lemma verdicts_kinds zip pem r v :
  verdicts zip pem r v -> kinds_in [KSha256; KSig] v.
Proof. destruct 1; kinds. Qed.

Lemma dav_run_kinds r d :
  dav_run args r d -> kinds_in [KExists; KPrompt; KDownload; KSha256; KSig] d.
Proof.
  destruct 1 as [e done a rest ds d _ Hds Hd | r b1 b2 b3 b4 zip pem ds v Hds _ _ Hv];
    apply kinds_in_app.
  - apply blocks_kinds in Hds. revert Hds. apply kinds_in_weaken.
    intros k; simpl; tauto.
  - apply fetch_trace_kinds in Hd. revert Hd. apply kinds_in_weaken.
    intros k; simpl; tauto.
  - apply blocks_kinds in Hds. revert Hds. apply kinds_in_weaken.
    intros k; simpl; tauto.
  - apply verdicts_kinds in Hv. revert Hv. apply kinds_in_weaken.
    intros k; simpl; tauto.
Qed.

Lemma connect_and_flash_kinds target tail :
  connect_and_flash args target tail -> kinds_in [KConnect; KFlash] tail.
Proof. destruct 1; kinds. Qed.

End KindFacts.

(** An event of a kind that is not among [ks] is not in a trace of kinds
    [ks]. *)
Ltac not_of_kind H :=
  match goal with
  | HK : kinds_in _ ?l |- _ =>
      match type of H with
      | In _ l =>
          exfalso; apply (kinds_in_absurd _ _ _ HK H); simpl;
          intuition discriminate
      end
  end.

(** ** Flashing needs the flash option *)

(** Without the flash option no run invokes [Flasher.flash], whatever the
    version string, the files on disk and the answers. *)
Theorem no_flash_without_flash_option
    (w : World) (args : Args) (lines : list string) (firmware : string) :
  flash args = false ->
  ~ In (EvFlash firmware) (events (main w args) lines).
Proof.
  intros Hflash Hin.
  destruct (main_follows_grammar w args lines) as [d Hq | Hw | d _ _ Hb | d _ _ Ho].
  - apply print_kinds in Hq. not_of_kind Hin.
  - in_cases Hin.
  - destruct Hb as [d tail Hf _ _ | d _ Hd | b d _ Hd]; [congruence | |].
    + apply fetch_trace_kinds in Hd. not_of_kind Hin.
    + apply block_done_trace, fetch_trace_kinds in Hd.
      in_cases Hin. not_of_kind Hin.
  - destruct Ho as [e d Hd | zip d Hd | zip d tail Hf _ _ | zip d _ Hd | zip d _ Hd];
      [| | congruence | |]; apply dav_run_kinds in Hd; in_cases Hin; not_of_kind Hin.
Qed.

Lemma no_flash_without_flash_option_witness :
  ~ In (EvFlash "/tmp/krux-v25.1.0//maixpy_dock/kboot.kfpkg")
       (events (main Sample.honest (Sample.install "dock" "v25.1.0" false))
               [Sample.enter]).
Proof.
  apply (no_flash_without_flash_option Sample.honest
           (Sample.install "dock" "v25.1.0" false) [Sample.enter]).
  reflexivity.
Defined.

(** ** Where a flash stands in its run *)

(** Whenever [Flasher.flash] is invoked, on either channel, it is the last
    event of the run and comes right after the user's answer to the connect
    prompt; nothing before it is a flash or a wipe. *)
Theorem flash_follows_connect_prompt
    (w : World) (args : Args) (lines : list string) (firmware : string) :
  In (EvFlash firmware) (events (main w args) lines) ->
  exists pre answer,
    events (main w args) lines =
      (pre ++ [EvInput (AskConnect (device args)) answer; EvFlash firmware])%list /\
    kinds_in [KExists; KPrompt; KDownload; KSha256; KSig; KUnzip] pre.
Proof.
  intros Hin.
  destruct (main_follows_grammar w args lines) as [d Hq | Hw | d _ _ Hb | d _ _ Ho].
  - apply print_kinds in Hq. not_of_kind Hin.
  - in_cases Hin.
  - destruct Hb as [d tail _ Hd Htail | d _ Hd | b d _ Hd].
    + apply fetch_trace_kinds in Hd.
      destruct Htail; in_cases Hin; try not_of_kind Hin.
      exists d, answer. split; [reflexivity |].
      revert Hd. apply kinds_in_weaken. intros k; simpl; tauto.
    + apply fetch_trace_kinds in Hd. not_of_kind Hin.
    + apply block_done_trace, fetch_trace_kinds in Hd.
      in_cases Hin. not_of_kind Hin.
  - destruct Ho as [e d Hd | zip d Hd | zip d tail _ Hd Htail | zip d _ Hd | zip d _ Hd];
      apply dav_run_kinds in Hd.
    + not_of_kind Hin.
    + not_of_kind Hin.
    + destruct Htail; in_cases Hin; try not_of_kind Hin.
      exists (d ++ [EvUnzip Kboot zip (device args) (dest args)])%list, answer.
      split; [now rewrite <- app_assoc |].
      apply kinds_in_app; [| kinds].
      revert Hd. apply kinds_in_weaken. intros k; simpl; tauto.
    + in_cases Hin. not_of_kind Hin.
    + in_cases Hin. not_of_kind Hin.
Qed.

Lemma flash_follows_connect_prompt_witness :
  exists pre answer,
    events (main Sample.honest Sample.flash_beta) ["ready"] =
      (pre ++ [EvInput (AskConnect "dock") answer; EvFlash "/tmp/kboot.kfpkg"])%list /\
    kinds_in [KExists; KPrompt; KDownload; KSha256; KSig; KUnzip] pre.
Proof.
  apply (flash_follows_connect_prompt Sample.honest Sample.flash_beta ["ready"]
           "/tmp/kboot.kfpkg").
  vm_compute. tauto.
Defined.

(** ** The beta channel *)

(** When the version string selects the beta set, no run verifies or
    extracts anything, and the only file ever flashed is
    [<destdir>/kboot.kfpkg], the file the beta download is stored as. *)
Theorem beta_channel_flashes_the_download_unchecked
    (w : World) (args : Args) (lines : list string) :
  selected (fversion args) = BetaSet ->
  (forall e, In e (events (main w args) lines) ->
             ~ In (kind e) [KSha256; KSig; KUnzip]) /\
  (forall firmware, In (EvFlash firmware) (events (main w args) lines) ->
                    firmware = dest args ++ "/kboot.kfpkg").
Proof.
  intros Hsel.
  destruct (main_follows_grammar w args lines) as [d Hq | Hw | d _ _ Hb | d _ Ho _];
    [| | | congruence].
  - apply print_kinds in Hq. split.
    + intros e Hin Hk. apply (kinds_in_absurd _ _ _ Hq Hin).
      simpl in *. intuition congruence.
    + intros f Hin. not_of_kind Hin.
  - split.
    + intros e Hin Hk. in_cases Hin. subst. simpl in Hk. intuition discriminate.
    + intros f Hin. in_cases Hin.
  - assert (Hkinds : kinds_in [KExists; KPrompt; KDownload; KConnect; KFlash; KPrint] d).
    { destruct Hb as [d tail _ Hd Htail | d _ Hd | b d _ Hd].
      - apply kinds_in_app.
        + apply fetch_trace_kinds in Hd. revert Hd. apply kinds_in_weaken.
          intros k; simpl; tauto.
        + apply connect_and_flash_kinds in Htail. revert Htail.
          apply kinds_in_weaken. intros k; simpl; tauto.
      - apply fetch_trace_kinds in Hd. revert Hd. apply kinds_in_weaken.
        intros k; simpl; tauto.
      - apply kinds_in_app; [| kinds].
        apply block_done_trace, fetch_trace_kinds in Hd. revert Hd.
        apply kinds_in_weaken. intros k; simpl; tauto. }
    split.
    + intros e Hin Hk. apply (kinds_in_absurd _ _ _ Hkinds Hin).
      simpl in *. intuition congruence.
    + intros f Hin.
      destruct Hb as [d tail _ Hd Htail | d _ Hd | b d _ Hd].
      * apply fetch_trace_kinds in Hd.
        destruct Htail; in_cases Hin; try not_of_kind Hin. reflexivity.
      * apply fetch_trace_kinds in Hd. not_of_kind Hin.
      * apply block_done_trace, fetch_trace_kinds in Hd.
        in_cases Hin. not_of_kind Hin.
Qed.

Lemma beta_channel_flashes_the_download_unchecked_witness :
  (forall e, In e (events (main Sample.honest Sample.flash_beta) ["ready"]) ->
             ~ In (kind e) [KSha256; KSig; KUnzip]) /\
  (forall firmware,
      In (EvFlash firmware) (events (main Sample.honest Sample.flash_beta) ["ready"]) ->
      firmware = "/tmp/kboot.kfpkg").
Proof.
  apply (beta_channel_flashes_the_download_unchecked
           Sample.honest Sample.flash_beta ["ready"]).
  reflexivity.
Defined.

(** ** Around the verification *)

(** A run that holds a verdict or an extraction went through the four
    blocks and the verification phase. *)
Lemma checked_run (w : World) (args : Args) (lines : list string) (e : event) :
  In e (events (main w args) lines) ->
  In (kind e) [KSha256; KSig; KUnzip] ->
  exists r b1 b2 b3 b4 zip pem ds v tail,
    events (main w args) lines = (ds ++ v ++ tail)%list /\
    blocks args [(Zip, b1); (Sha256Txt, b2); (Sig, b3); (Pem, b4)] ds /\
    (b1 = false -> zip = artifact_path args Zip) /\
    (b4 = false -> pem = artifact_path args Pem) /\
    verdicts zip pem r v /\
    match r with
    | Raise _ => tail = []
    | Ok _ =>
        tail = [] \/
        exists post,
          tail = EvUnzip (if flash args then Kboot else Firmware) zip
                   (device args) (dest args) :: post /\
          kinds_in [KConnect; KFlash; KPrint] post
    end.
Proof.
  intros Hin Hk.
  assert (Hdav : forall r d, dav_run args r d ->
            (exists e', In e' d /\ In (kind e') [KSha256; KSig; KUnzip]) ->
            exists b1 b2 b3 b4 zip pem ds v,
              d = (ds ++ v)%list /\
              blocks args [(Zip, b1); (Sha256Txt, b2); (Sig, b3); (Pem, b4)] ds /\
              (b1 = false -> zip = artifact_path args Zip) /\
              (b4 = false -> pem = artifact_path args Pem) /\
              verdicts zip pem r v).
  { intros r d Hd (e' & Hin' & Hk').
    destruct Hd as [x done a rest ds d _ Hds Hd | r b1 b2 b3 b4 zip pem ds v Hds Hz Hp Hv].
    - exfalso. apply blocks_kinds in Hds. apply fetch_trace_kinds in Hd.
      apply in_app_or in Hin'. destruct Hin' as [Hin'|Hin'];
        [apply (kinds_in_absurd _ _ _ Hds Hin') | apply (kinds_in_absurd _ _ _ Hd Hin')];
        simpl in *; intuition congruence.
    - exists b1, b2, b3, b4, zip, pem, ds, v. auto. }
  destruct (main_follows_grammar w args lines) as [d Hq | Hw | d _ _ Hb | d _ _ Ho].
  - exfalso. apply print_kinds in Hq. apply (kinds_in_absurd _ _ _ Hq Hin).
    simpl in *. intuition congruence.
  - exfalso. in_cases Hin. subst. simpl in Hk. intuition discriminate.
  - exfalso.
    assert (Hkinds : kinds_in [KExists; KPrompt; KDownload; KConnect; KFlash; KPrint] d).
    { destruct Hb as [d tail _ Hd Htail | d _ Hd | b d _ Hd].
      - apply kinds_in_app.
        + apply fetch_trace_kinds in Hd. revert Hd. apply kinds_in_weaken.
          intros k; simpl; tauto.
        + apply connect_and_flash_kinds in Htail. revert Htail.
          apply kinds_in_weaken. intros k; simpl; tauto.
      - apply fetch_trace_kinds in Hd. revert Hd. apply kinds_in_weaken.
        intros k; simpl; tauto.
      - apply kinds_in_app; [| kinds].
        apply block_done_trace, fetch_trace_kinds in Hd. revert Hd.
        apply kinds_in_weaken. intros k; simpl; tauto. }
    apply (kinds_in_absurd _ _ _ Hkinds Hin). simpl in *. intuition congruence.
  - destruct Ho as [x d Hd | zip d Hd | zip d tail Hf Hd Htail | zip d Hf Hd | zip d Hf Hd].
    + destruct (Hdav _ _ Hd) as (b1 & b2 & b3 & b4 & z & p & ds & v & -> & Hb & Hz & Hp & Hv);
        [eauto |].
      exists (Raise x), b1, b2, b3, b4, z, p, ds, v, [].
      rewrite app_nil_r. auto 10.
    + destruct (Hdav _ _ Hd) as (b1 & b2 & b3 & b4 & z & p & ds & v & -> & Hb & Hz & Hp & Hv);
        [eauto |].
      exists (Ok zip), b1, b2, b3, b4, z, p, ds, v, [].
      rewrite app_nil_r. auto 10.
    + pose proof Hd as Hd'. inversion Hd' as [| r b1 b2 b3 b4 z p ds v Hb Hz Hp Hv]; subst.
      inversion Hv; subst.
      exists (Ok zip), b1, b2, b3, b4, zip, p, ds,
        [EvSha256 zip true; EvSig zip p true],
        (EvUnzip Kboot zip (device args) (dest args) :: tail).
      rewrite Hf. repeat split; auto.
      * now rewrite <- app_assoc.
      * right. exists tail. split; [reflexivity |].
        apply connect_and_flash_kinds in Htail. revert Htail.
        apply kinds_in_weaken. intros k; simpl; tauto.
    + pose proof Hd as Hd'. inversion Hd' as [| r b1 b2 b3 b4 z p ds v Hb Hz Hp Hv]; subst.
      inversion Hv; subst.
      exists (Ok zip), b1, b2, b3, b4, zip, p, ds,
        [EvSha256 zip true; EvSig zip p true],
        [EvUnzip Firmware zip (device args) (dest args)].
      rewrite Hf. repeat split; auto.
      * now rewrite <- app_assoc.
      * right. exists []. split; [reflexivity | constructor].
    + pose proof Hd as Hd'. inversion Hd' as [| r b1 b2 b3 b4 z p ds v Hb Hz Hp Hv]; subst.
      inversion Hv; subst.
      exists (Ok zip), b1, b2, b3, b4, zip, p, ds,
        [EvSha256 zip true; EvSig zip p true],
        [EvUnzip Firmware zip (device args) (dest args);
         EvPrint ("Copy " ++ extracted args "firmware.bin" ++ " to your SDCard");
         EvPrint ("Copy " ++ extracted args "firmware.bin" ++ ".sig to your SDCard")].
      rewrite Hf. repeat split; auto.
      * now rewrite <- app_assoc.
      * right. eexists. split; [reflexivity | kinds].
Qed.

Lemma block_done_downloads p a d :
  block_done p a true d -> In (EvDownload a) d.
Proof. inversion 1; simpl; tauto. Qed.

Lemma four_blocks_inv (args : Args) b1 b2 b3 b4 ds :
  blocks args [(Zip, b1); (Sha256Txt, b2); (Sig, b3); (Pem, b4)] ds ->
  exists d1 d2 d3 d4,
    ds = (d1 ++ d2 ++ d3 ++ d4)%list /\
    block_done (artifact_path args Zip) Zip b1 d1 /\
    block_done (artifact_path args Sha256Txt) Sha256Txt b2 d2 /\
    block_done (artifact_path args Sig) Sig b3 d3 /\
    block_done (artifact_path args Pem) Pem b4 d4.
Proof.
  intros H.
  inversion H as [| ? ? ? d1 r1 H1 H']; subst; clear H.
  inversion H' as [| ? ? ? d2 r2 H2 H'']; subst; clear H'.
  inversion H'' as [| ? ? ? d3 r3 H3 H''']; subst; clear H''.
  inversion H''' as [| ? ? ? d4 r4 H4 Hnil]; subst; clear H'''.
  inversion Hnil; subst.
  exists d1, d2, d3, d4. rewrite app_nil_r. auto.
Qed.

(** Nothing is extracted from an archive that has not passed both
    verifications: every extraction, with or without the flash option, comes
    right after a true integrity verdict and a true signature verdict on the
    very archive it reads; it is the extraction of the selected device into
    the destination directory, of [kboot.kfpkg] with the flash option and of
    [firmware.bin] without. *)
Theorem extraction_only_of_verified_archive
    (w : World) (args : Args) (lines : list string)
    (k : unzip_kind) (zip dev out : string) :
  In (EvUnzip k zip dev out) (events (main w args) lines) ->
  exists pre pem post,
    events (main w args) lines =
      (pre ++ [EvSha256 zip true; EvSig zip pem true; EvUnzip k zip dev out]
           ++ post)%list /\
    kinds_in [KExists; KPrompt; KDownload] pre /\
    k = (if flash args then Kboot else Firmware) /\
    dev = device args /\ out = dest args.
Proof.
  intros Hin.
  destruct (checked_run w args lines _ Hin) as
    (r & b1 & b2 & b3 & b4 & z & p & ds & v & tail & Hev & Hb & _ & _ & Hv & Htail);
    [simpl; tauto |].
  rewrite Hev in Hin. pose proof (blocks_kinds _ _ _ Hb) as Hds.
  pose proof (verdicts_kinds _ _ _ _ Hv) as Hvk.
  in_cases Hin; try not_of_kind Hin.
  destruct r as [z'|x]; [| subst tail; destruct Hin].
  destruct Htail as [-> | (post & -> & Hpost)]; [destruct Hin |].
  in_cases Hin; try not_of_kind Hin.
  inversion Hv; subst.
  exists ds, p, post. rewrite Hev. simpl. auto.
Qed.

Lemma extraction_only_of_verified_archive_witness :
  exists pre pem post,
    events (main Sample.honest Sample.flash_official) [Sample.enter] =
      (pre ++ [EvSha256 "/tmp/krux-v25.1.0.zip" true;
               EvSig "/tmp/krux-v25.1.0.zip" pem true;
               EvUnzip Kboot "/tmp/krux-v25.1.0.zip" "dock" "/tmp"]
           ++ post)%list /\
    kinds_in [KExists; KPrompt; KDownload] pre /\
    Kboot = (if flash Sample.flash_official then Kboot else Firmware) /\
    "dock" = device Sample.flash_official /\ "/tmp" = dest Sample.flash_official.
Proof.
  apply (extraction_only_of_verified_archive Sample.honest Sample.flash_official
           [Sample.enter] Kboot "/tmp/krux-v25.1.0.zip" "dock" "/tmp").
  vm_compute. tauto.
Defined.

(** The verification starts only once the four blocks (zip, sha256 sidecar,
    signature sidecar, certificate, in that order) have each run to their
    end; and the signature is checked only right after a true integrity
    verdict on the same file. *)
Theorem verification_follows_the_four_blocks
    (w : World) (args : Args) (lines : list string) :
  (forall file ok,
      In (EvSha256 file ok) (events (main w args) lines) ->
      exists b1 b2 b3 b4 pre post,
        events (main w args) lines = (pre ++ EvSha256 file ok :: post)%list /\
        blocks args [(Zip, b1); (Sha256Txt, b2); (Sig, b3); (Pem, b4)] pre) /\
  (forall file pem ok,
      In (EvSig file pem ok) (events (main w args) lines) ->
      exists pre post,
        events (main w args) lines =
          (pre ++ EvSha256 file true :: EvSig file pem ok :: post)%list).
Proof.
  split.
  - intros file ok Hin.
    destruct (checked_run w args lines _ Hin) as
      (r & b1 & b2 & b3 & b4 & z & p & ds & v & tail & Hev & Hb & _ & _ & Hv & Htail);
      [simpl; tauto |].
    exists b1, b2, b3, b4, ds.
    rewrite Hev in Hin. pose proof (blocks_kinds _ _ _ Hb) as Hds.
    assert (Htk : kinds_in [KUnzip; KConnect; KFlash; KPrint] tail).
    { destruct r; [destruct Htail as [-> | (post & -> & Hpost)] | subst; constructor];
        [constructor |].
      constructor; [simpl; tauto |].
      revert Hpost. apply kinds_in_weaken. intros k; simpl; tauto. }
    in_cases Hin; try not_of_kind Hin.
    destruct Hv; in_cases Hin; rewrite Hev; simpl; eauto.
  - intros file pem ok Hin.
    destruct (checked_run w args lines _ Hin) as
      (r & b1 & b2 & b3 & b4 & z & p & ds & v & tail & Hev & Hb & _ & _ & Hv & Htail);
      [simpl; tauto |].
    rewrite Hev in Hin. pose proof (blocks_kinds _ _ _ Hb) as Hds.
    assert (Htk : kinds_in [KUnzip; KConnect; KFlash; KPrint] tail).
    { destruct r; [destruct Htail as [-> | (post & -> & Hpost)] | subst; constructor];
        [constructor |].
      constructor; [simpl; tauto |].
      revert Hpost. apply kinds_in_weaken. intros k; simpl; tauto. }
    in_cases Hin; try not_of_kind Hin.
    destruct Hv; in_cases Hin; rewrite Hev; exists ds; simpl; eauto.
Qed.

Lemma verification_follows_the_four_blocks_witness :
  (exists b1 b2 b3 b4 pre post,
      events (main (Sample.world false true) Sample.flash_official) [] =
        (pre ++ EvSha256 "/tmp/krux-v25.1.0.zip" false :: post)%list /\
      blocks Sample.flash_official
        [(Zip, b1); (Sha256Txt, b2); (Sig, b3); (Pem, b4)] pre) /\
  (exists pre post,
      events (main (Sample.world true false) Sample.flash_official) [] =
        (pre ++ EvSha256 "/tmp/krux-v25.1.0.zip" true
             :: EvSig "/tmp/krux-v25.1.0.zip" "/tmp/selfcustody.pem" false
             :: post)%list).
Proof.
  split.
  - apply (proj1 (verification_follows_the_four_blocks
                    (Sample.world false true) Sample.flash_official [])).
    vm_compute. tauto.
  - apply (proj2 (verification_follows_the_four_blocks
                    (Sample.world true false) Sample.flash_official [])).
    vm_compute. tauto.
Defined.

(** A file that is on disk and that the user keeps is the file that gets
    verified: in a run that does not download the zip, the integrity and
    signature verdicts are on [<destdir>/krux-<version>.zip]; in a run that
    does not download the certificate, the signature is checked against
    [<destdir>/selfcustody.pem]. *)
Theorem kept_files_are_the_ones_verified
    (w : World) (args : Args) (lines : list string) :
  (forall file ok,
      In (EvSha256 file ok) (events (main w args) lines) ->
      ~ In (EvDownload Zip) (events (main w args) lines) ->
      file = artifact_path args Zip) /\
  (forall file pem ok,
      In (EvSig file pem ok) (events (main w args) lines) ->
      (~ In (EvDownload Zip) (events (main w args) lines) ->
       file = artifact_path args Zip) /\
      (~ In (EvDownload Pem) (events (main w args) lines) ->
       pem = artifact_path args Pem)).
Proof.
  assert (Hkept : forall e,
            In e (events (main w args) lines) ->
            In (kind e) [KSha256; KSig] ->
            exists zip pem,
              (~ In (EvDownload Zip) (events (main w args) lines) ->
               zip = artifact_path args Zip) /\
              (~ In (EvDownload Pem) (events (main w args) lines) ->
               pem = artifact_path args Pem) /\
              match e with
              | EvSha256 file _ => file = zip
              | EvSig file p _ => file = zip /\ p = pem
              | _ => True
              end).
  { intros e Hin Hk.
    destruct (checked_run w args lines _ Hin) as
      (r & b1 & b2 & b3 & b4 & z & p & ds & v & tail & Hev & Hb & Hz & Hp & Hv & Htail);
      [simpl in *; tauto |].
    exists z, p.
    destruct (four_blocks_inv _ _ _ _ _ _ Hb) as (d1 & d2 & d3 & d4 & -> & H1 & H2 & H3 & H4).
    split; [| split].
    - intros Hno. apply Hz. destruct b1; [| reflexivity].
      exfalso. apply Hno. rewrite Hev. apply block_done_downloads in H1.
      rewrite !in_app_iff. tauto.
    - intros Hno. apply Hp. destruct b4; [| reflexivity].
      exfalso. apply Hno. rewrite Hev. apply block_done_downloads in H4.
      rewrite !in_app_iff. tauto.
    - rewrite Hev in Hin.
      assert (Hds : kinds_in [KExists; KPrompt; KDownload] (d1 ++ d2 ++ d3 ++ d4)%list)
        by (eapply blocks_kinds; eassumption).
      assert (Htk : kinds_in [KUnzip; KConnect; KFlash; KPrint] tail).
      { destruct r; [destruct Htail as [-> | (post & -> & Hpost)] | subst; constructor];
          [constructor |].
        constructor; [simpl; tauto |].
        revert Hpost. apply kinds_in_weaken. intros k; simpl; tauto. }
      apply in_app_or in Hin. destruct Hin as [Hin|Hin].
      { exfalso. apply (kinds_in_absurd _ _ _ Hds Hin). simpl in *. intuition congruence. }
      apply in_app_or in Hin. destruct Hin as [Hin|Hin].
      + destruct Hv; in_cases Hin; subst; simpl; auto.
      + exfalso. apply (kinds_in_absurd _ _ _ Htk Hin). simpl in *. intuition congruence. }
  split.
  - intros file ok Hin Hno.
    destruct (Hkept _ Hin) as (z & p & Hz & _ & ->); [simpl; tauto | auto].
  - intros file pem ok Hin.
    destruct (Hkept _ Hin) as (z & p & Hz & Hp & -> & ->); [simpl; tauto | auto].
Qed.

Lemma kept_files_are_the_ones_verified_witness :
  "/tmp/krux-v25.1.0.zip" = artifact_path Sample.flash_official Zip /\
  ("/tmp/krux-v25.1.0.zip" = artifact_path Sample.flash_official Zip /\
   "/tmp/selfcustody.pem" = artifact_path Sample.flash_official Pem).
Proof.
  split.
  - apply (proj1 (kept_files_are_the_ones_verified
                    Sample.cached Sample.flash_official ["n"; "n"; "n"; "n"; "go"])
             "/tmp/krux-v25.1.0.zip" true).
    + vm_compute. tauto.
    + vm_compute. intuition discriminate.
  - split.
    + apply (proj2 (kept_files_are_the_ones_verified
                      Sample.cached Sample.flash_official ["n"; "n"; "n"; "n"; "go"])
               "/tmp/krux-v25.1.0.zip" "/tmp/selfcustody.pem" true).
      * vm_compute. tauto.
      * vm_compute. intuition discriminate.
    + apply (proj2 (kept_files_are_the_ones_verified
                      Sample.cached Sample.flash_official ["n"; "n"; "n"; "n"; "go"])
               "/tmp/krux-v25.1.0.zip" "/tmp/selfcustody.pem" true).
      * vm_compute. tauto.
      * vm_compute. intuition discriminate.
Defined.

(** ** Which artifacts a run touches, and in which order *)

Lemma fetch_trace_block_event (args : Args) a d e :
  fetch_trace (artifact_path args a) a d -> In e d -> block_event args a e.
Proof.
  destruct 1; intros Hin; in_cases Hin; subst; simpl; auto.
Qed.

Lemma blocks_block_events (args : Args) l ds e :
  blocks args l ds -> In e ds ->
  exists a, In a (map fst l) /\ block_event args a e.
Proof.
  induction 1 as [| a b rest d ds' Hd _ IH]; intros Hin; [destruct Hin |].
  apply in_app_or in Hin. destruct Hin as [Hin|Hin].
  - exists a. split; [simpl; auto |].
    apply block_done_trace in Hd. eapply fetch_trace_block_event; eassumption.
  - destruct (IH Hin) as (a' & Ha' & He). exists a'. simpl. auto.
Qed.

(** Every existence check, every question about downloading again and every
    download of a run is about an artifact of the set the command line
    selects: the four files of the release on the official channel; on the
    beta channel the one binary of the chosen mode; none otherwise. *)
Theorem fetches_follow_selected_set
    (w : World) (args : Args) (lines : list string) (e : event) :
  In e (events (main w args) lines) ->
  In (kind e) [KExists; KPrompt; KDownload] ->
  exists a, In a (fetched_artifacts args) /\ block_event args a e.
Proof.
  intros Hin Hk. unfold fetched_artifacts.
  destruct (main_follows_grammar w args lines) as [d Hq | Hw | d _ Hsel Hb | d _ Hsel Ho].
  - exfalso. apply print_kinds in Hq. apply (kinds_in_absurd _ _ _ Hq Hin).
    simpl in *. intuition congruence.
  - exfalso. in_cases Hin. subst. simpl in Hk. intuition discriminate.
  - rewrite Hsel.
    destruct Hb as [d tail Hf Hd Htail | d Hf Hd | b d Hf Hd]; rewrite Hf.
    + exists BetaKboot. split; [simpl; auto |].
      apply in_app_or in Hin. destruct Hin as [Hin|Hin].
      * eapply fetch_trace_block_event; eassumption.
      * exfalso. apply connect_and_flash_kinds in Htail.
        apply (kinds_in_absurd _ _ _ Htail Hin). simpl in *. intuition congruence.
    + exists BetaBin. split; [simpl; auto |].
      eapply fetch_trace_block_event; eassumption.
    + exists BetaBin. split; [simpl; auto |].
      apply in_app_or in Hin. destruct Hin as [Hin|Hin].
      * apply block_done_trace in Hd. eapply fetch_trace_block_event; eassumption.
      * exfalso. in_cases Hin. subst. simpl in Hk. intuition discriminate.
  - rewrite Hsel.
    assert (Hdav : forall r d, dav_run args r d -> In e d ->
              exists a, In a [Zip; Sha256Txt; Sig; Pem] /\ block_event args a e).
    { intros r d0 Hd Hin0.
      destruct Hd as [x done a rest ds d0 Hl Hds Hd0 | r b1 b2 b3 b4 z p ds v Hds _ _ Hv];
        apply in_app_or in Hin0; destruct Hin0 as [Hin0|Hin0].
      - destruct (blocks_block_events _ _ _ _ Hds Hin0) as (a' & Ha' & He).
        exists a'. split; [| exact He]. rewrite Hl. apply in_or_app. auto.
      - exists a. split; [| eapply fetch_trace_block_event; eassumption].
        rewrite Hl. apply in_or_app. simpl. auto.
      - apply (blocks_block_events _ _ _ _ Hds Hin0).
      - exfalso. apply verdicts_kinds in Hv.
        apply (kinds_in_absurd _ _ _ Hv Hin0). simpl in *. intuition congruence. }
    destruct Ho as [x d Hd | zip d Hd | zip d tail Hf Hd Htail | zip d Hf Hd | zip d Hf Hd].
    + eapply Hdav; eassumption.
    + eapply Hdav; eassumption.
    + apply in_app_or in Hin. destruct Hin as [Hin|Hin]; [eapply Hdav; eassumption |].
      exfalso. apply connect_and_flash_kinds in Htail.
      destruct Hin as [<-|Hin]; [simpl in Hk; intuition discriminate |].
      apply (kinds_in_absurd _ _ _ Htail Hin). simpl in *. intuition congruence.
    + apply in_app_or in Hin. destruct Hin as [Hin|Hin]; [eapply Hdav; eassumption |].
      exfalso. in_cases Hin; subst; simpl in Hk; intuition discriminate.
    + apply in_app_or in Hin. destruct Hin as [Hin|Hin]; [eapply Hdav; eassumption |].
      exfalso. in_cases Hin; subst; simpl in Hk; intuition discriminate.
Qed.

Lemma fetches_follow_selected_set_witness :
  exists a, In a (fetched_artifacts Sample.flash_beta) /\
            block_event Sample.flash_beta a (EvDownload BetaKboot).
Proof.
  apply (fetches_follow_selected_set Sample.honest Sample.flash_beta ["ready"]).
  - vm_compute. tauto.
  - simpl. tauto.
Defined.

Lemma fetch_trace_first p a d q found :
  fetch_trace p a d -> In (EvExists q found) d ->
  q = p /\ exists post, d = EvExists p found :: post.
Proof.
  destruct 1; intros Hin; in_cases Hin; split; eauto.
Qed.

Lemma blocks_find (args : Args) l ds a found :
  blocks args l ds ->
  In (EvExists (artifact_path args a) found) ds ->
  exists l1 b l2 ds1 post,
    l = (l1 ++ (a, b) :: l2)%list /\ blocks args l1 ds1 /\
    ds = (ds1 ++ EvExists (artifact_path args a) found :: post)%list.
Proof.
  induction 1 as [| a0 b0 rest d ds' Hd Hrest IH]; intros Hin; [destruct Hin |].
  apply in_app_or in Hin. destruct Hin as [Hin|Hin].
  - pose proof (block_done_trace _ _ _ _ Hd) as Ht.
    destruct (fetch_trace_first _ _ _ _ _ Ht Hin) as (Hp & post & ->).
    apply artifact_path_inj in Hp. subst a0.
    exists [], b0, rest, [], (post ++ ds')%list.
    split; [reflexivity |]. split; [constructor | reflexivity].
  - destruct (IH Hin) as (l1 & b & l2 & ds1 & post & -> & H1 & ->).
    exists ((a0, b0) :: l1), b, l2, (d ++ ds1)%list, post.
    split; [reflexivity |]. split; [now constructor | now rewrite <- app_assoc].
Qed.

(** The four files of a release are handled in the order zip, sha256
    sidecar, signature sidecar, certificate, each after the blocks of those
    before it have run to their end and nothing else: when the driver looks
    for one of them on disk, that is all that has happened. So a block that
    fails (a download that raises, stdin exhausted at the question) stops
    the run before any later file is looked for. *)
Theorem release_files_are_handled_in_order
    (w : World) (args : Args) (lines : list string) (a : artifact) (found : bool) :
  In (EvExists (artifact_path args a) found) (events (main w args) lines) ->
  In a [Zip; Sha256Txt; Sig; Pem] ->
  exists done rest ds post,
    [Zip; Sha256Txt; Sig; Pem] = (map fst done ++ a :: rest)%list /\
    blocks args done ds /\
    events (main w args) lines =
      (ds ++ EvExists (artifact_path args a) found :: post)%list.
Proof.
  intros Hin Ha.
  assert (Hdav : forall r d,
            dav_run args r d ->
            In (EvExists (artifact_path args a) found) d ->
            exists done rest ds post,
              [Zip; Sha256Txt; Sig; Pem] = (map fst done ++ a :: rest)%list /\
              blocks args done ds /\
              d = (ds ++ EvExists (artifact_path args a) found :: post)%list).
  { intros r d Hd Hin0.
    destruct Hd as [x done a0 rest ds d0 Hl Hds Hd0 | r b1 b2 b3 b4 z p ds v Hds _ _ Hv];
      apply in_app_or in Hin0; destruct Hin0 as [Hin0|Hin0].
    - destruct (blocks_find _ _ _ _ _ Hds Hin0) as (l1 & b & l2 & ds1 & post & -> & H1 & ->).
      exists l1, (map fst l2 ++ a0 :: rest)%list, ds1, (post ++ d0)%list.
      split; [| split; [exact H1 |]].
      + rewrite Hl, map_app, <- app_assoc. reflexivity.
      + rewrite <- app_assoc. reflexivity.
    - destruct (fetch_trace_first _ _ _ _ _ Hd0 Hin0) as (Hp & post & ->).
      apply artifact_path_inj in Hp. subst a0.
      exists done, rest, ds, post. auto.
    - destruct (blocks_find _ _ _ _ _ Hds Hin0) as (l1 & b & l2 & ds1 & post & Hl & H1 & ->).
      exists l1, (map fst l2), ds1, (post ++ v)%list.
      split; [| split; [exact H1 |]].
      + change [Zip; Sha256Txt; Sig; Pem]
          with (map fst [(Zip, b1); (Sha256Txt, b2); (Sig, b3); (Pem, b4)]).
        rewrite Hl, map_app. reflexivity.
      + rewrite <- app_assoc. reflexivity.
    - exfalso. apply verdicts_kinds in Hv.
      apply (kinds_in_absurd _ _ _ Hv Hin0). simpl. intuition discriminate. }
  assert (Hext : forall r d tail,
            dav_run args r d ->
            kinds_in [KUnzip; KConnect; KFlash; KPrint] tail ->
            In (EvExists (artifact_path args a) found) (d ++ tail)%list ->
            exists done rest ds post,
              [Zip; Sha256Txt; Sig; Pem] = (map fst done ++ a :: rest)%list /\
              blocks args done ds /\
              (d ++ tail)%list =
                (ds ++ EvExists (artifact_path args a) found :: post)%list).
  { intros r d tail Hd Htail Hin0.
    apply in_app_or in Hin0. destruct Hin0 as [Hin0|Hin0].
    - destruct (Hdav _ _ Hd Hin0) as (done & rest & ds & post & Hl & Hb & ->).
      exists done, rest, ds, (post ++ tail)%list.
      split; [exact Hl |]. split; [exact Hb |].
      rewrite <- app_assoc. reflexivity.
    - exfalso. apply (kinds_in_absurd _ _ _ Htail Hin0). simpl. intuition discriminate. }
  destruct (main_follows_grammar w args lines) as [d Hq | Hw | d _ _ Hb | d _ _ Ho].
  - exfalso. apply print_kinds in Hq. not_of_kind Hin.
  - exfalso. in_cases Hin.
  - exfalso.
    assert (Hbeta : exists a', In a' [BetaKboot; BetaBin] /\
                               block_event args a' (EvExists (artifact_path args a) found)).
    { destruct Hb as [d tail _ Hd Htail | d _ Hd | b d _ Hd].
      - apply in_app_or in Hin. destruct Hin as [Hin|Hin].
        + exists BetaKboot. split; [simpl; auto |].
          eapply fetch_trace_block_event; eassumption.
        + exfalso. apply connect_and_flash_kinds in Htail. not_of_kind Hin.
      - exists BetaBin. split; [simpl; auto |].
        eapply fetch_trace_block_event; eassumption.
      - apply in_app_or in Hin. destruct Hin as [Hin|Hin].
        + exists BetaBin. split; [simpl; auto |].
          apply block_done_trace in Hd. eapply fetch_trace_block_event; eassumption.
        + exfalso. in_cases Hin. }
    destruct Hbeta as (a' & Ha' & He). simpl in He.
    apply artifact_path_inj in He. subst a'.
    simpl in Ha, Ha'. intuition congruence.
  - destruct Ho as [x d Hd | zip d Hd | zip d tail Hf Hd Htail | zip d Hf Hd | zip d Hf Hd].
    + now apply (Hdav (Raise x)).
    + now apply (Hdav (Ok zip)).
    + apply (Hext (Ok zip)); [assumption | | assumption].
      constructor; [simpl; tauto |].
      apply connect_and_flash_kinds in Htail. revert Htail.
      apply kinds_in_weaken. intros k; simpl; tauto.
    + apply (Hext (Ok zip)); [assumption | kinds | assumption].
    + apply (Hext (Ok zip)); [assumption | kinds | assumption].
Qed.

Lemma release_files_are_handled_in_order_witness :
  exists done rest ds post,
    [Zip; Sha256Txt; Sig; Pem] = (map fst done ++ Sig :: rest)%list /\
    blocks Sample.flash_official done ds /\
    events (main Sample.cached Sample.flash_official) ["n"; "y"] =
      (ds ++ EvExists (artifact_path Sample.flash_official Sig) true :: post)%list.
Proof.
  apply (release_files_are_handled_in_order
           Sample.cached Sample.flash_official ["n"; "y"] Sig true).
  - vm_compute. tauto.
  - simpl. tauto.
Defined.

(** ** What is read from stdin *)

Lemma answers_app d1 d2 :
  answers (d1 ++ d2)%list = (answers d1 ++ answers d2)%list.
Proof.
  induction d1 as [|e d1 IH]; [reflexivity |].
  destruct e; simpl; rewrite IH; reflexivity.
Qed.

Lemma rp_ret {A} (a : A) : ReadsPrompts (ret a).
Proof. intros st. exists []. simpl. now rewrite app_nil_r. Qed.

Lemma rp_raise {A} (e : exn) : ReadsPrompts (raise (A := A) e).
Proof. intros st. exists []. simpl. now rewrite app_nil_r. Qed.

Lemma rp_call {A} (f : history -> result A) : ReadsPrompts (call f).
Proof. intros st. exists []. simpl. now rewrite app_nil_r. Qed.

Lemma rp_emit (e : event) : answers [e] = [] -> ReadsPrompts (emit e).
Proof.
  intros He st. exists [e]. split; [reflexivity |]. rewrite He. reflexivity.
Qed.

Lemma rp_input (p : prompt) : ReadsPrompts (input p).
Proof.
  intros st. unfold input. destruct (stdin st) as [|line rest] eqn:E; simpl.
  - exists []. rewrite app_nil_r. auto.
  - exists [EvInput p line]. auto.
Qed.

Lemma rp_bind {A B} (m : M A) (k : A -> M B) :
  ReadsPrompts m -> (forall a, ReadsPrompts (k a)) -> ReadsPrompts (bind m k).
Proof.
  intros Hm Hk st. unfold bind.
  destruct (Hm st) as (d1 & Hd1 & Hs1).
  destruct (m st) as [[a|e] st1]; simpl in *.
  - destruct (Hk a st1) as (d2 & Hd2 & Hs2).
    exists (d1 ++ d2)%list. split.
    + rewrite Hd2, Hd1, app_assoc. reflexivity.
    + rewrite answers_app, <- app_assoc, <- Hs2. exact Hs1.
  - exists d1. auto.
Qed.

Lemma rp_for_each {A} (xs : list A) (body : A -> M unit) :
  (forall x, ReadsPrompts (body x)) -> ReadsPrompts (for_each xs body).
Proof.
  intros Hbody. induction xs as [|x xs IH]; simpl.
  - apply rp_ret.
  - apply rp_bind; auto.
Qed.

Ltac reads_prompts :=
  repeat first
    [ apply rp_ret
    | apply rp_raise
    | apply rp_call
    | apply rp_input
    | apply rp_emit; reflexivity
    | apply rp_for_each; intros ?
    | apply rp_bind; [| intros ?]
    | match goal with
      | |- ReadsPrompts (if ?b then _ else _) => destruct b
      end ].

Lemma main_reads_prompts (w : World) (args : Args) : ReadsPrompts (main w args).
Proof.
  unfold main, pipeline, beta_flash, beta_store, official_flash, official_store,
    download_and_verify, fetch_unless_present, path_exists, download_kboot_beta,
    download_bin_beta, download_zip, download_zip_sha256sum, download_zip_sig,
    download_pem, download, verify_sha256sum, verify_sig, flasher_run, unzip, print.
  reads_prompts.
Qed.

Lemma answers_prints d : Forall print_event d -> answers d = [].
Proof.
  induction 1 as [|e d He _ IH]; [reflexivity |].
  destruct e; simpl in *; try contradiction. exact IH.
Qed.

Lemma fetch_trace_answers p a d :
  fetch_trace p a d -> List.length (answers d) <= 1.
Proof. destruct 1; simpl; lia. Qed.

Lemma blocks_answers (args : Args) l ds :
  blocks args l ds -> List.length (answers ds) <= List.length l.
Proof.
  induction 1 as [| a b rest d ds Hd _ IH]; [simpl; lia |].
  apply block_done_trace, fetch_trace_answers in Hd.
  rewrite answers_app, length_app. simpl. lia.
Qed.

Lemma verdicts_answers zip pem r v : verdicts zip pem r v -> answers v = [].
Proof. destruct 1; reflexivity. Qed.

Lemma dav_run_answers (args : Args) r d :
  dav_run args r d -> List.length (answers d) <= 4.
Proof.
  destruct 1 as [e done a rest ds d Hl Hds Hd | r b1 b2 b3 b4 zip pem ds v Hds _ _ Hv];
    rewrite answers_app, length_app.
  - apply blocks_answers in Hds. apply fetch_trace_answers in Hd.
    apply (f_equal (@List.length artifact)) in Hl.
    rewrite length_app, length_map in Hl. simpl in Hl. lia.
  - apply blocks_answers in Hds. apply verdicts_answers in Hv.
    rewrite Hv. simpl in *. lia.
Qed.

Lemma connect_and_flash_answers (args : Args) target tail :
  connect_and_flash args target tail -> List.length (answers tail) <= 1.
Proof. destruct 1; simpl; lia. Qed.

(** Stdin is read by the pipeline only, a line at a time for a question,
    and a bounded number of times: the lines a run takes from stdin are the
    answers its trace records, in the order asked, the lines after them
    being left unread; there is at most one answer for each file of the set
    the version string selects and, with the flash option, one more before
    flashing (five at most, then); and a run of another branch than the
    pipeline reads nothing. *)
Theorem stdin_reads_are_bounded
    (w : World) (args : Args) (lines : list string) :
  exists read,
    lines = (read ++ stdin (snd (run (main w args) lines)))%list /\
    read = answers (events (main w args) lines) /\
    List.length read <= prompts_at_most args /\
    (~ pipeline_selected args -> read = []).
Proof.
  exists (answers (events (main w args) lines)).
  split; [| split; [reflexivity |]].
  - unfold events, run.
    destruct (main_reads_prompts w args {| stdin := lines; trace := [] |})
      as (d & Hd & Hs).
    simpl in *. now rewrite Hd.
  - unfold prompts_at_most.
    destruct (main_follows_grammar w args lines) as [d Hq | Hw | d Hp Hsel Hb | d Hp Hsel Ho].
    + rewrite (answers_prints _ Hq). split; [simpl; lia | reflexivity].
    + split; [simpl; lia | reflexivity].
    + rewrite Hsel. split; [| intros Hno; contradiction].
      destruct Hb as [d tail Hf Hd Htail | d Hf Hd | b d Hf Hd]; rewrite Hf.
      * apply fetch_trace_answers in Hd. apply connect_and_flash_answers in Htail.
        rewrite answers_app, length_app. lia.
      * apply fetch_trace_answers in Hd. lia.
      * apply block_done_trace, fetch_trace_answers in Hd.
        rewrite answers_app, length_app. simpl. lia.
    + rewrite Hsel. split; [| intros Hno; contradiction].
      destruct Ho as [x d Hd | zip d Hd | zip d tail Hf Hd Htail | zip d Hf Hd | zip d Hf Hd];
        apply dav_run_answers in Hd.
      * destruct (flash args); lia.
      * destruct (flash args); lia.
      * rewrite Hf. apply connect_and_flash_answers in Htail.
        rewrite answers_app, length_app. simpl. lia.
      * rewrite Hf, answers_app, length_app. simpl. lia.
      * rewrite Hf, answers_app, length_app. simpl. lia.
Qed.

Lemma stdin_reads_are_bounded_witness :
  exists read,
    ["n"; "y"; "n"; "n"; "go"; "left"; "over"] =
      (read ++ stdin (snd (run (main Sample.cached Sample.flash_official)
                             ["n"; "y"; "n"; "n"; "go"; "left"; "over"])))%list /\
    read = answers (events (main Sample.cached Sample.flash_official)
                      ["n"; "y"; "n"; "n"; "go"; "left"; "over"]) /\
    List.length read <= 5 /\
    (~ pipeline_selected Sample.flash_official -> read = []).
Proof.
  exact (stdin_reads_are_bounded Sample.cached Sample.flash_official
           ["n"; "y"; "n"; "n"; "go"; "left"; "over"]).
Defined.

Lemma answers_nil_no_input d :
  answers d = [] -> forall p answer, ~ In (EvInput p answer) d.
Proof.
  induction d as [|e d IH]; intros H p answer Hin; [destruct Hin |].
  destruct e; simpl in H; try discriminate;
    (destruct Hin as [Hin|Hin]; [discriminate Hin | exact (IH H p answer Hin)]).
Qed.

(** A run with nothing on stdin answers no prompt; so it never flashes, and
    it downloads only files that are absent from disk: a file that is there
    is never fetched again. *)
Theorem unattended_run_never_flashes
    (w : World) (args : Args) (a : artifact) (firmware : string) :
  ~ In (EvFlash firmware) (events (main w args) []) /\
  (In (EvDownload a) (events (main w args) []) ->
   In (EvExists (artifact_path args a) false) (events (main w args) [])).
Proof.
  assert (Hno : forall p answer, ~ In (EvInput p answer) (events (main w args) [])).
  { apply answers_nil_no_input. unfold events, run.
    destruct (main_reads_prompts w args {| stdin := []; trace := [] |})
      as (d & Hd & Hs).
    simpl in *. rewrite Hd. symmetry in Hs.
    now apply app_eq_nil in Hs. }
  split.
  - intros Hin.
    destruct (main_follows_grammar w args []) as [d Hq | Hw | d _ _ Hb | d _ _ Ho].
    + apply print_kinds in Hq. not_of_kind Hin.
    + in_cases Hin.
    + destruct Hb as [d tail _ Hd Htail | d _ Hd | b d _ Hd].
      * apply fetch_trace_kinds in Hd.
        destruct Htail; in_cases Hin; try not_of_kind Hin.
        apply (Hno (AskConnect (device args)) answer).
        apply in_or_app. right. simpl. auto.
      * apply fetch_trace_kinds in Hd. not_of_kind Hin.
      * apply block_done_trace, fetch_trace_kinds in Hd.
        in_cases Hin. not_of_kind Hin.
    + destruct Ho as [e d Hd | zip d Hd | zip d tail _ Hd Htail | zip d _ Hd | zip d _ Hd];
        apply dav_run_kinds in Hd.
      * not_of_kind Hin.
      * not_of_kind Hin.
      * destruct Htail; in_cases Hin; try not_of_kind Hin.
        apply (Hno (AskConnect (device args)) answer).
        apply in_or_app. right. simpl. auto.
      * in_cases Hin. not_of_kind Hin.
      * in_cases Hin. not_of_kind Hin.
  - intros Hin.
    unfold events, run in *.
    destruct (main_needs w args a {| stdin := []; trace := [] |}) as (d & Hd & H).
    simpl in Hd. rewrite Hd in *.
    apply H in Hin. destruct Hin as [Hin|Hin]; [exact Hin |].
    exfalso. exact (Hno _ _ Hin).
Qed.

Lemma unattended_run_never_flashes_witness :
  In (EvExists (artifact_path Sample.flash_official Zip) false)
     (events (main Sample.honest Sample.flash_official) []).
Proof.
  apply (proj2 (unattended_run_never_flashes Sample.honest Sample.flash_official
                  Zip "/tmp/kboot.kfpkg")).
  vm_compute. tauto.
Defined.

(** ** Command lines that select nothing *)

(** With none of the version, listing and wipe options: a command line
    without a device, or with a device and a version string that selects no
    artifact set, makes the run a silent no-op. It ends normally, with no
    event and nothing read; no error tells the user that the version was
    not recognised. *)
Theorem nothing_selected_nothing_done
    (w : World) (args : Args) (lines : list string) :
  version args = false ->
  available_firmwares args = false ->
  available_devices args = false ->
  wipe args = false ->
  Py.truthy (firmware_device args) = false \/
  (Py.truthy (firmware_version args) = true /\
   selected (fversion args) = NoSet) ->
  run (main w args) lines = (Ok tt, {| stdin := lines; trace := [] |}).
Proof.
  intros Hv Hf Hd Hw Hnone. unfold run, main. rewrite Hv, Hf, Hd, Hw.
  destruct Hnone as [Hdev | [Hver Hsel]].
  - rewrite Hdev. reflexivity.
  - rewrite Hver. simpl. rewrite !andb_false_r, !andb_true_r.
    destruct (Py.truthy (firmware_device args)); [| reflexivity].
    unfold pipeline. unfold selected in Hsel.
    destruct (Re.found BETA_RE (fversion args)); [discriminate |].
    destruct (Re.found OFFICIAL_RE (fversion args)); [discriminate | reflexivity].
Qed.

Lemma nothing_selected_nothing_done_witness :
  run (main Sample.honest (Sample.install "dock" "v30.1.0" true)) ["y"] =
  (Ok tt, {| stdin := ["y"]; trace := [] |}).
Proof.
  apply (nothing_selected_nothing_done Sample.honest
           (Sample.install "dock" "v30.1.0" true) ["y"]);
    try reflexivity.
  right. split; reflexivity.
Defined.

(** ** The listing of releases *)

(** [--available-firmwares] (without [--version]) prints one line per
    release the selector yields, in its order, and does nothing else; when
    the selector raises, its exception ends the run with nothing printed.
    The device, version, flash and wipe options are not looked at. *)
Theorem available_firmwares_listing
    (w : World) (args : Args) (lines : list string) :
  version args = false ->
  available_firmwares args = true ->
  run (main w args) lines =
  match selector_releases w [] with
  | Ok releases =>
      (Ok tt, {| stdin := lines;
                 trace := map (fun v => EvPrint ("* " ++ v)) releases |})
  | Raise e => (Raise e, {| stdin := lines; trace := [] |})
  end.
Proof.
  intros Hv Hf. unfold run, main. rewrite Hv, Hf.
  unfold bind, call. simpl.
  destruct (selector_releases w []) as [releases|e]; [| reflexivity].
  rewrite for_each_print. reflexivity.
Qed.

Lemma available_firmwares_listing_witness :
  run (main Sample.honest
         {| version := false; available_firmwares := true;
            available_devices := true; firmware_device := Some "dock";
            firmware_version := None; destdir := "/tmp";
            flash := true; wipe := true |}) ["y"] =
  (Ok tt, {| stdin := ["y"];
             trace := [EvPrint "* v25.1.0"; EvPrint "* odudex/krux_binaries"] |}).
Proof.
  apply (available_firmwares_listing Sample.honest
           {| version := false; available_firmwares := true;
              available_devices := true; firmware_device := Some "dock";
              firmware_version := None; destdir := "/tmp";
              flash := true; wipe := true |} ["y"]);
    reflexivity.
Defined.

(** ** Why a run fails *)








Lemma bind_assoc {A B C} (m : M A) (f : A -> M B) (g : B -> M C) (st : state) :
  bind (bind m f) g st = bind m (fun x => bind (f x) g) st.
Proof.
  unfold bind. destruct (m st) as [[a|e] st1]; [| reflexivity].
  destruct (f a st1) as [[b|e] st2]; reflexivity.
Qed.



Section CalmWorld.

Variable w : World.
Hypothesis calm : Calm w.

Ltac calm_oracle :=
  first [ apply (calm_selector _ calm) | apply (calm_stdout _ calm)
        | apply (calm_downloader _ calm) | apply (calm_download _ calm)
        | apply (calm_sha256_check _ calm) | apply (calm_sha256_load _ calm)
        | apply (calm_sha256_verify _ calm) | apply (calm_sig_check _ calm)
        | apply (calm_pem_check _ calm) | apply (calm_sig_load _ calm)
        | apply (calm_sig_verify _ calm) | apply (calm_unzip _ calm)
        | apply (calm_flasher_new _ calm) | apply (calm_flasher_flash _ calm)
        | apply (calm_wiper_new _ calm) | apply (calm_wiper_wipe _ calm)
        | (eexists; reflexivity) ].










End CalmWorld.



(** ** When a run succeeds *)

Lemma succeeds_weaken {A} (k k' : nat) (Q Q' : A -> history -> Prop) (m : M A) :
  k <= k' -> (forall a d, Q a d -> Q' a d) -> Succeeds k Q m -> Succeeds k' Q' m.
Proof.
  intros Hk HQ Hm st Hlen.
  destruct (Hm st) as (a & st' & d & Hrun & Hd & Hs & Hq); [lia |].
  exists a, st', d. repeat split; auto. lia.
Qed.

Lemma succeeds_ret {A} (a : A) : Succeeds 0 (fun x d => x = a /\ d = []) (ret a).
Proof.
  intros st _. exists a, st, []. rewrite app_nil_r. repeat split; auto. lia.
Qed.

Lemma succeeds_emit (e : event) : Succeeds 0 (fun _ d => d = [e]) (emit e).
Proof.
  intros st _. eexists tt, _, [e]. repeat split; simpl; auto. lia.
Qed.

Lemma succeeds_call {A} (f : history -> result A) (Qv : A -> Prop) :
  (forall h, exists v, f h = Ok v /\ Qv v) ->
  Succeeds 0 (fun v d => Qv v /\ d = []) (call f).
Proof.
  intros Hf st _. destruct (Hf (trace st)) as (v & Hv & Hq).
  exists v, st, []. unfold call. rewrite Hv, app_nil_r. repeat split; auto. lia.
Qed.

Lemma succeeds_input (p : prompt) :
  Succeeds 1 (fun answer d => d = [EvInput p answer]) (input p).
Proof.
  intros st Hlen. unfold input.
  destruct (stdin st) as [|line rest] eqn:E; [simpl in Hlen; lia |].
  eexists line, _, _. repeat split; simpl; lia.
Qed.

Lemma succeeds_bind {A B} (k1 k2 : nat) (Q1 : A -> history -> Prop)
    (R : B -> history -> Prop) (m : M A) (f : A -> M B) :
  Succeeds k1 Q1 m ->
  (forall a d1, Q1 a d1 -> Succeeds k2 (fun b d2 => R b (d1 ++ d2)%list) (f a)) ->
  Succeeds (k1 + k2) R (bind m f).
Proof.
  intros Hm Hf st Hlen.
  destruct (Hm st) as (a & st1 & d1 & Hrun1 & Hd1 & Hs1 & Hq1); [lia |].
  destruct (Hf a d1 Hq1 st1) as (b & st2 & d2 & Hrun2 & Hd2 & Hs2 & Hq2); [lia |].
  exists b, st2, (d1 ++ d2)%list. unfold bind. rewrite Hrun1, Hrun2.
  repeat split; auto.
  - rewrite Hd2, Hd1, app_assoc. reflexivity.
  - lia.
Qed.

Lemma returns_bind {A B} (k1 k2 : nat) (m : M A) (f : A -> M B) :
  Returns k1 m -> (forall a, Returns k2 (f a)) -> Returns (k1 + k2) (bind m f).
Proof.
  unfold Returns. intros Hm Hf.
  apply succeeds_bind with (Q1 := fun _ _ => True); [exact Hm |].
  intros a d1 _. exact (Hf a).
Qed.

Lemma returns_of {A} (k : nat) (Q : A -> history -> Prop) (m : M A) :
  Succeeds k Q m -> Returns k m.
Proof. unfold Returns. apply succeeds_weaken; auto. Qed.

Lemma returns_ext {A} (k : nat) (Q : A -> history -> Prop) (m m' : M A) :
  (forall st, m st = m' st) -> Succeeds k Q m -> Succeeds k Q m'.
Proof.
  intros Hext Hm st Hlen. rewrite <- Hext. now apply Hm.
Qed.

Lemma returns_assoc {A B C} (n : nat) (m : M A) (f : A -> M B) (g : B -> M C) :
  Returns n (bind (bind m f) g) -> Returns n (bind m (fun x => bind (f x) g)).
Proof. apply returns_ext. intros st. apply bind_assoc. Qed.

Lemma returns_more {A} (k k' : nat) (m : M A) : k <= k' -> Returns k m -> Returns k' m.
Proof. intros Hk. unfold Returns. apply succeeds_weaken; auto. Qed.

Section GenuineWorld.

Variable w : World.
Hypothesis calm : Calm w.
Hypothesis genuine : Genuine w.

Ltac calm_oracle :=
  first [ apply (calm_selector _ calm) | apply (calm_stdout _ calm)
        | apply (calm_downloader _ calm) | apply (calm_download _ calm)
        | apply (calm_sha256_check _ calm) | apply (calm_sha256_load _ calm)
        | apply (calm_sha256_verify _ calm) | apply (calm_sig_check _ calm)
        | apply (calm_pem_check _ calm) | apply (calm_sig_load _ calm)
        | apply (calm_sig_verify _ calm) | apply (calm_unzip _ calm)
        | apply (calm_flasher_new _ calm) | apply (calm_flasher_flash _ calm)
        | apply (calm_wiper_new _ calm) | apply (calm_wiper_wipe _ calm)
        | (eexists; reflexivity) ].

(** Every call of the goal returns, the verifiers returning true. *)
Ltac genuine_calls :=
  repeat match goal with
    | |- context [match ?x with _ => _ end] =>
        lazymatch x with
        | context [match _ with _ => _ end] => fail
        | _ =>
            first
              [ rewrite (proj1 genuine)
              | rewrite (proj2 genuine)
              | let H := fresh in
                assert (H : exists v, x = Ok v) by calm_oracle;
                destruct H as (? & H); rewrite H; clear H ];
            simpl
        end
    end.

Lemma returns_call {A} (f : history -> result A) :
  (forall h, exists v, f h = Ok v) -> Returns 0 (call f).
Proof.
  intros Hf. apply returns_of with (Q := fun v d => True /\ d = []).
  apply succeeds_call. intros h. destruct (Hf h) as (v & Hv). eauto.
Qed.

(** Computations that read nothing and whose calls all return. *)
Ltac returns_at_once :=
  repeat first
    [ apply (returns_bind 0 0); [| intros ?]
    | apply returns_call; intros ?; calm_oracle
    | apply returns_of with (1 := succeeds_emit _)
    | apply returns_of with (1 := succeeds_ret _) ].

Ltac download_returns :=
  unfold download_zip, download_zip_sha256sum, download_zip_sig, download_pem,
    download_kboot_beta, download_bin_beta, download, progress;
  returns_at_once.

Lemma block_returns {A} (p q : string) (fetch keep : M A) :
  Returns 0 fetch -> Returns 0 keep ->
  Returns 1 (fetch_unless_present w p q fetch keep).
Proof.
  intros Hfetch Hkeep. unfold fetch_unless_present, ask, progress.
  apply (returns_bind 0 1); [returns_at_once | intros _].
  apply (returns_bind 0 1); [returns_at_once | intros _].
  apply (returns_bind 0 1); [unfold path_exists; returns_at_once | intros found].
  destruct (negb found).
  - apply returns_more with (k := 0); [lia | exact Hfetch].
  - apply (returns_bind 1 0).
    + apply (returns_bind 0 1); [returns_at_once | intros _].
      apply returns_of with (1 := succeeds_input _).
    + intros answer. destruct (answer =? "y"); assumption.
Qed.

Lemma checked_returns (zipd : string) :
  Returns 0
    (bind (verify_sha256sum w zipd) (fun ok =>
       if negb ok then raise (RuntimeError "Invalid sha256sum") else ret tt)).
Proof.
  intros st _. unfold verify_sha256sum, progress, bind, call, emit, ret, raise. simpl.
  genuine_calls.
  eexists tt, _, [EvSha256 zipd true]. repeat split; simpl; lia.
Qed.

Lemma signed_returns (zipd pemfile : string) :
  Returns 0
    (bind (verify_sig w zipd pemfile) (fun ok =>
       if negb ok then raise (RuntimeError "Invalid signature") else ret tt)).
Proof.
  intros st _. unfold verify_sig, progress, bind, call, emit, ret, raise. simpl.
  genuine_calls.
  eexists tt, _, [EvSig zipd pemfile true]. repeat split; simpl; lia.
Qed.

Lemma download_and_verify_returns (args : Args) :
  Returns 4 (download_and_verify w args).
Proof.
  unfold download_and_verify.
  apply (returns_bind 1 3);
    [apply block_returns; download_returns | intros zipd].
  apply (returns_bind 1 2);
    [apply block_returns; download_returns | intros _].
  apply (returns_bind 1 1);
    [apply block_returns; download_returns | intros _].
  apply (returns_bind 1 0);
    [apply block_returns; download_returns | intros pemfile].
  apply returns_assoc. apply (returns_bind 0 0); [apply checked_returns | intros _].
  apply (returns_bind 0 0); [unfold progress; returns_at_once | intros _].
  apply returns_assoc. apply (returns_bind 0 0); [apply signed_returns | intros _].
  unfold progress. returns_at_once.
Qed.

(** The connect prompt and the flash: one line, and the flash is done. *)
Lemma connect_and_flash_succeeds (q : string) (p : prompt) (target : string) :
  Succeeds 1 (fun _ d => In (EvFlash target) d)
    (bind (ask w q p) (fun _ => flasher_run w target)).
Proof.
  intros st Hlen. unfold flasher_run, ask, progress, input, bind, call, emit.
  destruct (stdin st) as [|line rest] eqn:E; [simpl in Hlen; lia |].
  simpl. genuine_calls.
  match goal with
  | |- context [flasher_flash w ?h ?t] =>
      destruct (calm_flasher_flash _ calm h t) as ([] & ->)
  end.
  eexists tt, _, [EvInput p line; EvFlash target].
  repeat split; simpl; auto.
  - now rewrite <- app_assoc.
  - lia.
Qed.

Lemma in_after {A} (x : A) (d1 d2 : list A) : In x d2 -> In x (d1 ++ d2)%list.
Proof. intros H. apply in_or_app. auto. Qed.

(** A progress line before a computation changes nothing to what it does. *)
Lemma succeeds_announced {A} (k : nat) (Q : A -> history -> Prop)
    (line : string) (m : M A) :
  Succeeds k Q m -> Succeeds k Q (bind (progress w line) (fun _ => m)).
Proof.
  intros Hm st Hlen. unfold bind, progress, call.
  destruct (calm_stdout _ calm (trace st) line) as ([] & ->).
  exact (Hm st Hlen).
Qed.

Lemma pipeline_succeeds (args : Args) :
  selected (fversion args) <> NoSet ->
  Succeeds 5
    (fun _ d => flash args = true -> In (EvFlash (flash_target args)) d)
    (pipeline w args).
Proof.
  intros Hsel. unfold pipeline, flash_target, selected in *.
  destruct (Re.found BETA_RE (fversion args)).
  - destruct (flash args).
    + unfold beta_flash.
      apply succeeds_weaken with
        (k := 1 + 1) (Q := fun _ d => In (EvFlash (dest args ++ "/kboot.kfpkg")) d);
        [lia | auto |].
      apply succeeds_bind with (Q1 := fun _ _ => True).
      * apply block_returns; download_returns.
      * intros u d1 _. do 2 apply succeeds_announced.
        generalize (connect_and_flash_succeeds (connect_question args)
                      (AskConnect (device args)) (dest args ++ "/kboot.kfpkg")).
        apply succeeds_weaken; [lia |]. intros ? d. apply in_after.
    + unfold beta_store.
      apply succeeds_weaken with (k := 1 + 0) (Q := fun _ _ => True);
        [lia | intros ? ? _; discriminate |].
      apply returns_bind.
      * apply block_returns; download_returns.
      * intros _. apply returns_of with (1 := succeeds_emit _).
  - destruct (Re.found OFFICIAL_RE (fversion args)); [| congruence].
    destruct (flash args).
    + unfold official_flash.
      apply succeeds_weaken with
        (k := 4 + (0 + 1)) (Q := fun _ d => In (EvFlash (extracted args "kboot.kfpkg")) d);
        [lia | auto |].
      apply succeeds_bind with (Q1 := fun _ _ => True);
        [apply download_and_verify_returns | intros zip d1 _].
      do 2 apply succeeds_announced.
      apply succeeds_bind with (Q1 := fun _ _ => True).
      * unfold unzip. returns_at_once.
      * intros u d2 _. do 2 apply succeeds_announced.
        generalize (connect_and_flash_succeeds (connect_question args)
                      (AskConnect (device args)) (extracted args "kboot.kfpkg")).
        apply succeeds_weaken; [lia |]. intros ? d Hin.
        apply in_after, in_after, Hin.
    + unfold official_store.
      apply succeeds_weaken with (k := 4 + 0) (Q := fun _ _ => True);
        [lia | intros ? ? _; discriminate |].
      apply returns_bind; [apply download_and_verify_returns | intros zip].
      unfold unzip, print, progress. returns_at_once.
Qed.

End GenuineWorld.

(** The run of the whole pipeline to its end: with a device and a version
    string that selects an artifact set, collaborators that do not raise, a
    stdout that takes every line written to it, verifiers that find nothing
    wrong, and five lines on stdin (one per possible question), the run
    ends normally; and with the flash option it
    has flashed the target: the downloaded [kboot.kfpkg] on the beta
    channel, the extracted one on the official channel. *)
Theorem pipeline_runs_to_its_end
    (w : World) (args : Args) (lines : list string) :
  Calm w -> Genuine w ->
  pipeline_selected args ->
  selected (fversion args) <> NoSet ->
  5 <= List.length lines ->
  outcome (main w args) lines = Ok tt /\
  (flash args = true ->
   In (EvFlash (flash_target args)) (events (main w args) lines)).
Proof.
  intros Hcalm Hgen (Hv & Hf & Hd & Hw & Hdev & Hver) Hsel Hlen.
  unfold outcome, events, run, main.
  rewrite Hv, Hf, Hd, Hw, Hdev, Hver. simpl.
  destruct (pipeline_succeeds w Hcalm Hgen args Hsel {| stdin := lines; trace := [] |})
    as ([] & st' & d & Hrun & Hd' & _ & Hq); [exact Hlen |].
  rewrite Hrun. simpl in *. rewrite Hd'. auto.
Qed.

Lemma pipeline_runs_to_its_end_witness :
  outcome (main Sample.cached Sample.flash_official) ["y"; "n"; "y"; "n"; "go"]
  = Ok tt /\
  (flash Sample.flash_official = true ->
   In (EvFlash (flash_target Sample.flash_official))
      (events (main Sample.cached Sample.flash_official)
              ["y"; "n"; "y"; "n"; "go"])).
Proof.
  apply (pipeline_runs_to_its_end Sample.cached Sample.flash_official
           ["y"; "n"; "y"; "n"; "go"]).
  - exact sample_cached_calm.
  - split; intros; reflexivity.
  - repeat split.
  - discriminate.
  - simpl. lia.
Defined.

(** ** The version tags the official channel accepts *)

Lemma append_empty_r (a : string) : a ++ EmptyString = a.
Proof. induction a as [|x a IH]; simpl; [reflexivity | now rewrite IH]. Qed.

Lemma matches_number (re : Re.regex) (m : list string) :
  Re.Matches ((Re.Digit, Re.OneOrMore) :: re) m <->
  exists a rest, m = (a ++ rest)%list /\ digits a /\ Re.Matches re rest.
Proof.
  split.
  - intros H. remember ((Re.Digit, Re.OneOrMore) :: re) as r eqn:Er.
    induction H as [| cs c re' s Hc Hs _ | cs c re' s Hc Hs _ | cs c re' s Hc Hs IH];
      try discriminate; injection Er as -> ->.
    + exists [c], s.
      split; [reflexivity |]. split; [| exact Hs].
      split; [discriminate |]. simpl in *. now rewrite Hc.
    + destruct (IH eq_refl) as (a & rest & -> & (_ & Ha) & Hrest).
      exists (c :: a), rest.
      split; [reflexivity |]. split; [| exact Hrest].
      split; [discriminate |]. simpl in *. now rewrite Hc, Ha.
  - intros (a & rest & -> & (Hne & Ha) & Hrest).
    induction a as [|c a IH]; [congruence |].
    simpl in Ha. apply andb_prop in Ha. destruct Ha as [Hc Ha].
    destruct a as [|c' a'].
    + simpl. now apply Re.M_last.
    + simpl. apply Re.M_more; [exact Hc |].
      apply IH; [discriminate | exact Ha].
Qed.

Lemma matches_official (m : list string) :
  Re.Matches OFFICIAL_RE m <->
  exists d a b,
    m = (["v"; "2"; d; "."] ++ a ++ ["."] ++ b)%list /\
    Py.isdecimal d = true /\ digits a /\ digits b.
Proof.
  unfold OFFICIAL_RE. split.
  - intros H.
    inversion H as [| cs1 c1 re1 s1 Hc1 H1 | |]; subst; clear H.
    inversion H1 as [| cs2 c2 re2 s2 Hc2 H2 | |]; subst; clear H1.
    inversion H2 as [| cs3 c3 re3 s3 Hc3 H3 | |]; subst; clear H2.
    inversion H3 as [| cs4 c4 re4 s4 Hc4 H4 | |]; subst; clear H3.
    apply matches_number in H4. destruct H4 as (a & rest & -> & Ha & H5).
    inversion H5 as [| cs5 c5 re5 s5 Hc5 H6 | |]; subst; clear H5.
    apply matches_number in H6. destruct H6 as (b & rest & -> & Hb & H7).
    inversion H7; subst.
    unfold Re.in_charset in Hc1, Hc2, Hc3, Hc4, Hc5.
    apply String.eqb_eq in Hc1, Hc2, Hc4, Hc5. subst.
    exists c3, a, b. rewrite app_nil_r. auto.
  - intros (d & a & b & -> & Hd & Ha & Hb).
    simpl. apply Re.M_one; [reflexivity |]. apply Re.M_one; [reflexivity |].
    apply Re.M_one; [exact Hd |]. apply Re.M_one; [reflexivity |].
    apply matches_number. exists a, ("." :: b). repeat split; try apply Ha.
    apply Re.M_one; [reflexivity |].
    apply matches_number. exists b, [].
    rewrite app_nil_r. repeat split; try apply Hb. constructor.
Qed.

(** The official set is selected exactly by the version strings that do not
    hold the beta marker and whose characters hold, anywhere, [v], [2], one
    decimal digit, a dot, one or more decimal digits, a dot and one or more
    decimal digits. A decimal digit is what [\d] accepts in a [str] pattern:
    any character Unicode classes as one, the ASCII digits being the only
    ones among the single-byte characters. So [v25.1.0] selects the official
    set, and so does the same tag with an Arabic-Indic five; [v30.1.0] and
    [v2.1.0] hold no such tag. *)
Theorem official_version_tags (v : string) :
  (selected v = OfficialSet <->
   ~ contains "odudex/krux_binaries" v /\
   exists pre d a b post,
     Py.chars v = (pre ++ ["v"; "2"; d; "."] ++ a ++ ["."] ++ b ++ post)%list /\
     Py.isdecimal d = true /\ digits a /\ digits b) /\
  (forall c : ascii,
     Py.isdecimal (String c EmptyString) =
     ((48 <=? nat_of_ascii c)%nat && (nat_of_ascii c <=? 57)%nat)).
Proof.
  split.
  - assert (Hocc : Re.Occurs OFFICIAL_RE v <->
                   exists pre d a b post,
                     Py.chars v =
                       (pre ++ ["v"; "2"; d; "."] ++ a ++ ["."] ++ b ++ post)%list /\
                     Py.isdecimal d = true /\ digits a /\ digits b).
    { unfold Re.Occurs. split.
      - intros (pre & m & post & E & Hm).
        apply matches_official in Hm. destruct Hm as (d & a & b & -> & Hd & Ha & Hb).
        exists pre, d, a, b, post. repeat split; try assumption; try apply Ha; try apply Hb.
        rewrite E. simpl. rewrite <- !app_assoc. reflexivity.
      - intros (pre & d & a & b & post & E & Hd & Ha & Hb).
        exists pre, (["v"; "2"; d; "."] ++ a ++ ["."] ++ b)%list, post. split.
        + rewrite E. simpl. rewrite <- !app_assoc. reflexivity.
        + apply matches_official. exists d, a, b. auto. }
    rewrite <- Hocc, <- found_official_iff, <- found_beta_iff.
    unfold selected.
    destruct (Re.found BETA_RE v); destruct (Re.found OFFICIAL_RE v);
      split; try discriminate; try tauto; intuition congruence.
  - intros c. destruct c as [[] [] [] [] [] [] [] []]; vm_compute; reflexivity.
Qed.

Lemma official_version_tags_witness :
  selected "krux-v2٥.03.0-rc1" = OfficialSet.
Proof.
  apply (proj2 (proj1 (official_version_tags "krux-v2٥.03.0-rc1"))). split.
  - rewrite <- found_beta_iff. intros H. vm_compute in H. discriminate H.
  - exists ["k"; "r"; "u"; "x"; "-"], "٥", ["0"; "3"], ["0"], ["-"; "r"; "c"; "1"].
    repeat split; try (vm_compute; reflexivity); discriminate.
Defined.

(** ** The gate of the script *)

Module CliFacts.
Import Cli.

Lemma strip_prefix_iff (t s rest : string) :
  strip_prefix t s = Some rest <-> s = t ++ rest.
Proof.
  revert s. induction t as [|c t IH]; intros s; simpl.
  - split; [now intros [= ->] | now intros ->].
  - destruct s as [|c' s]; [split; discriminate |].
    destruct (Ascii.eqb_spec c c') as [->|Hne].
    + rewrite IH. split; [now intros -> | now intros [= ->]].
    + split; [discriminate | intros [= E _]; congruence].
Qed.

Lemma star_cons re c s b :
  match_at (DotStar :: re) (String c s) b =
  (negb (Ascii.eqb c newline) && match_at (DotStar :: re) s false)
  || match_at re (String c s) b.
Proof. reflexivity. Qed.

Lemma star_nil re b : match_at (DotStar :: re) EmptyString b = match_at re EmptyString b.
Proof. reflexivity. Qed.

(** Without [^], whether a match starts the string does not matter. *)
Lemma start_irrelevant re :
  bol_free re = true -> forall s b1 b2, match_at re s b1 = match_at re s b2.
Proof.
  induction re as [|i re IH]; intros Hfree s b1 b2; [reflexivity |].
  simpl in Hfree. apply andb_prop in Hfree. destruct Hfree as [Hi Hfree].
  destruct i; try discriminate.
  - simpl. now rewrite (IH Hfree s b1 b2).
  - revert b1 b2. induction s as [|c s IHs]; intros b1 b2.
    + rewrite !star_nil. now apply IH.
    + rewrite !star_cons. now rewrite (IH Hfree (String c s) b1 b2).
  - simpl. destruct (strip_prefix t s); [now apply IH | reflexivity].
  - simpl. rewrite (IH Hfree s b1 b2).
    destruct (strip_prefix t s) as [rest|]; [| reflexivity].
    now rewrite (IH Hfree rest (b1 && (t =? EmptyString)) (b2 && (t =? EmptyString))).
Qed.

Lemma one_line_app a b : one_line (a ++ b) = one_line a && one_line b.
Proof.
  induction a as [|c a IH]; simpl; [reflexivity |].
  now rewrite IH, andb_assoc.
Qed.

(** [.*] takes a stretch without newline, and the rest goes on from there. *)
Lemma star_iff re s b :
  bol_free re = true ->
  (match_at (DotStar :: re) s b = true <->
   exists a rest, s = a ++ rest /\ one_line a = true /\ match_at re rest false = true).
Proof.
  intros Hfree. revert b. induction s as [|c s IH]; intros b.
  - rewrite star_nil, (start_irrelevant re Hfree _ b false). split.
    + intros H. exists EmptyString, EmptyString.
      split; [reflexivity |]. split; [reflexivity | exact H].
    + intros (a & rest & E & _ & H).
      destruct a; [| discriminate]. simpl in E. now subst.
  - rewrite star_cons, orb_true_iff, andb_true_iff, IH,
      (start_irrelevant re Hfree _ b false).
    split.
    + intros [[Hc (a & rest & -> & Ha & H)] | H].
      * exists (String c a), rest. simpl. rewrite Hc, Ha.
        split; [reflexivity |]. split; [reflexivity | exact H].
      * exists EmptyString, (String c s).
        split; [reflexivity |]. split; [reflexivity | exact H].
    + intros (a & rest & E & Ha & H). destruct a as [|c' a].
      * simpl in E. subst. right. exact H.
      * simpl in E. injection E as -> ->. simpl in Ha.
        apply andb_prop in Ha. destruct Ha as [Hc Ha]. left.
        split; [exact Hc |]. exists a, rest.
        split; [reflexivity |]. split; [exact Ha | exact H].
Qed.

Lemma text_iff t re s b :
  match_at (Text t :: re) s b = true <->
  exists rest, s = t ++ rest /\ match_at re rest (b && (t =? EmptyString)) = true.
Proof.
  simpl. destruct (strip_prefix t s) as [rest|] eqn:E.
  - apply strip_prefix_iff in E. subst. split; [eauto |].
    intros (rest' & E & H). apply append_cancel_l in E. now subst.
  - split; [discriminate |]. intros (rest & -> & _).
    assert (strip_prefix t (t ++ rest) = Some rest) by now apply strip_prefix_iff.
    congruence.
Qed.

Lemma opt_iff t re s b :
  match_at (OptText t :: re) s b = true <->
  (exists rest, s = t ++ rest /\ match_at re rest (b && (t =? EmptyString)) = true)
  \/ match_at re s b = true.
Proof.
  rewrite <- text_iff. simpl. now rewrite orb_true_iff.
Qed.

Lemma at_end_iff s :
  at_end s = true <-> s = EmptyString \/ s = String newline EmptyString.
Proof.
  destruct s as [|c [|c' s]]; simpl.
  - tauto.
  - rewrite Ascii.eqb_eq. split; [intros ->; auto | intros [H|H]; [discriminate | now injection H]].
  - split; [discriminate | intros [H|H]; discriminate].
Qed.

Lemma bol_never_later re s : match_later (Bol :: re) s = false.
Proof. induction s as [|c s IH]; simpl; [reflexivity | exact IH]. Qed.

End CliFacts.

Lemma reg_cli_iff (line : string) :
  Cli.found REG_CLI line = true <->
  exists a b,
    Cli.one_line a = true /\ Cli.one_line b = true /\
    (line = a ++ "krux-installer" ++ b \/
     line = a ++ "krux-installer" ++ b ++ String Cli.newline EmptyString).
Proof.
  unfold Cli.found, REG_CLI. rewrite CliFacts.bol_never_later, orb_false_r.
  change (Cli.match_at (Cli.Bol :: ?r) line true) with (Cli.match_at r line true).
  rewrite CliFacts.star_iff by reflexivity.
  split.
  - intros (a & rest & -> & Ha & H).
    apply CliFacts.text_iff in H. destruct H as (r2 & -> & H).
    assert (Htail : forall r flag,
              Cli.match_at [Cli.DotStar; Cli.Eol] r flag = true ->
              exists b, Cli.one_line b = true /\
                        (r = b \/ r = b ++ String Cli.newline EmptyString)).
    { intros r flag Hr. apply CliFacts.star_iff in Hr; [| reflexivity].
      destruct Hr as (b & e & -> & Hb & He).
      simpl in He. rewrite andb_true_r in He.
      apply CliFacts.at_end_iff in He. exists b. split; [exact Hb |].
      destruct He as [-> | ->]; [left; now rewrite append_empty_r | right; reflexivity]. }
    apply CliFacts.opt_iff in H. destruct H as [(r3 & -> & H) | H].
    + destruct (Htail _ _ H) as (b & Hb & Hr).
      exists a, (".py" ++ b). rewrite CliFacts.one_line_app, Hb.
      split; [exact Ha |]. split; [reflexivity |].
      destruct Hr as [-> | ->]; [left | right]; rewrite ?append_assoc; reflexivity.
    + destruct (Htail _ _ H) as (b & Hb & Hr).
      exists a, b. split; [exact Ha |]. split; [exact Hb |].
      destruct Hr as [-> | ->]; [left | right]; reflexivity.
  - intros (a & b & Ha & Hb & Hline).
    assert (Hgo : forall e,
              Cli.at_end e = true ->
              exists a' rest, a ++ "krux-installer" ++ b ++ e = a' ++ rest /\
                Cli.one_line a' = true /\
                Cli.match_at [Cli.Text "krux-installer"; Cli.OptText ".py";
                              Cli.DotStar; Cli.Eol] rest false = true).
    { intros e He. exists a, ("krux-installer" ++ b ++ e).
      split; [reflexivity |]. split; [exact Ha |].
      apply CliFacts.text_iff. eexists. split; [reflexivity |].
      apply CliFacts.opt_iff. right.
      apply CliFacts.star_iff; [reflexivity |].
      exists b, e. split; [reflexivity |]. split; [exact Hb |].
      simpl. now rewrite He. }
    destruct Hline as [-> | ->].
    + destruct (Hgo EmptyString eq_refl) as (a' & rest & E & H).
      rewrite append_empty_r in E. exists a', rest. split; [exact E | exact H].
    + apply Hgo. reflexivity.
Qed.

Example cli_by_script_name :
  Cli.found REG_CLI (Py.join " " ["/usr/bin/python3"; "krux-installer.py"; "-A"]) = true.
Proof. reflexivity. Qed.

Example not_cli_for_the_app :
  Cli.found REG_CLI (Py.join " " ["/usr/bin/python3"; "-m"; "pytest"]) = false.
Proof. reflexivity. Qed.

(** The script takes itself to be run as the command-line tool exactly when
    its arguments, joined by spaces, hold [krux-installer] with no newline
    before or after it, a single newline at the very end apart. Neither
    [.py] nor the place of the name matters: it can be in any argument. *)
Theorem cli_gate (line : string) :
  Cli.found REG_CLI line = true <->
  exists a b,
    Cli.one_line a = true /\ Cli.one_line b = true /\
    (line = a ++ "krux-installer" ++ b \/
     line = a ++ "krux-installer" ++ b ++ String Cli.newline EmptyString).
Proof. exact (reg_cli_iff line). Qed.

Lemma cli_gate_witness :
  Cli.found REG_CLI "krux-installer --wipe" = true.
Proof.
  apply (proj2 (cli_gate "krux-installer --wipe")).
  exists EmptyString, " --wipe". repeat split. left. reflexivity.
Defined.

Lemma str_in_iff (x : string) (l : list string) : str_in x l = true <-> In x l.
Proof.
  unfold str_in. rewrite existsb_exists. split.
  - intros (y & Hy & Hxy). apply String.eqb_eq in Hxy. now subst.
  - intros H. exists x. split; [assumption | apply String.eqb_refl].
Qed.

(** The script as a whole. When its arguments, joined by spaces, do not
    hold [krux-installer], it prints the notice about the kivy app and does
    nothing else. When they hold it (on one line), then on a platform other
    than linux, darwin, freebsd and win32 (the names compared as whole
    strings) it raises a [RuntimeError] before the command line is parsed
    and before anything is done; and on those four it does what the chain
    does on the parsed options, or ends with the exception of the parser. *)
Theorem script_runs_the_driver_only_as_cli
    (w : World) (p : Process) (lines : list string) :
  ((forall a b, Py.join " " (argv p) <> a ++ "krux-installer" ++ b) ->
   run (script w p) lines =
   (Ok tt, {| stdin := lines; trace := [EvPrint "Reserved to run kivy app"] |})) /\
  ((exists a b, Py.join " " (argv p) = a ++ "krux-installer" ++ b /\
                Cli.one_line a = true /\ Cli.one_line b = true) ->
   (~ In (platform p) SUPPORTED ->
    run (script w p) lines =
    (Raise (RuntimeError ("Not implementated for " ++ platform p)),
     {| stdin := lines; trace := [] |})) /\
   (In (platform p) SUPPORTED ->
    run (script w p) lines =
    match parsed p with
    | Ok args => run (main w args) lines
    | Raise e => (Raise e, {| stdin := lines; trace := [] |})
    end)).
Proof.
  split.
  - intros Hno. unfold run, script.
    destruct (Cli.found REG_CLI (Py.join " " (argv p))) eqn:E; [| reflexivity].
    exfalso. apply reg_cli_iff in E. destruct E as (a & b & _ & _ & [E | E]).
    + exact (Hno a b E).
    + apply (Hno a (b ++ String Cli.newline EmptyString)).
      now rewrite E.
  - intros (a & b & E & Ha & Hb).
    assert (Hcli : Cli.found REG_CLI (Py.join " " (argv p)) = true).
    { apply reg_cli_iff. exists a, b. auto. }
    unfold run, script. rewrite Hcli. cbn [negb].
    unfold bind at 1. unfold ret at 1. cbn beta iota.
    split.
    + intros Hplat.
      destruct (str_in (platform p) ["linux"; "darwin"; "freebsd"; "win32"]) eqn:Es;
        [| reflexivity].
      apply str_in_iff in Es. contradiction.
    + intros Hplat. apply str_in_iff in Hplat. unfold SUPPORTED in Hplat.
      rewrite Hplat. unfold bind, call. cbn beta iota.
      destruct (parsed p); reflexivity.
Qed.

Lemma script_runs_the_driver_only_as_cli_witness :
  let app := {| argv := ["main.py"]; platform := "linux";
                parsed := Raise (OtherError "SystemExit" "2") |} in
  let bsd := {| argv := ["krux-installer.py"; "-A"]; platform := "freebsd14";
                parsed := Ok Sample.list_devices |} in
  let cli := {| argv := ["krux-installer.py"; "-A"]; platform := "linux";
                parsed := Ok Sample.list_devices |} in
  run (script Sample.honest app) [] =
    (Ok tt, {| stdin := []; trace := [EvPrint "Reserved to run kivy app"] |}) /\
  run (script Sample.honest bsd) [] =
    (Raise (RuntimeError "Not implementated for freebsd14"),
     {| stdin := []; trace := [] |}) /\
  run (script Sample.honest cli) [] = run (main Sample.honest Sample.list_devices) [].
Proof.
  intros app bsd cli. split; [| split].
  - apply (proj1 (script_runs_the_driver_only_as_cli Sample.honest app [])).
    intros a b H.
    assert (Hf : Cli.found REG_CLI (Py.join " " (argv app)) = true).
    { apply reg_cli_iff. exists a, b.
      assert (Hone : Cli.one_line (Py.join " " (argv app)) = true) by reflexivity.
      rewrite H, !CliFacts.one_line_app in Hone.
      apply andb_prop in Hone. destruct Hone as [Ha Hb].
      apply andb_prop in Hb. destruct Hb as [_ Hb]. auto. }
    discriminate Hf.
  - apply (proj1 (proj2 (script_runs_the_driver_only_as_cli Sample.honest bsd [])
                    (ex_intro _ EmptyString
                       (ex_intro _ ".py -A" (conj eq_refl (conj eq_refl eq_refl)))))).
    unfold SUPPORTED. simpl. intuition discriminate.
  - apply (proj2 (proj2 (script_runs_the_driver_only_as_cli Sample.honest cli [])
                    (ex_intro _ EmptyString
                       (ex_intro _ ".py -A" (conj eq_refl (conj eq_refl eq_refl)))))).
    unfold SUPPORTED. simpl. tauto.
Defined.
